(** * Mayo I/O system: format probing, factory registry, import and export

    A shallow embedding of [src/base/io_system.cpp] and [src/base/messenger.h]
    (namespace [Mayo::IO]).  Vectors are lists, iterators into a [QByteArray]
    are indices, and every read of the byte array goes through a checked
    lookup so that a read outside [0, size()) is visible as a fault instead of
    being given an arbitrary value. *)

From Stdlib Require Import ZArith Lia Ascii.
From stdpp Require Import list strings.

Local Open Scope string_scope.
Local Open Scope list_scope.

(** ** Faults and the result monad

    C++ leaves two things undefined that the probers can reach: reading a
    [QByteArray] outside its bounds ([operator[]], dereferencing [cend()],
    [strncmp] and [atoi] running past the end of a buffer that has no
    terminator, as with [QByteArray::fromRawData]) and [atoi] on a number that
    does not fit an [int]. *)

Inductive Fault :=
| OutOfBounds (index : nat)
| IntOverflow.

Inductive result (A : Type) :=
| Ok (a : A)
| Undefined (f : Fault).
Arguments Ok {A} a.
Arguments Undefined {A} f.

Definition bind {A B} (m : result A) (k : A -> result B) : result B :=
  match m with
  | Ok a => k a
  | Undefined f => Undefined f
  end.

Notation "'do' x <- m ; k" := (bind m (fun x => k))
  (at level 10, x name, m at level 100, k at level 200).
Notation "'do' ' p <- m ; k" := (bind m (fun x => match x with p => k end))
  (at level 10, p pattern, m at level 100, k at level 200).

(** ** Formats *)

(** Modelled from the spec: the enumeration [Format] of [io_format.h], which
    is not among the sources.  The spec names the tags below and calls the set
    extensible; [Format_Other] stands for every further tag. *)
Inductive Format :=
| Format_Unknown
| Format_STEP
| Format_IGES
| Format_OCCBREP
| Format_STL
| Format_OBJ
| Format_Other (tag : nat).

#[global] Instance Format_eq_dec : EqDecision Format.
Proof. solve_decision. Defined.

Definition Format_eqb (a b : Format) : bool := bool_decide (a = b).

(** ** Bytes *)

Abbreviation QByteArray := (list ascii) (only parsing).
Abbreviation FilePath := string (only parsing).

Definition bytes_of (s : string) : QByteArray := String.list_ascii_of_string s.

Definition code (c : ascii) : Z := Z.of_N (N_of_ascii c).

(** The byte that [buff.fill(0)] writes. *)
Definition NUL : ascii := "000"%char.

(** [std::isspace(c, std::locale::classic())] and C's [isspace] in the "C"
    locale: space, [\t], [\n], [\v], [\f], [\r]. *)
Definition isSpace (c : ascii) : bool :=
  let n := N_of_ascii c in
  (n =? 32)%N || ((9 <=? n)%N && (n <=? 13)%N).

(** [std::isdigit(static_cast<unsigned char>(c))]. *)
Definition isDigit (c : ascii) : bool :=
  let n := N_of_ascii c in
  (48 <=? n)%N && (n <=? 57)%N.

(** [sample[i]]: the index must be a valid position. *)
Definition at_ (s : QByteArray) (i : nat) : result ascii :=
  match s !! i with
  | Some c => Ok c
  | None => Undefined (OutOfBounds i)
  end.

(** Modelled from the spec: [System::FormatProbeInput] of [io_system.h], which
    is not among the sources: the path, the beginning of the file and the size
    of the whole file.  [hintFullSize] receives [std::filesystem::file_size],
    an unsigned 64-bit integer. *)
Record FormatProbeInput := {
  filepath : FilePath;
  contentsBegin : QByteArray;
  hintFullSize : Z
}.

(** [std::find_if_not(first, cend, isSpace)] where [l] is the part of the
    array from index [first] on; the result is an index, [cend] being the
    length of the array. *)
Fixpoint find_if_not_from (p : ascii -> bool) (l : QByteArray) (first : nat) : nat :=
  match l with
  | [] => first
  | c :: l' => if p c then find_if_not_from p l' (S first) else first
  end.

Definition find_if_not (s : QByteArray) (first : nat) (p : ascii -> bool) : nat :=
  find_if_not_from p (drop first s) first.

Definition findFirstNonSpace (str : QByteArray) : nat :=
  find_if_not str 0 isSpace.

(** [std::strncmp] of the bytes at [itBegin] against [token.data()] over
    [token.size()] bytes, compared with zero.  The bytes
    of the array are read one by one from [itBegin] as long as they agree with
    the token; the token holds no NUL, so the comparison stops at the first
    difference or after [token.size()] bytes. *)
Fixpoint strncmp_eq (s : QByteArray) (pos : nat) (token : list ascii) : result bool :=
  match token with
  | [] => Ok true
  | t :: token' =>
      do c <- at_ s pos;
      if Ascii.eqb c t then strncmp_eq s (S pos) token' else Ok false
  end.

Definition matchToken (s : QByteArray) (itBegin : nat) (token : string) : result bool :=
  strncmp_eq s itBegin (bytes_of token).

Definition probeFormat_STEP (input : FormatProbeInput) : result Format :=
  let sample := contentsBegin input in
  let stepIsoId := "ISO-10303-21" in
  let stepHeaderToken := "HEADER" in
  let itContentsBegin := findFirstNonSpace sample in
  do m <- matchToken sample itContentsBegin stepIsoId;
  if m then
    let itChar := find_if_not sample (itContentsBegin + String.length stepIsoId) isSpace in
    if bool_decide (itChar ≠ length sample) && bool_decide (sample !! itChar = Some ";"%char) then
      let itChar := find_if_not sample (itChar + 1) isSpace in
      do m <- matchToken sample itChar stepHeaderToken;
      if m then Ok Format_STEP else Ok Format_Unknown
    else Ok Format_Unknown
  else Ok Format_Unknown.

(** [std::atoi(p)]: skip white space, take an optional sign, then accumulate
    decimal digits up to the first byte that is not a digit.  Every byte
    looked at is read from the buffer; a value outside the range of [int] is
    undefined. *)
Definition INT_MAX : Z := 2147483647.
Definition INT_MIN : Z := -2147483648.

Fixpoint atoi_digits (fuel : nat) (s : QByteArray) (pos : nat) (acc : Z) : result Z :=
  match fuel with
  | O => Undefined (OutOfBounds pos)
  | S fuel' =>
      do c <- at_ s pos;
      if isDigit c then atoi_digits fuel' s (S pos) (10 * acc + (code c - 48))
      else Ok acc
  end.

Fixpoint atoi_spaces (fuel : nat) (s : QByteArray) (pos : nat) : result nat :=
  match fuel with
  | O => Undefined (OutOfBounds pos)
  | S fuel' =>
      do c <- at_ s pos;
      if isSpace c then atoi_spaces fuel' s (S pos) else Ok pos
  end.

Definition atoi (s : QByteArray) (pos : nat) : result Z :=
  let fuel := S (length s) in
  do pos <- atoi_spaces fuel s pos;
  do c <- at_ s pos;
  let neg := Ascii.eqb c "-"%char in
  let pos := if neg || Ascii.eqb c "+"%char then S pos else pos in
  do v <- atoi_digits fuel s pos 0;
  let v := if neg then (- v)%Z else v in
  if ((INT_MIN <=? v) && (v <=? INT_MAX))%Z then Ok v else Undefined IntOverflow.

(** The loop [for (int i = 73; i < 80 && isIges; ++i)] over the remaining
    indices [i, 80). *)
Fixpoint iges_columns (n : nat) (sample : QByteArray) (i : nat) (isIges : bool) : result bool :=
  match n with
  | O => Ok isIges
  | S n' =>
      if isIges then
        do c <- at_ sample i;
        iges_columns n' sample (S i)
          (if negb (Ascii.eqb c " "%char) && negb (isDigit c) then false else isIges)
      else Ok isIges
  end.

(** What the loop asks of each of the bytes 73 to 79. *)
Definition iges_column_ok (c : ascii) : Prop := c = " "%char \/ isDigit c = true.

(** The bytes that may stand at index 80: [\n], [\r], [\f]. *)
Definition iges_line_end (c : ascii) : Prop :=
  c = "010"%char \/ c = "013"%char \/ c = "012"%char.

Definition probeFormat_IGES (input : FormatProbeInput) : result Format :=
  let sample := contentsBegin input in
  let isIges := true in
  if (80 <=? length sample)%nat then
    do c72 <- at_ sample 72;
    if Ascii.eqb c72 "S"%char then
      do isIges <- iges_columns 7 sample 73 isIges;
      do c80 <- at_ sample 80;
      if isIges && (Ascii.eqb c80 "010"%char || Ascii.eqb c80 "013"%char
                    || Ascii.eqb c80 "012"%char) then
        do sVal <- atoi sample 73;
        if (sVal =? 1)%Z then Ok Format_IGES else Ok Format_Unknown
      else Ok Format_Unknown
    else Ok Format_Unknown
  else Ok Format_Unknown.

Definition probeFormat_OCCBREP (input : FormatProbeInput) : result Format :=
  let itContentsBegin := findFirstNonSpace (contentsBegin input) in
  let occBRepToken := "DBRep_DrawableShape" in
  do m <- matchToken (contentsBegin input) itContentsBegin occBRepToken;
  if m then Ok Format_OCCBREP else Ok Format_Unknown.

(** Fixed-width integers: [int] and [unsigned]/[uint32_t] have 32 bits,
    [size_t] and the file size 64 bits. *)
Definition to_int32 (z : Z) : Z := ((z + 2 ^ 31) mod 2 ^ 32 - 2 ^ 31)%Z.
Definition to_uint32 (z : Z) : Z := (z mod 2 ^ 32)%Z.
Definition to_uint64 (z : Z) : Z := (z mod 2 ^ 64)%Z.

Definition binaryStlHeaderSize : Z := 80 + 4.
Definition facetSize : Z := 4 * 12 + 2.

(** [bytes[offset] | (bytes[offset+1] << 8) | (bytes[offset+2] << 16) |
    (bytes[offset+3] << 24)]: the bytes are promoted to [int], shifted and
    or-ed as [int], and the result is converted to [uint32_t]. *)
Definition facetsCount_of (b0 b1 b2 b3 : ascii) : Z :=
  to_uint32
    (Z.lor (Z.lor (Z.lor (code b0)
                         (to_int32 (Z.shiftl (code b1) 8)))
                  (to_int32 (Z.shiftl (code b2) 16)))
           (to_int32 (Z.shiftl (code b3) 24))).

(** The block "Binary STL ?": [true] when it executes [return Format_STL]. *)
Definition probeFormat_STL_binary (input : FormatProbeInput) : result bool :=
  let sample := contentsBegin input in
  if (binaryStlHeaderSize <=? Z.of_nat (length sample))%Z then
    let offset := 80%nat in
    do b0 <- at_ sample offset;
    do b1 <- at_ sample (offset + 1);
    do b2 <- at_ sample (offset + 2);
    do b3 <- at_ sample (offset + 3);
    let facetsCount := facetsCount_of b0 b1 b2 b3 in
    Ok (to_uint64 (to_uint32 (facetSize * facetsCount) + binaryStlHeaderSize)
        =? hintFullSize input)%Z
  else Ok false.

(** The block "ASCII STL ?". *)
Definition probeFormat_STL_ascii (input : FormatProbeInput) : result bool :=
  let asciiStlToken := "solid" in
  let itContentsBegin := findFirstNonSpace (contentsBegin input) in
  matchToken (contentsBegin input) itContentsBegin asciiStlToken.

Definition probeFormat_STL (input : FormatProbeInput) : result Format :=
  do bin <- probeFormat_STL_binary input;
  if bin then Ok Format_STL
  else
    do asc <- probeFormat_STL_ascii input;
    if asc then Ok Format_STL else Ok Format_Unknown.

(** ** Regular expressions, for [probeFormat_OBJ]

    The part of the ECMAScript grammar of [std::regex] that the pattern of
    [probeFormat_OBJ] uses.  [rx_ends r i] lists the positions at which a
    match of [r] that starts at position [i] can end; a backtracking matcher
    finds a match exactly when there is one, so for [std::regex_search], which
    only reports whether some match exists, the order of the list is of no
    importance. *)

Inductive regex :=
| REps
| RChar (c : ascii)
| RClass (p : ascii -> bool)
| RBol
| RSeq (r1 r2 : regex)
| RAlt (r1 r2 : regex)
| RStar (r : regex)
| RPlus (r : regex)
| ROpt (r : regex).

Fixpoint RLit (token : list ascii) : regex :=
  match token with
  | [] => REps
  | c :: token' => RSeq (RChar c) (RLit token')
  end.

(** Repetition of a matcher [step]: each further round has to consume at
    least one byte, so [length s] rounds are enough. *)
Fixpoint rx_star (step : nat -> list nat) (fuel : nat) (i : nat) : list nat :=
  i :: match fuel with
       | O => []
       | S fuel' =>
           flat_map (fun j => if (i <? j)%nat then rx_star step fuel' j else [])
                    (step i)
       end.

(** [^]: the beginning of the searched range and, with
    [std::regex::multiline], the position after a line terminator. *)
Definition at_bol (multiline : bool) (s : QByteArray) (i : nat) : bool :=
  match i with
  | O => true
  | S k =>
      multiline &&
      match s !! k with
      | Some c => Ascii.eqb c "010"%char || Ascii.eqb c "013"%char
      | None => false
      end
  end.

Fixpoint rx_ends (multiline : bool) (s : QByteArray) (r : regex) (i : nat) : list nat :=
  match r with
  | REps => [i]
  | RChar c =>
      match s !! i with
      | Some c' => if Ascii.eqb c' c then [S i] else []
      | None => []
      end
  | RClass p =>
      match s !! i with
      | Some c' => if p c' then [S i] else []
      | None => []
      end
  | RBol => if at_bol multiline s i then [i] else []
  | RSeq r1 r2 => flat_map (rx_ends multiline s r2) (rx_ends multiline s r1 i)
  | RAlt r1 r2 => rx_ends multiline s r1 i ++ rx_ends multiline s r2 i
  | RStar r' => rx_star (rx_ends multiline s r') (length s) i
  | RPlus r' =>
      flat_map (rx_star (rx_ends multiline s r') (length s)) (rx_ends multiline s r' i)
  | ROpt r' => i :: rx_ends multiline s r' i
  end.

(** [std::regex_search(first, last, rx)]: is there a match starting at some
    position of the range. *)
Definition regex_search (multiline : bool) (s : QByteArray) (rx : regex) : bool :=
  existsb (fun i => negb (bool_decide (rx_ends multiline s rx i = [])))
          (seq 0 (S (length s))).

Definition quote : ascii := "034"%char.

Fixpoint RSeqs (rs : list regex) : regex :=
  match rs with
  | [] => REps
  | r :: rs' => RSeq r (RSeqs rs')
  end.

(** What stands between the two quotes of the pattern:
    [^\s*(v|vt|vn|vp|surf)\s+[-\+]?[0-9\.]+\s]. *)
Definition rx_OBJ_inner : list regex :=
  [ RBol;
    RStar (RClass isSpace);
    RAlt (RLit (bytes_of "v"))
      (RAlt (RLit (bytes_of "vt"))
      (RAlt (RLit (bytes_of "vn"))
      (RAlt (RLit (bytes_of "vp"))
            (RLit (bytes_of "surf")))));
    RPlus (RClass isSpace);
    ROpt (RClass (fun c => Ascii.eqb c "-"%char || Ascii.eqb c "+"%char));
    RPlus (RClass (fun c => isDigit c || Ascii.eqb c "."%char));
    RClass isSpace ].

(** The pattern of [probeFormat_OBJ].  The raw string literal of the source
    keeps the two double quotes that stand inside its parentheses, so the
    pattern starts with a quote before [^] and ends with a quote. *)
Definition rx_OBJ : regex :=
  RSeqs (RChar quote :: rx_OBJ_inner ++ [RChar quote]).

(** The pattern without the two quotes, as the comments that accompany the
    other probers write theirs; it serves to show what the quotes cost. *)
Definition rx_OBJ_unquoted : regex := RSeqs rx_OBJ_inner.

(** [multiline] is the [std::regex::multiline] flag of the implementation's
    default; the source passes no flags. *)
Definition probeFormat_OBJ_with (multiline : bool) (input : FormatProbeInput) : result Format :=
  let sample := contentsBegin input in
  let rx := rx_OBJ in
  if regex_search multiline sample rx then Ok Format_OBJ else Ok Format_Unknown.

Definition probeFormat_OBJ : FormatProbeInput -> result Format :=
  probeFormat_OBJ_with false.

(** ** Readers, writers, factories and the registry *)

(** A top-level entity of the document, as [Reader::transfer] returns them. *)
Abbreviation TDF_Label := nat (only parsing).

Abbreviation PropertyGroup := nat (only parsing).

Abbreviation ApplicationItem := nat (only parsing).

(** Modelled from the spec: the interface [Reader] of [io_reader.h], which is
    not among the sources.  A reader object is taken as the answers it gives
    to the orchestrator in the run at hand: the result of [readFile] on a
    path and the sequence of entities that [transfer] returns once that path
    has been read. *)
Record Reader := {
  Reader_readFile : FilePath -> bool;
  Reader_transfer : FilePath -> list TDF_Label
}.

(** Modelled from the spec: the interface [Writer] of [io_writer.h], which is
    not among the sources, taken likewise as the results of [transfer] and
    [writeFile]. *)
Record Writer := {
  Writer_transfer : list ApplicationItem -> bool;
  Writer_writeFile : FilePath -> bool
}.

(** Modelled from the spec: [FactoryReader] and [FactoryWriter] of
    [io_system.h]: the formats a factory advertises and its [create].  A
    factory is held through a pointer and the registry compares pointers, so
    the object carries its address. *)
Record FactoryReader := {
  FactoryReader_address : nat;
  FactoryReader_formats : list Format;
  FactoryReader_create : Format -> option Reader
}.

Record FactoryWriter := {
  FactoryWriter_address : nat;
  FactoryWriter_formats : list Format;
  FactoryWriter_create : Format -> option Writer
}.

Definition FormatProbe := FormatProbeInput -> result Format.

Record System := {
  m_vecFormatProbe : list FormatProbe;
  m_vecFactoryReader : list FactoryReader;
  m_vecFactoryWriter : list FactoryWriter;
  m_vecReaderFormat : list Format;
  m_vecWriterFormat : list Format
}.

(** A [System] as its constructor leaves it. *)
Definition System_new : System :=
  {| m_vecFormatProbe := [];
     m_vecFactoryReader := [];
     m_vecFactoryWriter := [];
     m_vecReaderFormat := [];
     m_vecWriterFormat := [] |}.

Definition containsFormat (spanFormat : list Format) (format : Format) : bool :=
  existsb (Format_eqb format) spanFormat.

Definition addFormatProbe (sys : System) (probe : FormatProbe) : System :=
  {| m_vecFormatProbe := m_vecFormatProbe sys ++ [probe];
     m_vecFactoryReader := m_vecFactoryReader sys;
     m_vecFactoryWriter := m_vecFactoryWriter sys;
     m_vecReaderFormat := m_vecReaderFormat sys;
     m_vecWriterFormat := m_vecWriterFormat sys |}.

(** The loop of [addFactoryReader] and [addFactoryWriter] over
    [ptr->formats()]: a format goes to the back of the vector unless
    [std::find] meets it there. *)
Fixpoint addFormats (formats : list Format) (vecFormat : list Format) : list Format :=
  match formats with
  | [] => vecFormat
  | format :: formats' =>
      addFormats formats'
        (if containsFormat vecFormat format then vecFormat else vecFormat ++ [format])
  end.

(** [ptr] is the [std::unique_ptr] argument; [None] is the null pointer. *)
Definition addFactoryReader (sys : System) (ptr : option FactoryReader) : System :=
  match ptr with
  | None => sys
  | Some f =>
      if existsb (fun g => (FactoryReader_address g =? FactoryReader_address f)%nat)
                 (m_vecFactoryReader sys)
      then sys
      else
        {| m_vecFormatProbe := m_vecFormatProbe sys;
           m_vecFactoryReader := m_vecFactoryReader sys ++ [f];
           m_vecFactoryWriter := m_vecFactoryWriter sys;
           m_vecReaderFormat := addFormats (FactoryReader_formats f) (m_vecReaderFormat sys);
           m_vecWriterFormat := m_vecWriterFormat sys |}
  end.

Definition addFactoryWriter (sys : System) (ptr : option FactoryWriter) : System :=
  match ptr with
  | None => sys
  | Some f =>
      if existsb (fun g => (FactoryWriter_address g =? FactoryWriter_address f)%nat)
                 (m_vecFactoryWriter sys)
      then sys
      else
        {| m_vecFormatProbe := m_vecFormatProbe sys;
           m_vecFactoryReader := m_vecFactoryReader sys;
           m_vecFactoryWriter := m_vecFactoryWriter sys ++ [f];
           m_vecReaderFormat := m_vecReaderFormat sys;
           m_vecWriterFormat := addFormats (FactoryWriter_formats f) (m_vecWriterFormat sys) |}
  end.

Fixpoint findFactoryReader_in (vec : list FactoryReader) (format : Format) : option FactoryReader :=
  match vec with
  | [] => None
  | ptr :: vec' =>
      if containsFormat (FactoryReader_formats ptr) format then Some ptr
      else findFactoryReader_in vec' format
  end.

Definition findFactoryReader (sys : System) (format : Format) : option FactoryReader :=
  findFactoryReader_in (m_vecFactoryReader sys) format.

Fixpoint findFactoryWriter_in (vec : list FactoryWriter) (format : Format) : option FactoryWriter :=
  match vec with
  | [] => None
  | ptr :: vec' =>
      if containsFormat (FactoryWriter_formats ptr) format then Some ptr
      else findFactoryWriter_in vec' format
  end.

Definition findFactoryWriter (sys : System) (format : Format) : option FactoryWriter :=
  findFactoryWriter_in (m_vecFactoryWriter sys) format.

Definition createReader (sys : System) (format : Format) : option Reader :=
  match findFactoryReader sys format with
  | Some ptr => FactoryReader_create ptr format
  | None => None
  end.

Definition createWriter (sys : System) (format : Format) : option Writer :=
  match findFactoryWriter sys format with
  | Some ptr => FactoryWriter_create ptr format
  | None => None
  end.

(** A registration call, for statements about sequences of them. *)
Inductive Registration :=
| Reg_addFactoryReader (ptr : option FactoryReader)
| Reg_addFactoryWriter (ptr : option FactoryWriter).

Definition register (sys : System) (r : Registration) : System :=
  match r with
  | Reg_addFactoryReader ptr => addFactoryReader sys ptr
  | Reg_addFactoryWriter ptr => addFactoryWriter sys ptr
  end.

Definition register_all (sys : System) (rs : list Registration) : System :=
  fold_left register rs sys.

(** The invariant of the registry: no format twice in a format vector, no
    address twice in a factory vector. *)
Definition registry_wf (sys : System) : Prop :=
  NoDup (m_vecReaderFormat sys) /\
  NoDup (m_vecWriterFormat sys) /\
  NoDup (map FactoryReader_address (m_vecFactoryReader sys)) /\
  NoDup (map FactoryWriter_address (m_vecFactoryWriter sys)).

(** ** The probe dispatcher *)

(** [std::filesystem::path::filename] and [extension] on a POSIX path: the
    file name is what follows the last [/]; the extension starts at the last
    period of the file name, unless the file name is [.] or [..], has no
    period or has its only period in front. *)
Fixpoint take_until (p : ascii -> bool) (l : list ascii) : list ascii :=
  match l with
  | [] => []
  | c :: l' => if p c then [] else c :: take_until p l'
  end.

Definition path_filename (path : list ascii) : list ascii :=
  reverse (take_until (Ascii.eqb "/"%char) (reverse path)).

Definition path_extension (path : list ascii) : list ascii :=
  let name := path_filename path in
  let after_period := take_until (Ascii.eqb "."%char) (reverse name) in
  if bool_decide (name = bytes_of "..") then []
  else if (length after_period =? length name)%nat then []
  else if (S (length after_period) =? length name)%nat then []
  else "."%char :: reverse after_period.

(** [std::tolower(c, std::locale::classic())]. *)
Definition tolower (c : ascii) : ascii :=
  let n := N_of_ascii c in
  if (65 <=? n)%N && (n <=? 90)%N then ascii_of_N (n + 32) else c.

Definition fnCharIEqual (lhs rhs : ascii) : bool :=
  Ascii.eqb (tolower lhs) (tolower rhs).

(** [std::equal(first1, last1, first2, pred)] on two ranges of one length. *)
Fixpoint std_equal (pred : ascii -> ascii -> bool) (l1 l2 : list ascii) : bool :=
  match l1, l2 with
  | [], _ => true
  | c1 :: l1', c2 :: l2' => pred c1 c2 && std_equal pred l1' l2'
  | _ :: _, [] => false
  end.

Section ProbeFormat.

(** [formatFileSuffixes] of [io_format.h] is not among the sources and the
    spec does not list the suffixes: it is a parameter.  [fs] is the file
    system: the bytes of a file that [std::ifstream::open] can open, [None]
    for one it cannot. *)
Variable formatFileSuffixes : Format -> list string.
Variable fs : FilePath -> option QByteArray.

(** The suffix that the fallback compares: the extension without its
    leading period. *)
Definition fileSuffix_of (filepath : FilePath) : list ascii :=
  let fileSuffix := path_extension (bytes_of filepath) in
  match fileSuffix with
  | c :: rest => if Ascii.eqb c "."%char then rest else fileSuffix
  | [] => fileSuffix
  end.

Fixpoint matchFileSuffix_in (candidates : list string) (fileSuffix : list ascii) : bool :=
  match candidates with
  | [] => false
  | candidate :: candidates' =>
      if (length (bytes_of candidate) =? length fileSuffix)%nat
         && std_equal fnCharIEqual (bytes_of candidate) fileSuffix
      then true
      else matchFileSuffix_in candidates' fileSuffix
  end.

Definition fnMatchFileSuffix (fileSuffix : list ascii) (format : Format) : bool :=
  matchFileSuffix_in (formatFileSuffixes format) fileSuffix.

(** In the words of the spec: the canonical suffix list of [format] contains
    the final extension of the path, compared without regard to case. *)
Definition suffix_matches (filepath : FilePath) (format : Format) : Prop :=
  exists candidate,
    candidate ∈ formatFileSuffixes format /\
    map tolower (bytes_of candidate) = map tolower (fileSuffix_of filepath).

(** The loop over [m_vecFormatProbe]: [Some format] when it returns from
    [probeFormat], [None] when it runs to its end. *)
Fixpoint probe_loop (vec : list FormatProbe) (probeInput : FormatProbeInput)
  : result (option Format) :=
  match vec with
  | [] => Ok None
  | fnProbe :: vec' =>
      do format <- fnProbe probeInput;
      if negb (Format_eqb format Format_Unknown) then Ok (Some format)
      else probe_loop vec' probeInput
  end.

(** The loops over [m_vecReaderFormat] and [m_vecWriterFormat]. *)
Fixpoint suffix_loop (vec : list Format) (fileSuffix : list ascii) : option Format :=
  match vec with
  | [] => None
  | format :: vec' =>
      if fnMatchFileSuffix fileSuffix format then Some format
      else suffix_loop vec' fileSuffix
  end.

Definition guessFromSuffix (sys : System) (filepath : FilePath) : Format :=
  let fileSuffix := fileSuffix_of filepath in
  match suffix_loop (m_vecReaderFormat sys) fileSuffix with
  | Some format => format
  | None =>
      match suffix_loop (m_vecWriterFormat sys) fileSuffix with
      | Some format => format
      | None => Format_Unknown
      end
  end.

(** [buff.fill(0); file.read(buff.data(), buff.size())] on a 2048-byte
    array. *)
Definition read_buff (contents : QByteArray) : QByteArray :=
  take 2048 (contents ++ replicate 2048 "000"%char).

Definition make_probeInput (filepath : FilePath) (contents : QByteArray) : FormatProbeInput :=
  {| filepath := filepath;
     contentsBegin := read_buff contents;
     hintFullSize := Z.of_nat (length contents) |}.

Definition probeFormat (sys : System) (filepath : FilePath) : result Format :=
  do probed <-
    match fs filepath with
    | Some contents => probe_loop (m_vecFormatProbe sys) (make_probeInput filepath contents)
    | None => Ok None
    end;
  match probed with
  | Some format => Ok format
  | None => Ok (guessFromSuffix sys filepath)
  end.

End ProbeFormat.

Definition addPredefinedFormatProbes (system : option System) : option System :=
  match system with
  | None => None
  | Some system =>
      let system := addFormatProbe system probeFormat_STEP in
      let system := addFormatProbe system probeFormat_IGES in
      let system := addFormatProbe system probeFormat_OCCBREP in
      let system := addFormatProbe system probeFormat_STL in
      let system := addFormatProbe system probeFormat_OBJ in
      Some system
  end.

(** ** Messenger *)

Inductive MessageType := Trace | Info | Warning | Error.

(** The messenger objects: the one behind [NullMessenger::instance()] and
    those of the callers. *)
Inductive Messenger :=
| NullMessenger_instance
| Messenger_at (address : nat).

(** The object that the pointer returned by [nullMessenger()] points to.  A
    [Messenger*] that may be null is an [option Messenger]. *)
Definition nullMessenger : Messenger := NullMessenger_instance.

(** ** Task progress *)

(** Modelled from the spec: [TaskProgress] of [task_progress.h], which is not
    among the sources.  Of a progress node only the cancellation signal is
    kept, as the answer of [isAbortRequested] at each moment of the run (the
    moments are counted by the orchestrator's clock); portions, labels and
    values are left out. *)
Record TaskProgress := {
  TaskProgress_isAbortRequested : nat -> bool
}.

(** [static TaskProgress null]: nobody requests its abort. *)
Definition nullTaskProgress : TaskProgress :=
  {| TaskProgress_isAbortRequested := fun _ => false |}.

(** ** Calls on the collaborators

    What an operation does to the objects around it (messenger, reader,
    writer, document, callbacks), in the order in which it does it. *)
Inductive Call :=
| Messenger_emitMessage (m : Messenger) (msgType : MessageType) (text : string)
| Call_Reader_setMessenger (r : Reader) (m : option Messenger)
| Call_Reader_applyProperties (r : Reader) (params : PropertyGroup)
| Call_Reader_readFile (r : Reader) (fp : FilePath)
| Call_Reader_transfer (r : Reader)
| Call_entityPostProcess (label : TDF_Label)
| Call_Document_addEntityTreeNode (label : TDF_Label)
| Call_Writer_setMessenger (w : Writer) (m : option Messenger)
| Call_Writer_applyProperties (w : Writer) (params : option PropertyGroup)
| Call_Writer_transfer (w : Writer) (items : list ApplicationItem)
| Call_Writer_writeFile (w : Writer) (fp : FilePath).

(** Modelled from the spec: [Messenger::emitError] of [messenger.cpp], which
    is not among the sources: the emitters forward to the virtual
    [emitMessage] with their level. *)
Definition emitError (m : Messenger) (text : string) : list Call :=
  [Messenger_emitMessage m Error text].

Definition newline : string := String "010"%char EmptyString.

(** [tr("Error during import of '%1'\n%2").arg(filepath, errorMsg)], without
    translation. *)
Definition importErrorText (fp : FilePath) (errorMsg : string) : string :=
  "Error during import of '" +:+ fp +:+ "'" +:+ newline +:+ errorMsg.

Definition exportErrorText (fp : FilePath) (errorMsg : string) : string :=
  "Error during export to '" +:+ fp +:+ "'" +:+ newline +:+ errorMsg.

(** The messages among the calls. *)
Definition messages (cs : list Call) : list (Messenger * MessageType * string) :=
  omap (fun c => match c with
                 | Messenger_emitMessage m msgType text => Some (m, msgType, text)
                 | _ => None
                 end) cs.

(** A call that hands over or uses a messenger does so with the pointer to
    [m], not with another pointer and not with the null pointer. *)
Definition uses_messenger (m : Messenger) (c : Call) : Prop :=
  match c with
  | Messenger_emitMessage m' _ _ => m' = m
  | Call_Reader_setMessenger _ p => p = Some m
  | Call_Writer_setMessenger _ p => p = Some m
  | _ => True
  end.

(** A call that changes the document: a transfer, the post-processing of an
    entity, the attachment of an entity to the tree. *)
Definition touches_document (c : Call) : Prop :=
  match c with
  | Call_Reader_transfer _ => True
  | Call_entityPostProcess _ => True
  | Call_Document_addEntityTreeNode _ => True
  | _ => False
  end.

(** Every [transfer] of a reader comes after a [readFile] of that reader
    which returned [true]. *)
Definition transfer_follows_read (cs : list Call) : Prop :=
  forall i r,
    cs !! i = Some (Call_Reader_transfer r) ->
    exists j fp,
      j < i /\ cs !! j = Some (Call_Reader_readFile r fp) /\ Reader_readFile r fp = true.

(** ** Export *)

(** Modelled from the spec: [Args_ExportApplicationItems] of [io_system.h],
    with the fields that [exportApplicationItems] reads. *)
Record Args_ExportApplicationItems := {
  Export_targetFilepath : FilePath;
  Export_targetFormat : Format;
  Export_applicationItems : list ApplicationItem;
  Export_parameters : option PropertyGroup;
  Export_messenger : option Messenger;
  Export_progress : option TaskProgress
}.

(** The result of an operation: the value it returns and the calls it has
    made. *)
Definition exportApplicationItems (sys : System) (args : Args_ExportApplicationItems)
  : bool * list Call :=
  let messenger :=
    match Export_messenger args with
    | Some m => m
    | None => nullMessenger
    end in
  let fnError (errorMsg : string) (calls : list Call) : bool * list Call :=
    (false, calls ++ emitError messenger (exportErrorText (Export_targetFilepath args) errorMsg)) in
  match createWriter sys (Export_targetFormat args) with
  | None => fnError "No supporting writer" []
  | Some writer =>
      let calls := [Call_Writer_setMessenger writer (Export_messenger args);
                    Call_Writer_applyProperties writer (Export_parameters args)] in
      let calls := calls ++ [Call_Writer_transfer writer (Export_applicationItems args)] in
      let okTransfer := Writer_transfer writer (Export_applicationItems args) in
      if negb okTransfer then fnError "File transfer problem" calls
      else
        let calls := calls ++ [Call_Writer_writeFile writer (Export_targetFilepath args)] in
        let okWriteFile := Writer_writeFile writer (Export_targetFilepath args) in
        if negb okWriteFile then fnError "File write problem" calls
        else (true, calls)
  end.

(** ** Import *)

(** Modelled from the spec: [Args_ImportInDocument] of [io_system.h], with
    the fields that [importInDocument] reads.  The target document is the one
    document of the operation and is not named; [entityPostProcess] tells
    whether the [std::function] holds a callback, whose calls are recorded. *)
Record Args_ImportInDocument := {
  Import_filepaths : list FilePath;
  Import_parametersProvider : option (Format -> PropertyGroup);
  Import_entityPostProcess : bool;
  Import_entityPostProcessRequiredIf : option (Format -> bool);
  Import_messenger : option Messenger;
  Import_progress : option TaskProgress
}.

Module TaskData.
Record t := mk {
  reader : option Reader;
  filepath : FilePath;
  fileFormat : Format;
  progress : option TaskProgress;
  taskId : nat;
  seqTransferredEntity : list TDF_Label;
  readSuccess : bool;
  transferred : bool
}.

(** A value-initialised [TaskData]. *)
Definition init : t :=
  mk None "" Format_Unknown None 0 [] false false.

Definition set_reader (d : t) (v : option Reader) : t :=
  mk v (filepath d) (fileFormat d) (progress d) (taskId d)
     (seqTransferredEntity d) (readSuccess d) (transferred d).
Definition set_filepath (d : t) (v : FilePath) : t :=
  mk (reader d) v (fileFormat d) (progress d) (taskId d)
     (seqTransferredEntity d) (readSuccess d) (transferred d).
Definition set_fileFormat (d : t) (v : Format) : t :=
  mk (reader d) (filepath d) v (progress d) (taskId d)
     (seqTransferredEntity d) (readSuccess d) (transferred d).
Definition set_progress (d : t) (v : option TaskProgress) : t :=
  mk (reader d) (filepath d) (fileFormat d) v (taskId d)
     (seqTransferredEntity d) (readSuccess d) (transferred d).
Definition set_taskId (d : t) (v : nat) : t :=
  mk (reader d) (filepath d) (fileFormat d) (progress d) v
     (seqTransferredEntity d) (readSuccess d) (transferred d).
Definition set_seqTransferredEntity (d : t) (v : list TDF_Label) : t :=
  mk (reader d) (filepath d) (fileFormat d) (progress d) (taskId d)
     v (readSuccess d) (transferred d).
Definition set_readSuccess (d : t) (v : bool) : t :=
  mk (reader d) (filepath d) (fileFormat d) (progress d) (taskId d)
     (seqTransferredEntity d) v (transferred d).
Definition set_transferred (d : t) (v : bool) : t :=
  mk (reader d) (filepath d) (fileFormat d) (progress d) (taskId d)
     (seqTransferredEntity d) (readSuccess d) v.
End TaskData.

(** What the closures of [importInDocument] share by reference: the local
    [ok] and, through the messenger, the reader and the document, the calls
    made so far. *)
Record Effects := {
  ok : bool;
  calls : list Call
}.

Definition call (e : Effects) (cs : list Call) : Effects :=
  {| ok := ok e; calls := calls e ++ cs |}.

(** The many-files case runs the [readFile] stages on the threads of a child
    task manager while the calling thread polls for finished tasks.  A run is
    laid out as a schedule: [ReadDone i] is the moment at which the task of
    the [i]-th file has run [fnReadFile] to its end, [DrainIteration] one
    evaluation of the condition of the [while] loop followed, if it holds, by
    the body.  The clock of the operation counts the events gone by. *)
Inductive SchedEvent :=
| ReadDone (i : nat)
| DrainIteration.

Record DrainState := {
  effects : Effects;
  vecTaskData : list TaskData.t;
  doneTasks : list nat;
  taskDataCount : nat
}.

Section ImportInDocument.

Variable formatFileSuffixes : Format -> list string.
Variable fs : FilePath -> option QByteArray.
Variable sys : System.
Variable args : Args_ImportInDocument.

(** The progress node that the child task manager hands to the task with a
    given id. *)
Variable childProgress : nat -> TaskProgress.

Definition rootProgress : TaskProgress :=
  match Import_progress args with
  | Some p => p
  | None => nullTaskProgress
  end.

Definition messenger : Messenger :=
  match Import_messenger args with
  | Some m => m
  | None => nullMessenger
  end.

(** The success of one file, stage by stage: the reader that the probed
    format gives, the result of its [readFile], and whether its [transfer]
    returns entities. *)
Definition reader_for (fp : FilePath) : option Reader :=
  match probeFormat formatFileSuffixes fs sys fp with
  | Ok format =>
      if Format_eqb format Format_Unknown then None else createReader sys format
  | Undefined _ => None
  end.

Definition file_reads (fp : FilePath) : bool :=
  match reader_for fp with
  | Some reader => Reader_readFile reader fp
  | None => false
  end.

Definition file_ok (fp : FilePath) : bool :=
  match reader_for fp with
  | Some reader =>
      Reader_readFile reader fp && negb (bool_decide (Reader_transfer reader fp = []))
  | None => false
  end.

Definition fnEntityPostProcessRequired (format : Format) : bool :=
  match Import_entityPostProcess args, Import_entityPostProcessRequiredIf args with
  | true, Some requiredIf => requiredIf format
  | _, _ => false
  end.

Definition fnAddError (fp : FilePath) (errorMsg : string) (e : Effects) : Effects :=
  {| ok := false;
     calls := calls e ++ emitError messenger (importErrorText fp errorMsg) |}.

Definition fnReadFileError (fp : FilePath) (errorMsg : string) (e : Effects)
  : bool * Effects :=
  (false, fnAddError fp errorMsg e).

Definition fnReadFile (taskData : TaskData.t) (e : Effects)
  : result (bool * TaskData.t * Effects) :=
  do format <- probeFormat formatFileSuffixes fs sys (TaskData.filepath taskData);
  let taskData := TaskData.set_fileFormat taskData format in
  if Format_eqb format Format_Unknown then
    let '(r, e) := fnReadFileError (TaskData.filepath taskData) "Unknown format" e in
    Ok (r, taskData, e)
  else
    let taskData := TaskData.set_reader taskData (createReader sys format) in
    match TaskData.reader taskData with
    | None =>
        let '(r, e) := fnReadFileError (TaskData.filepath taskData) "No supporting reader" e in
        Ok (r, taskData, e)
    | Some reader =>
        let e := call e [Call_Reader_setMessenger reader (Some messenger)] in
        let e :=
          match Import_parametersProvider args with
          | Some findReaderParameters =>
              call e [Call_Reader_applyProperties reader (findReaderParameters format)]
          | None => e
          end in
        let e := call e [Call_Reader_readFile reader (TaskData.filepath taskData)] in
        if negb (Reader_readFile reader (TaskData.filepath taskData)) then
          let '(r, e) := fnReadFileError (TaskData.filepath taskData) "File read problem" e in
          Ok (r, taskData, e)
        else Ok (true, taskData, e)
    end.

(** [TaskProgress::isAbortRequested(&progress)] for a node below
    [taskData.progress], at the moment [clock]. *)
Definition isAbortRequested_below (parent : option TaskProgress) (clock : nat) : bool :=
  match parent with
  | Some p => TaskProgress_isAbortRequested p clock
  | None => false
  end.

Definition fnTransfer (clock : nat) (taskData : TaskData.t) (e : Effects)
  : TaskData.t * Effects :=
  let '(taskData, e) :=
    match TaskData.reader taskData with
    | Some reader =>
        if negb (isAbortRequested_below (TaskData.progress taskData) clock) then
          let taskData :=
            TaskData.set_seqTransferredEntity taskData
              (Reader_transfer reader (TaskData.filepath taskData)) in
          let e := call e [Call_Reader_transfer reader] in
          if bool_decide (TaskData.seqTransferredEntity taskData = []) then
            (taskData, fnAddError (TaskData.filepath taskData) "File transfer problem" e)
          else (taskData, e)
        else (taskData, e)
    | None => (taskData, e)
    end in
  (TaskData.set_transferred taskData true, e).

Definition fnPostProcess (taskData : TaskData.t) (e : Effects) : Effects :=
  if negb (fnEntityPostProcessRequired (TaskData.fileFormat taskData)) then e
  else call e (map Call_entityPostProcess (TaskData.seqTransferredEntity taskData)).

Definition fnAddModelTreeEntities (taskData : TaskData.t) (e : Effects) : Effects :=
  call e (map Call_Document_addEntityTreeNode (TaskData.seqTransferredEntity taskData)).

(** The three calls that follow a successful read. *)
Definition transferStages (clock : nat) (taskData : TaskData.t) (e : Effects)
  : TaskData.t * Effects :=
  let '(taskData, e) := fnTransfer clock taskData e in
  let e := fnPostProcess taskData e in
  let e := fnAddModelTreeEntities taskData e in
  (taskData, e).

(** The branch [listFilepath.size() == 1]. *)
Definition importSingleFile (fp : FilePath) (e : Effects) : result Effects :=
  let taskData := TaskData.set_filepath TaskData.init fp in
  let taskData := TaskData.set_progress taskData (Some rootProgress) in
  do '(r, taskData, e) <- fnReadFile taskData e;
  let e := {| ok := r; calls := calls e |} in
  if ok e then Ok (snd (transferStages 0 taskData e)) else Ok e.

(** [vecTaskData.resize(listFilepath.size())] and the first loop, which gives
    every task its path and its id; the ids are the positions. *)
Definition initTaskData (listFilepath : list FilePath) : list TaskData.t :=
  imap (fun i fp => TaskData.set_taskId (TaskData.set_filepath TaskData.init fp) i)
       listFilepath.

(** The body of the task created by [childTaskManager.newTask]. *)
Definition runReadTask (i : nat) (st : DrainState) : result DrainState :=
  match vecTaskData st !! i with
  | Some taskData =>
      if bool_decide (i ∈ doneTasks st) then Ok st
      else
        let taskData := TaskData.set_progress taskData (Some (childProgress i)) in
        do '(r, taskData, e) <- fnReadFile taskData (effects st);
        let taskData := TaskData.set_readSuccess taskData r in
        Ok {| effects := e;
              vecTaskData := <[i := taskData]> (vecTaskData st);
              doneTasks := i :: doneTasks st;
              taskDataCount := taskDataCount st |}
  | None => Ok st
  end.

(** The predicate of [std::find_if] in the drain loop:
    [!taskData.transferred && childTaskManager.waitForDone(taskData.taskId, 25)]. *)
Definition readyForTransfer (st : DrainState) (taskData : TaskData.t) : Prop :=
  TaskData.transferred taskData = false ∧ TaskData.taskId taskData ∈ doneTasks st.

#[global] Instance readyForTransfer_dec st taskData : Decision (readyForTransfer st taskData).
Proof. unfold readyForTransfer. apply _. Defined.

(** The body of the [while] loop. *)
Definition drainBody (clock : nat) (st : DrainState) : DrainState :=
  match list_find (readyForTransfer st) (vecTaskData st) with
  | Some (it, taskData) =>
      let '(taskData, e) :=
        if TaskData.readSuccess taskData
        then transferStages clock taskData (effects st)
        else (taskData, effects st) in
      {| effects := e;
         vecTaskData := <[it := taskData]> (vecTaskData st);
         doneTasks := doneTasks st;
         taskDataCount := taskDataCount st - 1 |}
  | None => st
  end.

(** The run of the many-files case along a schedule.  [None]: the schedule
    ends while the loop is still going. *)
Fixpoint drain (sched : list SchedEvent) (clock : nat) (st : DrainState)
  : option (result Effects) :=
  match sched with
  | [] => None
  | ReadDone i :: sched' =>
      match runReadTask i st with
      | Ok st' => drain sched' (S clock) st'
      | Undefined f => Some (Undefined f)
      end
  | DrainIteration :: sched' =>
      if (0 <? taskDataCount st)%nat
         && negb (TaskProgress_isAbortRequested rootProgress clock)
      then drain sched' (S clock) (drainBody clock st)
      else Some (Ok (effects st))
  end.

(** What the order of the calls rests on: a task marked as read holds a
    reader whose successful [readFile] is among the calls. *)
Definition read_recorded (cs : list Call) (taskData : TaskData.t) : Prop :=
  TaskData.readSuccess taskData = true ->
  forall rd,
    TaskData.reader taskData = Some rd ->
    exists fp, Call_Reader_readFile rd fp ∈ cs /\ Reader_readFile rd fp = true.

(** The number of tasks marked as transferred. *)
Definition transferredCount (vec : list TaskData.t) : nat :=
  length (filter (fun taskData => TaskData.transferred taskData = true) vec).

(** What holds of the state of the many-files case at every moment of a run
    in which nobody requests an abort. *)
Record drain_inv (st : DrainState) : Prop := {
  inv_tasks : forall i taskData,
    vecTaskData st !! i = Some taskData ->
    Import_filepaths args !! i = Some (TaskData.filepath taskData)
    /\ TaskData.taskId taskData = i;
  inv_length : length (vecTaskData st) = length (Import_filepaths args);
  inv_done : forall i taskData,
    vecTaskData st !! i = Some taskData ->
    i ∈ doneTasks st ->
    TaskData.readSuccess taskData = file_reads (TaskData.filepath taskData)
    /\ (TaskData.readSuccess taskData = true ->
        TaskData.reader taskData = reader_for (TaskData.filepath taskData))
    /\ TaskData.progress taskData = Some (childProgress i);
  inv_transferred : forall i taskData,
    vecTaskData st !! i = Some taskData ->
    TaskData.transferred taskData = true ->
    i ∈ doneTasks st
    /\ TaskData.readSuccess taskData = true
    /\ (ok (effects st) = true -> file_ok (TaskData.filepath taskData) = true);
  inv_failed :
    ok (effects st) = false ->
    exists fp, fp ∈ Import_filepaths args /\ file_ok fp = false;
  inv_ok_reads :
    ok (effects st) = true ->
    forall i taskData,
      vecTaskData st !! i = Some taskData ->
      i ∈ doneTasks st ->
      TaskData.readSuccess taskData = true;
  inv_count_le :
    taskDataCount st + transferredCount (vecTaskData st)
    <= length (Import_filepaths args);
  inv_count :
    ok (effects st) = true ->
    taskDataCount st + transferredCount (vecTaskData st)
    = length (Import_filepaths args);
  inv_messenger : Forall (uses_messenger messenger) (calls (effects st))
}.

(** [System::importInDocument(args)]: the value returned, with the calls
    made. *)
Definition importInDocument (sched : list SchedEvent) : option (result (bool * list Call)) :=
  let listFilepath := Import_filepaths args in
  let e := {| ok := true; calls := [] |} in
  let final :=
    match listFilepath with
    | [fp] => Some (importSingleFile fp e)
    | _ =>
        drain sched 0
          {| effects := e;
             vecTaskData := initTaskData listFilepath;
             doneTasks := [];
             taskDataCount := length listFilepath |}
    end in
  match final with
  | Some (Ok e) => Some (Ok (ok e, calls e))
  | Some (Undefined f) => Some (Undefined f)
  | None => None
  end.

End ImportInDocument.

(** ** Concrete inputs *)

Module Examples.

Definition probeInput (contents : QByteArray) (size : Z) : FormatProbeInput :=
  {| filepath := "model"; contentsBegin := contents; hintFullSize := size |}.

(** A file of 88 bytes: an 80-byte header, the facet count 85899346
    (bytes 52 B8 1E 05) and four more bytes. *)
Definition stl88 : QByteArray :=
  replicate 80 "000"%char
  ++ ["082"%char; "184"%char; "030"%char; "005"%char]
  ++ replicate 4 "000"%char.

(** An OBJ file that starts with a vertex. *)
Definition objVertex : QByteArray :=
  bytes_of ("v 1.0 2.0 3.0" +:+ newline +:+ "v 0.5 -1 2" +:+ newline).

(** An 80-byte prefix with [S] in column 73 and the sequence number 1. *)
Definition iges80 : QByteArray :=
  replicate 72 " "%char ++ bytes_of "S      1".

(** The 81 bytes of the first line of an IGES file. *)
Definition iges81 : QByteArray := iges80 ++ bytes_of newline.

(** The 2048-byte prefix of a file that begins with 2048 spaces or more. *)
Definition blank2048 : QByteArray := replicate 2048 " "%char.

End Examples.

Module RegistryExamples.

Definition noReader (format : Format) : option Reader := None.
Definition noWriter (format : Format) : option Writer := None.

(** Two reader factories and two writer factories that all advertise
    [Format_STEP]. *)
Definition readerA : FactoryReader :=
  {| FactoryReader_address := 1;
     FactoryReader_formats := [Format_STEP; Format_IGES; Format_STEP];
     FactoryReader_create := noReader |}.
Definition readerB : FactoryReader :=
  {| FactoryReader_address := 2;
     FactoryReader_formats := [Format_STL; Format_STEP];
     FactoryReader_create := noReader |}.
Definition writerA : FactoryWriter :=
  {| FactoryWriter_address := 3;
     FactoryWriter_formats := [Format_STEP];
     FactoryWriter_create := noWriter |}.
Definition writerB : FactoryWriter :=
  {| FactoryWriter_address := 4;
     FactoryWriter_formats := [Format_STEP; Format_OBJ];
     FactoryWriter_create := noWriter |}.

(** A reader factory for STEP that does create readers. *)
Definition readerC : FactoryReader :=
  {| FactoryReader_address := 5;
     FactoryReader_formats := [Format_STEP];
     FactoryReader_create :=
       fun _ => Some {| Reader_readFile := fun _ => true;
                        Reader_transfer := fun _ => [] |} |}.

Definition registrations : list Registration :=
  [ Reg_addFactoryReader (Some readerA);
    Reg_addFactoryWriter (Some writerA);
    Reg_addFactoryReader None;
    Reg_addFactoryReader (Some readerB);
    Reg_addFactoryReader (Some readerA);
    Reg_addFactoryWriter (Some writerB) ].

End RegistryExamples.

Module ImportExamples.

(** Suffix lists for the examples: the spec names [stp] for STEP. *)
Definition suffixes (format : Format) : list string :=
  match format with
  | Format_STEP => ["step"; "stp"]
  | Format_IGES => ["iges"; "igs"]
  | Format_STL => ["stl"]
  | _ => []
  end.

(** A STEP reader that reads every file and transfers what [entities]
    gives for the path. *)
Definition entities (fp : FilePath) : list TDF_Label :=
  if String.eqb fp "good.step" then [1; 2]
  else if String.eqb fp "good2.step" then [3]
  else [4].

Definition stepReader : Reader :=
  {| Reader_readFile := fun _ => true; Reader_transfer := entities |}.

Definition stepFactory : FactoryReader :=
  {| FactoryReader_address := 1;
     FactoryReader_formats := [Format_STEP];
     FactoryReader_create := fun _ => Some stepReader |}.

Definition stlWriter : Writer :=
  {| Writer_transfer := fun _ => true; Writer_writeFile := fun _ => true |}.

Definition stlFactory : FactoryWriter :=
  {| FactoryWriter_address := 2;
     FactoryWriter_formats := [Format_STL];
     FactoryWriter_create := fun _ => Some stlWriter |}.

(** The predefined probes, a reader factory for STEP and a writer factory
    for STL. *)
Definition system : System :=
  let sys := addFactoryWriter (addFactoryReader System_new (Some stepFactory))
                              (Some stlFactory) in
  match addPredefinedFormatProbes (Some sys) with
  | Some sys => sys
  | None => sys
  end.

Definition stepFile : QByteArray :=
  bytes_of ("ISO-10303-21;" +:+ newline +:+ "HEADER;" +:+ newline).

(** Two STEP files, a file of an unknown kind and a text file named
    [model.STP]; no other file can be opened. *)
Definition files (fp : FilePath) : option QByteArray :=
  if String.eqb fp "good.step" then Some stepFile
  else if String.eqb fp "good2.step" then Some stepFile
  else if String.eqb fp "bad.xyz" then Some (bytes_of "hello")
  else if String.eqb fp "model.STP" then Some (bytes_of "hello")
  else None.

Definition args (filepaths : list FilePath) : Args_ImportInDocument :=
  {| Import_filepaths := filepaths;
     Import_parametersProvider := None;
     Import_entityPostProcess := false;
     Import_entityPostProcessRequiredIf := None;
     Import_messenger := Some (Messenger_at 9);
     Import_progress := None |}.

Definition childProgress (taskId : nat) : TaskProgress := nullTaskProgress.

(** A progress node whose abort has been requested from the start. *)
Definition abortedProgress : TaskProgress :=
  {| TaskProgress_isAbortRequested := fun _ => true |}.

Definition abortedArgs (filepaths : list FilePath) : Args_ImportInDocument :=
  {| Import_filepaths := filepaths;
     Import_parametersProvider := None;
     Import_entityPostProcess := false;
     Import_entityPostProcessRequiredIf := None;
     Import_messenger := None;
     Import_progress := Some abortedProgress |}.

(** Arguments with a parameters provider and a post-processing of the
    entities of STEP files. *)
Definition postProcessArgs (filepaths : list FilePath) : Args_ImportInDocument :=
  {| Import_filepaths := filepaths;
     Import_parametersProvider := Some (fun _ => 7);
     Import_entityPostProcess := true;
     Import_entityPostProcessRequiredIf := Some (fun format => Format_eqb format Format_STEP);
     Import_messenger := None;
     Import_progress := None |}.

(** The three reads end before the calling thread starts to drain. *)
Definition readsFirst : list SchedEvent :=
  [ReadDone 0; ReadDone 1; ReadDone 2;
   DrainIteration; DrainIteration; DrainIteration; DrainIteration].

Definition exportArgs (format : Format) (m : option Messenger) : Args_ExportApplicationItems :=
  {| Export_targetFilepath := "out.stl";
     Export_targetFormat := format;
     Export_applicationItems := [1; 2];
     Export_parameters := None;
     Export_messenger := m;
     Export_progress := None |}.

End ImportExamples.

(** * Properties *)

(** ** Bytes and fixed-width integers *)

Lemma code_range (c : ascii) : (0 <= code c < 256)%Z.
Proof.
  unfold code. pose proof (N_ascii_bounded c). lia.
Qed.

Lemma to_int32_mod (z : Z) : (to_int32 z mod 2 ^ 32 = z mod 2 ^ 32)%Z.
Proof.
  unfold to_int32.
  rewrite Zminus_mod, Zmod_mod, <- Zminus_mod.
  f_equal. lia.
Qed.

Lemma lor_mod_pow2 (a b n : Z) :
  (0 <= n -> Z.lor a b mod 2 ^ n = Z.lor (a mod 2 ^ n) (b mod 2 ^ n))%Z.
Proof.
  intros Hn. rewrite <- !Z.land_ones by done. apply Z.land_lor_distr_l.
Qed.

Lemma lor_to_int32 (a b : Z) :
  (Z.lor a (to_int32 b) mod 2 ^ 32 = Z.lor a b mod 2 ^ 32)%Z.
Proof.
  rewrite !(lor_mod_pow2 _ _ 32) by lia. by rewrite to_int32_mod.
Qed.

Lemma land_low_shiftl (a b k : Z) :
  (0 <= k -> 0 <= a < 2 ^ k -> Z.land a (Z.shiftl b k) = 0)%Z.
Proof.
  intros Hk Ha. apply Z.bits_inj'. intros n Hn.
  rewrite Z.land_spec, Z.bits_0.
  destruct (Z_lt_le_dec n k) as [Hlt|Hge].
  - rewrite (Z.shiftl_spec_low b k n Hlt). apply andb_false_r.
  - assert (Z.testbit a n = false) as ->; [|done].
    destruct (Z.eq_dec a 0%Z) as [->|Hne]; [apply Z.bits_0|].
    apply Z.bits_above_log2; [lia|].
    apply Z.lt_le_trans with k; [|done].
    apply Z.log2_lt_pow2; lia.
Qed.

Lemma lor_shiftl_add (a b k : Z) :
  (0 <= k -> 0 <= a < 2 ^ k -> Z.lor a (Z.shiftl b k) = a + b * 2 ^ k)%Z.
Proof.
  intros Hk Ha.
  rewrite <- Z.add_nocarry_lor by (by apply land_low_shiftl).
  by rewrite Z.shiftl_mul_pow2.
Qed.

(** X20: The facet count that [probeFormat_STL] builds with shifts and ors
    is the little-endian 32-bit unsigned value of the four bytes, also when
    the last byte has its high bit set. *)
Lemma facetsCount_of_little_endian (b0 b1 b2 b3 : ascii) :
  facetsCount_of b0 b1 b2 b3
  = (code b0 + 256 * code b1 + 65536 * code b2 + 16777216 * code b3)%Z.
Proof.
  unfold facetsCount_of, to_uint32.
  pose proof (code_range b0). pose proof (code_range b1).
  pose proof (code_range b2). pose proof (code_range b3).
  rewrite lor_to_int32.
  rewrite (lor_mod_pow2 _ (Z.shiftl (code b3) 24) 32) by lia.
  rewrite lor_to_int32.
  rewrite (lor_mod_pow2 _ (Z.shiftl (code b2) 16) 32) by lia.
  rewrite lor_to_int32.
  rewrite <- !(lor_mod_pow2 _ _ 32) by lia.
  rewrite (lor_shiftl_add (code b0) (code b1) 8) by lia.
  rewrite (lor_shiftl_add _ (code b2) 16) by lia.
  rewrite (lor_shiftl_add _ (code b3) 24) by lia.
  rewrite Z.mod_small; lia.
Qed.

Lemma facetsCount_of_range (b0 b1 b2 b3 : ascii) :
  (0 <= facetsCount_of b0 b1 b2 b3 < 2 ^ 32)%Z.
Proof.
  unfold facetsCount_of, to_uint32. apply Z.mod_pos_bound. lia.
Qed.

(** ** [probeFormat_STL] *)

Lemma at_lt (s : QByteArray) (i : nat) :
  i < length s -> exists c, s !! i = Some c /\ at_ s i = Ok c.
Proof.
  intros Hi. destruct (lookup_lt_is_Some_2 s i Hi) as [c Hc].
  exists c. unfold at_. by rewrite Hc.
Qed.

Lemma at_ge (s : QByteArray) (i : nat) :
  length s <= i -> at_ s i = Undefined (OutOfBounds i).
Proof.
  intros Hi. unfold at_.
  destruct (s !! i) eqn:Hc; [|done]. apply lookup_lt_Some in Hc. lia.
Qed.

(** When the binary branch returns [Format_STL]: the product is reduced
    modulo [2^32] before the header size is added. *)
Lemma probeFormat_STL_binary_accepts (input : FormatProbeInput) :
  probeFormat_STL_binary input = Ok true <->
  84 <= length (contentsBegin input) /\
  exists b0 b1 b2 b3,
    contentsBegin input !! 80 = Some b0 /\
    contentsBegin input !! 81 = Some b1 /\
    contentsBegin input !! 82 = Some b2 /\
    contentsBegin input !! 83 = Some b3 /\
    ((50 * facetsCount_of b0 b1 b2 b3) mod 2 ^ 32 + 84 = hintFullSize input)%Z.
Proof.
  unfold probeFormat_STL_binary, binaryStlHeaderSize, facetSize.
  destruct (Z.leb_spec (80 + 4) (Z.of_nat (length (contentsBegin input)))) as [Hle|Hgt].
  - destruct (at_lt (contentsBegin input) 80) as (b0 & Hb0 & ->); [lia|].
    destruct (at_lt (contentsBegin input) (80 + 1)) as (b1 & Hb1 & ->); [lia|].
    destruct (at_lt (contentsBegin input) (80 + 2)) as (b2 & Hb2 & ->); [lia|].
    destruct (at_lt (contentsBegin input) (80 + 3)) as (b3 & Hb3 & ->); [lia|].
    cbn [bind]. simpl in Hb1, Hb2, Hb3.
    assert (to_uint64 (to_uint32 ((4 * 12 + 2) * facetsCount_of b0 b1 b2 b3) + (80 + 4))
            = ((50 * facetsCount_of b0 b1 b2 b3) mod 2 ^ 32 + 84)%Z) as ->.
    { unfold to_uint64, to_uint32.
      change (4 * 12 + 2)%Z with 50%Z. change (80 + 4)%Z with 84%Z.
      assert (0 <= (50 * facetsCount_of b0 b1 b2 b3) mod 2 ^ 32 < 2 ^ 32)%Z
        by (apply Z.mod_pos_bound; lia).
      apply Z.mod_small. lia. }
    split.
    + intros [= Heq%Z.eqb_eq]. split; [lia|]. by exists b0, b1, b2, b3.
    + intros (_ & c0 & c1 & c2 & c3 & H0 & H1 & H2 & H3 & Heq).
      simplify_eq. f_equal. by apply Z.eqb_eq.
  - split; [done|]. intros [Hlen _]. lia.
Qed.

(** X21: Below the wrap-around, that is for a facet count of at most 85899345,
    the binary branch of [probeFormat_STL] accepts exactly when 84 bytes of
    header and 50 bytes for each facet make the full size of the file. *)
Lemma probeFormat_STL_binary_exact_below_wrap (input : FormatProbeInput) b0 b1 b2 b3 :
  contentsBegin input !! 80 = Some b0 ->
  contentsBegin input !! 81 = Some b1 ->
  contentsBegin input !! 82 = Some b2 ->
  contentsBegin input !! 83 = Some b3 ->
  (facetsCount_of b0 b1 b2 b3 <= 85899345)%Z ->
  probeFormat_STL_binary input = Ok true <->
  (84 + 50 * facetsCount_of b0 b1 b2 b3 = hintFullSize input)%Z.
Proof.
  intros H0 H1 H2 H3 Hsmall.
  pose proof (facetsCount_of_range b0 b1 b2 b3).
  rewrite probeFormat_STL_binary_accepts. split.
  - intros (_ & c0 & c1 & c2 & c3 & ? & ? & ? & ? & Heq). simplify_eq.
    rewrite Z.mod_small in Heq; lia.
  - intros Heq. split.
    + apply lookup_lt_Some in H3. lia.
    + exists b0, b1, b2, b3. repeat split; try done.
      rewrite Z.mod_small; lia.
Qed.

(** C3: on the 2048-byte prefix of an 88-byte file whose bytes 80 to 83 hold
    the facet count 85899346, the binary branch of [probeFormat_STL] returns
    [Format_STL], although 84 + 50 * 85899346 = 4294967384 is not 88: the
    product is taken in 32 bits and wraps to 4. *)
Theorem probeFormat_STL_binary_wraps_32_bits :
  let input := make_probeInput "model.stl" Examples.stl88 in
  hintFullSize input = 88%Z /\
  (exists b0 b1 b2 b3,
      contentsBegin input !! 80 = Some b0 /\
      contentsBegin input !! 81 = Some b1 /\
      contentsBegin input !! 82 = Some b2 /\
      contentsBegin input !! 83 = Some b3 /\
      facetsCount_of b0 b1 b2 b3 = 85899346%Z /\
      (84 + 50 * facetsCount_of b0 b1 b2 b3 = 4294967384)%Z) /\
  probeFormat_STL_binary input = Ok true /\
  probeFormat_STL input = Ok Format_STL.
Proof.
  split; [reflexivity|]. split.
  - exists "082"%char, "184"%char, "030"%char, "005"%char.
    repeat split; vm_compute; reflexivity.
  - split; vm_compute; reflexivity.
Qed.

(** ** [probeFormat_OBJ] *)

Lemma rx_ends_quote_bol (multiline : bool) (s : QByteArray) (r : regex) (i : nat) :
  rx_ends multiline s (RSeq (RChar quote) (RSeq RBol r)) i = [].
Proof.
  cbn [rx_ends].
  destruct (s !! i) as [c|] eqn:Hc; [|done].
  destruct (Ascii.eqb_spec c quote) as [->|Hne]; [|done].
  cbn [flat_map at_bol]. rewrite Hc.
  replace (Ascii.eqb quote "010" || Ascii.eqb quote "013") with false by done.
  by rewrite andb_false_r.
Qed.

Lemma regex_search_rx_OBJ (multiline : bool) (s : QByteArray) :
  regex_search multiline s rx_OBJ = false.
Proof.
  unfold regex_search. apply not_true_is_false. intros Hex.
  apply existsb_exists in Hex as (i & _ & Hi).
  change rx_OBJ with
    (RSeq (RChar quote) (RSeq RBol (RSeqs (tail rx_OBJ_inner ++ [RChar quote])))) in Hi.
  rewrite rx_ends_quote_bol in Hi. by rewrite bool_decide_eq_true_2 in Hi.
Qed.

(** C4: whatever the prefix, and with or without [std::regex::multiline],
    the pattern of [probeFormat_OBJ] finds no match: after the quote that
    opens the pattern, [^] cannot hold.  The prober returns [Format_Unknown]
    on every input, also on those with a vertex line. *)
Theorem probeFormat_OBJ_always_Unknown (multiline : bool) (input : FormatProbeInput) :
  probeFormat_OBJ_with multiline input = Ok Format_Unknown.
Proof.
  unfold probeFormat_OBJ_with. by rewrite regex_search_rx_OBJ.
Qed.

(** A file that starts with the line [v 1.0 2.0 3.0]: the pattern without
    the quotes matches it, the prober answers [Format_Unknown]. *)
Lemma probeFormat_OBJ_vertex_line :
  let input := make_probeInput "model.obj" Examples.objVertex in
  regex_search false (contentsBegin input) rx_OBJ_unquoted = true /\
  probeFormat_OBJ input = Ok Format_Unknown.
Proof.
  split; [vm_compute; reflexivity|].
  unfold probeFormat_OBJ, probeFormat_OBJ_with. by rewrite regex_search_rx_OBJ.
Qed.

(** ** Reads at the end of the prefix *)

Lemma find_if_not_from_all (p : ascii -> bool) (l : list ascii) (first : nat) :
  forallb p l = true -> find_if_not_from p l first = first + length l.
Proof.
  revert first. induction l as [|c l IH]; intros first Hall; simpl in *.
  - lia.
  - apply andb_true_iff in Hall as [-> Hall]. rewrite IH by done. lia.
Qed.

Lemma findFirstNonSpace_blank (s : list ascii) :
  forallb isSpace s = true -> findFirstNonSpace s = length s.
Proof.
  intros Hall. unfold findFirstNonSpace, find_if_not.
  rewrite drop_0. by rewrite find_if_not_from_all.
Qed.

(** Matching a token that is not empty at [cend()] reads the byte there. *)
Lemma matchToken_at_end (s : list ascii) (c : ascii) (token : string) :
  matchToken s (length s) (String c token) = Undefined (OutOfBounds (length s)).
Proof.
  unfold matchToken. cbn [bytes_of String.list_ascii_of_string strncmp_eq].
  by rewrite at_ge.
Qed.

(** C6: on a prefix that holds nothing but white space, [findFirstNonSpace]
    returns [cend()] and [matchToken] reads the byte that follows the prefix:
    [probeFormat_STEP], [probeFormat_OCCBREP] and the ASCII branch of
    [probeFormat_STL] (reached whenever the binary branch does not accept)
    read outside the prefix instead of returning [Format_Unknown]. *)
Theorem probers_read_past_blank_prefix (input : FormatProbeInput) :
  forallb isSpace (contentsBegin input) = true ->
  let n := length (contentsBegin input) in
  probeFormat_STEP input = Undefined (OutOfBounds n) /\
  probeFormat_OCCBREP input = Undefined (OutOfBounds n) /\
  probeFormat_STL_ascii input = Undefined (OutOfBounds n) /\
  (probeFormat_STL_binary input = Ok false ->
   probeFormat_STL input = Undefined (OutOfBounds n)).
Proof.
  intros Hblank n.
  pose proof (findFirstNonSpace_blank _ Hblank) as Hfirst.
  repeat split.
  - unfold probeFormat_STEP. cbv zeta. rewrite Hfirst.
    by rewrite matchToken_at_end.
  - unfold probeFormat_OCCBREP. cbv zeta. rewrite Hfirst.
    by rewrite matchToken_at_end.
  - unfold probeFormat_STL_ascii. cbv zeta. rewrite Hfirst.
    by rewrite matchToken_at_end.
  - intros Hbin. unfold probeFormat_STL. rewrite Hbin. cbn [bind].
    unfold probeFormat_STL_ascii. cbv zeta. rewrite Hfirst.
    by rewrite matchToken_at_end.
Qed.

Lemma probers_read_past_blank_prefix_witness :
  let input := Examples.probeInput Examples.blank2048 4096 in
  forallb isSpace (contentsBegin input) = true /\
  probeFormat_STEP input = Undefined (OutOfBounds 2048) /\
  probeFormat_OCCBREP input = Undefined (OutOfBounds 2048) /\
  probeFormat_STL_ascii input = Undefined (OutOfBounds 2048) /\
  (probeFormat_STL_binary input = Ok false ->
   probeFormat_STL input = Undefined (OutOfBounds 2048)).
Proof.
  split; [reflexivity|].
  apply (probers_read_past_blank_prefix (Examples.probeInput Examples.blank2048 4096)).
  reflexivity.
Defined.

(** A prefix that stops inside a token has the same effect: the comparison
    goes on to the byte after the prefix. *)
Lemma probeFormat_STEP_short_prefix :
  probeFormat_STEP (Examples.probeInput (bytes_of "ISO-10303-21;HEAD") 17)
  = Undefined (OutOfBounds 17) /\
  probeFormat_OCCBREP (Examples.probeInput [] 0) = Undefined (OutOfBounds 0) /\
  probeFormat_STL (Examples.probeInput (bytes_of "sol") 3) = Undefined (OutOfBounds 3).
Proof. repeat split; vm_compute; reflexivity. Qed.

(** ** [probeFormat_IGES] *)

Lemma iges_columns_false (n : nat) (s : list ascii) (i : nat) :
  iges_columns n s i false = Ok false.
Proof. by destruct n. Qed.

Lemma iges_columns_in_bounds (n : nat) (s : list ascii) (i : nat) (isIges : bool) :
  i + n <= length s -> exists b, iges_columns n s i isIges = Ok b.
Proof.
  revert i isIges. induction n as [|n IH]; intros i isIges Hlen; cbn [iges_columns].
  - by exists isIges.
  - destruct isIges; [|by exists false].
    destruct (at_lt s i) as (c & _ & ->); [lia|]. cbn [bind].
    apply IH. lia.
Qed.

Lemma iges_columns_true (n : nat) (s : list ascii) (i : nat) :
  iges_columns n s i true = Ok true <->
  forall j, i <= j < i + n -> exists c, s !! j = Some c /\ iges_column_ok c.
Proof.
  revert i. induction n as [|n IH]; intros i; cbn [iges_columns].
  - split; [intros _ j ?; lia|done].
  - unfold at_ at 1. destruct (s !! i) as [c|] eqn:Hc; cbn [bind].
    + destruct (Ascii.eqb_spec c " ") as [->|Hsp]; cbn [negb andb].
      * rewrite IH. split.
        -- intros H j Hj. destruct (decide (j = i)) as [->|];
             [exists " "%char; split; [done|by left]|apply H; lia].
        -- intros H j Hj. apply H. lia.
      * destruct (isDigit c) eqn:Hd; cbn [negb].
        -- rewrite IH. split.
           ++ intros H j Hj. destruct (decide (j = i)) as [->|];
                [exists c; split; [done|by right]|apply H; lia].
           ++ intros H j Hj. apply H. lia.
        -- rewrite iges_columns_false. split; [done|].
           intros H. destruct (H i) as (c' & Hc' & [->|Hd']); [lia| |]; simplify_eq.
           congruence.
    + split; [done|]. intros H. destruct (H i) as (c' & Hc' & _); [lia|]. simplify_eq.
Qed.

(** X22: [probeFormat_IGES] returns [Format_IGES] exactly when the prefix has
    at least 80 bytes, byte 72 is [S], each of the bytes 73 to 79 is a space
    or a digit, byte 80 is there and is a line feed, a carriage return or a
    form feed, and [atoi] reads the number 1 from byte 73 on. *)
Lemma probeFormat_IGES_accepts (input : FormatProbeInput) :
  probeFormat_IGES input = Ok Format_IGES <->
  80 <= length (contentsBegin input) /\
  contentsBegin input !! 72 = Some "S"%char /\
  (forall j, 73 <= j < 80 -> exists c, contentsBegin input !! j = Some c /\ iges_column_ok c) /\
  (exists c80, contentsBegin input !! 80 = Some c80 /\ iges_line_end c80) /\
  atoi (contentsBegin input) 73 = Ok 1%Z.
Proof.
  unfold probeFormat_IGES. cbv zeta. set (s := contentsBegin input).
  destruct (Nat.leb_spec 80 (length s)) as [Hlen|Hlen];
    [|split; [done|intros [? _]; lia]].
  destruct (at_lt s 72) as (c72 & Hc72 & ->); [lia|]. cbn [bind].
  destruct (Ascii.eqb_spec c72 "S") as [->|HS];
    [|split; [done|intros (_ & ? & _); congruence]].
  pose proof (iges_columns_true 7 s 73) as Hcols.
  destruct (iges_columns_in_bounds 7 s 73 true) as [b Hb]; [lia|].
  rewrite Hb in Hcols |- *. cbn [bind].
  unfold at_ at 1. destruct (s !! 80) as [c80|] eqn:Hc80; cbn [bind];
    [|split; [done|intros (_ & _ & _ & (? & ? & _) & _); done]].
  destruct b; cbn [andb].
  - destruct (Ascii.eqb_spec c80 "010") as [->|Hnl]; cbn [orb].
    { destruct (atoi s 73) as [v|f] eqn:Hv; cbn [bind].
      - destruct (Z.eqb_spec v 1) as [->|Hne].
        + split; [|done]. intros _. repeat split; try done.
          * by apply Hcols.
          * exists "010"%char. split; [done|by left].
        + split; [done|]. intros (_ & _ & _ & _ & [= ?]). done.
      - split; [done|]. intros (_ & _ & _ & _ & ?). done. }
    destruct (Ascii.eqb_spec c80 "013") as [->|Hcr]; cbn [orb].
    { destruct (atoi s 73) as [v|f] eqn:Hv; cbn [bind].
      - destruct (Z.eqb_spec v 1) as [->|Hne].
        + split; [|done]. intros _. repeat split; try done.
          * by apply Hcols.
          * exists "013"%char. split; [done|right; by left].
        + split; [done|]. intros (_ & _ & _ & _ & [= ?]). done.
      - split; [done|]. intros (_ & _ & _ & _ & ?). done. }
    destruct (Ascii.eqb_spec c80 "012") as [->|Hff]; cbn [orb].
    { destruct (atoi s 73) as [v|f] eqn:Hv; cbn [bind].
      - destruct (Z.eqb_spec v 1) as [->|Hne].
        + split; [|done]. intros _. repeat split; try done.
          * by apply Hcols.
          * exists "012"%char. split; [done|right; by right].
        + split; [done|]. intros (_ & _ & _ & _ & [= ?]). done.
      - split; [done|]. intros (_ & _ & _ & _ & ?). done. }
    split; [done|]. intros (_ & _ & _ & (c & Hc & Hend) & _).
    simplify_eq. destruct Hend as [?|[?|?]]; done.
  - split; [done|]. intros (_ & _ & Hall & _).
    apply Hcols in Hall. done.
Qed.

(** C5: [probeFormat_IGES] lets every prefix of at least 80 bytes through
    its size test and then reads [sample[80]].  On a prefix of exactly 80
    bytes with [S] at index 72 that read lies outside the prefix, so the
    prober does not return [Format_Unknown] there. *)
Theorem probeFormat_IGES_reads_index_80 (input : FormatProbeInput) :
  length (contentsBegin input) = 80 ->
  contentsBegin input !! 72 = Some "S"%char ->
  probeFormat_IGES input = Undefined (OutOfBounds 80).
Proof.
  intros Hlen H72. unfold probeFormat_IGES. cbv zeta.
  rewrite Hlen. cbn [Nat.leb].
  unfold at_ at 1. rewrite H72. cbn [bind].
  replace (Ascii.eqb "S" "S") with true by done.
  destruct (iges_columns_in_bounds 7 (contentsBegin input) 73 true) as [b ->]; [lia|].
  cbn [bind]. rewrite at_ge by lia. done.
Qed.

Lemma probeFormat_IGES_reads_index_80_witness :
  let input := Examples.probeInput Examples.iges80 80 in
  length (contentsBegin input) = 80 /\
  contentsBegin input !! 72 = Some "S"%char /\
  probeFormat_IGES input = Undefined (OutOfBounds 80).
Proof.
  split; [reflexivity|]. split; [reflexivity|].
  apply (probeFormat_IGES_reads_index_80 (Examples.probeInput Examples.iges80 80));
    reflexivity.
Defined.

(** With the byte at index 80 in place the same line is accepted; when the
    columns 74 to 80 are blank, [atoi] goes on past index 80. *)
Lemma probeFormat_IGES_81_bytes :
  probeFormat_IGES (Examples.probeInput Examples.iges81 81) = Ok Format_IGES /\
  probeFormat_IGES
    (Examples.probeInput (replicate 72 " "%char ++ bytes_of ("S       " +:+ newline)) 81)
  = Undefined (OutOfBounds 81).
Proof. split; vm_compute; reflexivity. Qed.

(** ** The factory registry *)

Lemma containsFormat_true (spanFormat : list Format) (format : Format) :
  containsFormat spanFormat format = true <-> format ∈ spanFormat.
Proof.
  unfold containsFormat, Format_eqb. rewrite existsb_exists. split.
  - intros (f & Hin & Heq). apply bool_decide_eq_true in Heq as ->.
    by apply list_elem_of_In.
  - intros Hin. exists format. split; [by apply list_elem_of_In|].
    by apply bool_decide_eq_true.
Qed.

Lemma containsFormat_false (spanFormat : list Format) (format : Format) :
  containsFormat spanFormat format = false <-> format ∉ spanFormat.
Proof.
  rewrite <- containsFormat_true. by destruct (containsFormat spanFormat format).
Qed.

Lemma findFactoryReader_in_first (vec : list FactoryReader) (format : Format) :
  match findFactoryReader_in vec format with
  | Some f =>
      exists before after,
        vec = before ++ f :: after /\
        format ∈ FactoryReader_formats f /\
        forall g, g ∈ before -> format ∉ FactoryReader_formats g
  | None => forall g, g ∈ vec -> format ∉ FactoryReader_formats g
  end.
Proof.
  induction vec as [|ptr vec IH]; cbn [findFactoryReader_in].
  - intros g Hg. by apply elem_of_nil in Hg.
  - destruct (containsFormat (FactoryReader_formats ptr) format) eqn:Hc.
    + exists [], vec. split; [done|]. split; [by apply containsFormat_true|].
      intros g Hg. by apply elem_of_nil in Hg.
    + apply containsFormat_false in Hc.
      destruct (findFactoryReader_in vec format) as [f|].
      * destruct IH as (before & after & -> & Hf & Hbefore).
        exists (ptr :: before), after. split; [done|]. split; [done|].
        intros g [->|Hg]%elem_of_cons; [done|by apply Hbefore].
      * intros g [->|Hg]%elem_of_cons; [done|by apply IH].
Qed.

Lemma findFactoryWriter_in_first (vec : list FactoryWriter) (format : Format) :
  match findFactoryWriter_in vec format with
  | Some f =>
      exists before after,
        vec = before ++ f :: after /\
        format ∈ FactoryWriter_formats f /\
        forall g, g ∈ before -> format ∉ FactoryWriter_formats g
  | None => forall g, g ∈ vec -> format ∉ FactoryWriter_formats g
  end.
Proof.
  induction vec as [|ptr vec IH]; cbn [findFactoryWriter_in].
  - intros g Hg. by apply elem_of_nil in Hg.
  - destruct (containsFormat (FactoryWriter_formats ptr) format) eqn:Hc.
    + exists [], vec. split; [done|]. split; [by apply containsFormat_true|].
      intros g Hg. by apply elem_of_nil in Hg.
    + apply containsFormat_false in Hc.
      destruct (findFactoryWriter_in vec format) as [f|].
      * destruct IH as (before & after & -> & Hf & Hbefore).
        exists (ptr :: before), after. split; [done|]. split; [done|].
        intros g [->|Hg]%elem_of_cons; [done|by apply Hbefore].
      * intros g [->|Hg]%elem_of_cons; [done|by apply IH].
Qed.

(** Skipping the factories that do not advertise the format. *)
Lemma findFactoryReader_in_app (before vec : list FactoryReader) (format : Format) :
  (forall g, g ∈ before -> format ∉ FactoryReader_formats g) ->
  findFactoryReader_in (before ++ vec) format = findFactoryReader_in vec format.
Proof.
  induction before as [|g before IH]; intros Hbefore; [done|].
  cbn [app findFactoryReader_in].
  assert (containsFormat (FactoryReader_formats g) format = false) as ->.
  { apply containsFormat_false, Hbefore. by left. }
  apply IH. intros g' Hg'. apply Hbefore. by right.
Qed.

Lemma findFactoryWriter_in_app (before vec : list FactoryWriter) (format : Format) :
  (forall g, g ∈ before -> format ∉ FactoryWriter_formats g) ->
  findFactoryWriter_in (before ++ vec) format = findFactoryWriter_in vec format.
Proof.
  induction before as [|g before IH]; intros Hbefore; [done|].
  cbn [app findFactoryWriter_in].
  assert (containsFormat (FactoryWriter_formats g) format = false) as ->.
  { apply containsFormat_false, Hbefore. by left. }
  apply IH. intros g' Hg'. apply Hbefore. by right.
Qed.

Lemma existsb_address_reader (vec : list FactoryReader) (f : FactoryReader) :
  existsb (fun g => (FactoryReader_address g =? FactoryReader_address f)%nat) vec = true <->
  FactoryReader_address f ∈ map FactoryReader_address vec.
Proof.
  rewrite existsb_exists, list_elem_of_fmap. split.
  - intros (g & Hg%list_elem_of_In & Heq%Nat.eqb_eq). by exists g.
  - intros (g & Heq & Hg%list_elem_of_In). exists g. by rewrite Nat.eqb_eq.
Qed.

Lemma existsb_address_writer (vec : list FactoryWriter) (f : FactoryWriter) :
  existsb (fun g => (FactoryWriter_address g =? FactoryWriter_address f)%nat) vec = true <->
  FactoryWriter_address f ∈ map FactoryWriter_address vec.
Proof.
  rewrite existsb_exists, list_elem_of_fmap. split.
  - intros (g & Hg%list_elem_of_In & Heq%Nat.eqb_eq). by exists g.
  - intros (g & Heq & Hg%list_elem_of_In). exists g. by rewrite Nat.eqb_eq.
Qed.

(** C7: [findFactoryReader] and [findFactoryWriter] return the first factory
    of the vector that advertises the format, and null when none does; the
    vectors are in registration order, so that of two fresh factories
    registered one after the other for a format nobody handled, the first is
    found. *)
Theorem findFactory_first_registered (sys : System) (format : Format) :
  match findFactoryReader sys format with
  | Some f =>
      exists before after,
        m_vecFactoryReader sys = before ++ f :: after /\
        format ∈ FactoryReader_formats f /\
        forall g, g ∈ before -> format ∉ FactoryReader_formats g
  | None => forall g, g ∈ m_vecFactoryReader sys -> format ∉ FactoryReader_formats g
  end /\
  match findFactoryWriter sys format with
  | Some f =>
      exists before after,
        m_vecFactoryWriter sys = before ++ f :: after /\
        format ∈ FactoryWriter_formats f /\
        forall g, g ∈ before -> format ∉ FactoryWriter_formats g
  | None => forall g, g ∈ m_vecFactoryWriter sys -> format ∉ FactoryWriter_formats g
  end /\
  (forall F1 F2 : FactoryReader,
      (forall g, g ∈ m_vecFactoryReader sys -> format ∉ FactoryReader_formats g) ->
      FactoryReader_address F1 ∉ map FactoryReader_address (m_vecFactoryReader sys) ->
      format ∈ FactoryReader_formats F1 ->
      format ∈ FactoryReader_formats F2 ->
      findFactoryReader (addFactoryReader (addFactoryReader sys (Some F1)) (Some F2)) format
      = Some F1) /\
  (forall F1 F2 : FactoryWriter,
      (forall g, g ∈ m_vecFactoryWriter sys -> format ∉ FactoryWriter_formats g) ->
      FactoryWriter_address F1 ∉ map FactoryWriter_address (m_vecFactoryWriter sys) ->
      format ∈ FactoryWriter_formats F1 ->
      format ∈ FactoryWriter_formats F2 ->
      findFactoryWriter (addFactoryWriter (addFactoryWriter sys (Some F1)) (Some F2)) format
      = Some F1).
Proof.
  split; [apply findFactoryReader_in_first|].
  split; [apply findFactoryWriter_in_first|].
  split.
  - intros F1 F2 Hnone Hfresh HF1 HF2.
    assert (forall vec, findFactoryReader_in (m_vecFactoryReader sys ++ F1 :: vec) format
                        = Some F1) as Hfind.
    { intros vec. rewrite findFactoryReader_in_app by done. cbn [findFactoryReader_in].
      by rewrite (proj2 (containsFormat_true _ _) HF1). }
    unfold findFactoryReader, addFactoryReader.
    rewrite <- existsb_address_reader in Hfresh.
    apply not_true_is_false in Hfresh. rewrite Hfresh. cbn [m_vecFactoryReader].
    destruct (existsb _ (m_vecFactoryReader sys ++ [F1])); cbn [m_vecFactoryReader].
    + apply Hfind.
    + rewrite <- app_assoc. apply Hfind.
  - intros F1 F2 Hnone Hfresh HF1 HF2.
    assert (forall vec, findFactoryWriter_in (m_vecFactoryWriter sys ++ F1 :: vec) format
                        = Some F1) as Hfind.
    { intros vec. rewrite findFactoryWriter_in_app by done. cbn [findFactoryWriter_in].
      by rewrite (proj2 (containsFormat_true _ _) HF1). }
    unfold findFactoryWriter, addFactoryWriter.
    rewrite <- existsb_address_writer in Hfresh.
    apply not_true_is_false in Hfresh. rewrite Hfresh. cbn [m_vecFactoryWriter].
    destruct (existsb _ (m_vecFactoryWriter sys ++ [F1])); cbn [m_vecFactoryWriter].
    + apply Hfind.
    + rewrite <- app_assoc. apply Hfind.
Qed.

Lemma findFactory_first_registered_witness :
  findFactoryReader
    (addFactoryReader (addFactoryReader System_new (Some RegistryExamples.readerA))
                      (Some RegistryExamples.readerB))
    Format_STEP
  = Some RegistryExamples.readerA.
Proof.
  destruct (findFactory_first_registered System_new Format_STEP) as (_ & _ & Hfirst & _).
  apply Hfirst.
  - intros g Hg. by apply elem_of_nil in Hg.
  - apply not_elem_of_nil.
  - apply list_elem_of_here.
  - apply list_elem_of_further, list_elem_of_here.
Defined.

(** ** Registration *)

Lemma addFormats_NoDup (formats vecFormat : list Format) :
  NoDup vecFormat -> NoDup (addFormats formats vecFormat).
Proof.
  revert vecFormat. induction formats as [|format formats IH]; intros vecFormat Hnd;
    cbn [addFormats]; [done|].
  apply IH. destruct (containsFormat vecFormat format) eqn:Hc; [done|].
  apply containsFormat_false in Hc.
  apply NoDup_app. split; [done|]. split.
  - intros f Hf [->|Hnil%elem_of_nil]%elem_of_cons; done.
  - apply NoDup_singleton.
Qed.

Lemma registry_wf_new : registry_wf System_new.
Proof. repeat split; apply NoDup_nil_2. Qed.

Lemma addFactoryReader_wf (sys : System) (ptr : option FactoryReader) :
  registry_wf sys -> registry_wf (addFactoryReader sys ptr).
Proof.
  intros (Hrf & Hwf & Hr & Hw). destruct ptr as [f|]; [|done].
  unfold addFactoryReader.
  destruct (existsb _ (m_vecFactoryReader sys)) eqn:Hex; [done|].
  repeat split; cbn; try done.
  - by apply addFormats_NoDup.
  - rewrite map_app. apply NoDup_app. split; [done|]. split; [|apply NoDup_singleton].
    intros a Ha [->|Hnil%elem_of_nil]%elem_of_cons; [|done].
    apply existsb_address_reader in Ha. congruence.
Qed.

Lemma addFactoryWriter_wf (sys : System) (ptr : option FactoryWriter) :
  registry_wf sys -> registry_wf (addFactoryWriter sys ptr).
Proof.
  intros (Hrf & Hwf & Hr & Hw). destruct ptr as [f|]; [|done].
  unfold addFactoryWriter.
  destruct (existsb _ (m_vecFactoryWriter sys)) eqn:Hex; [done|].
  repeat split; cbn; try done.
  - by apply addFormats_NoDup.
  - rewrite map_app. apply NoDup_app. split; [done|]. split; [|apply NoDup_singleton].
    intros a Ha [->|Hnil%elem_of_nil]%elem_of_cons; [|done].
    apply existsb_address_writer in Ha. congruence.
Qed.

Lemma register_all_wf (rs : list Registration) (sys : System) :
  registry_wf sys -> registry_wf (register_all sys rs).
Proof.
  revert sys. induction rs as [|r rs IH]; intros sys Hwf; [done|].
  cbn [register_all fold_left]. apply IH.
  destruct r; [by apply addFactoryReader_wf|by apply addFactoryWriter_wf].
Qed.

Lemma addFactoryReader_registered (sys : System) (f : FactoryReader) :
  FactoryReader_address f ∈ map FactoryReader_address (m_vecFactoryReader sys) ->
  addFactoryReader sys (Some f) = sys.
Proof.
  intros Hin. unfold addFactoryReader.
  by rewrite (proj2 (existsb_address_reader _ _) Hin).
Qed.

Lemma addFactoryWriter_registered (sys : System) (f : FactoryWriter) :
  FactoryWriter_address f ∈ map FactoryWriter_address (m_vecFactoryWriter sys) ->
  addFactoryWriter sys (Some f) = sys.
Proof.
  intros Hin. unfold addFactoryWriter.
  by rewrite (proj2 (existsb_address_writer _ _) Hin).
Qed.

Lemma addFactoryReader_twice (sys : System) (f : FactoryReader) :
  addFactoryReader (addFactoryReader sys (Some f)) (Some f) = addFactoryReader sys (Some f).
Proof.
  apply addFactoryReader_registered. unfold addFactoryReader.
  destruct (existsb _ (m_vecFactoryReader sys)) eqn:Hex.
  - by apply existsb_address_reader.
  - cbn. rewrite map_app. apply elem_of_app. right. apply list_elem_of_here.
Qed.

Lemma addFactoryWriter_twice (sys : System) (f : FactoryWriter) :
  addFactoryWriter (addFactoryWriter sys (Some f)) (Some f) = addFactoryWriter sys (Some f).
Proof.
  apply addFactoryWriter_registered. unfold addFactoryWriter.
  destruct (existsb _ (m_vecFactoryWriter sys)) eqn:Hex.
  - by apply existsb_address_writer.
  - cbn. rewrite map_app. apply elem_of_app. right. apply list_elem_of_here.
Qed.



(** ** The probe dispatcher *)

Lemma std_equal_tolower (l1 l2 : list ascii) :
  length l1 = length l2 ->
  std_equal fnCharIEqual l1 l2 = true <-> map tolower l1 = map tolower l2.
Proof.
  revert l2. induction l1 as [|c1 l1 IH]; intros [|c2 l2] Hlen; simplify_eq/=; [done|].
  unfold fnCharIEqual at 1. rewrite andb_true_iff, IH by done.
  destruct (Ascii.eqb_spec (tolower c1) (tolower c2)) as [->|Hne]; split.
  - by intros [_ ->].
  - intros [= ?]. by split.
  - by intros [? _].
  - intros [= ? ?]. done.
Qed.

Section Dispatch.

Variable formatFileSuffixes : Format -> list string.
Variable fs : string -> option (list ascii).

Lemma matchFileSuffix_in_true (candidates : list string) (fileSuffix : list ascii) :
  matchFileSuffix_in candidates fileSuffix = true <->
  exists candidate,
    candidate ∈ candidates /\ map tolower (bytes_of candidate) = map tolower fileSuffix.
Proof.
  induction candidates as [|cand candidates IH]; cbn [matchFileSuffix_in].
  - split; [done|]. intros (c & Hc%elem_of_nil & _). done.
  - destruct (Nat.eqb_spec (length (bytes_of cand)) (length fileSuffix)) as [Hlen|Hlen];
      cbn [andb].
    + destruct (std_equal fnCharIEqual (bytes_of cand) fileSuffix) eqn:Heq.
      * split; [|done]. intros _. exists cand. split; [apply list_elem_of_here|].
        by apply std_equal_tolower.
      * rewrite IH. split.
        -- intros (c & Hc & Hm). exists c. split; [by apply list_elem_of_further|done].
        -- intros (c & [->|Hc]%elem_of_cons & Hm); [|by exists c].
           apply std_equal_tolower in Hm; [congruence|done].
    + rewrite IH. split.
      * intros (c & Hc & Hm). exists c. split; [by apply list_elem_of_further|done].
      * intros (c & [->|Hc]%elem_of_cons & Hm); [|by exists c].
        apply (f_equal length) in Hm. rewrite !length_map in Hm. done.
Qed.

Lemma fnMatchFileSuffix_true (filepath : string) (format : Format) :
  fnMatchFileSuffix formatFileSuffixes (fileSuffix_of filepath) format = true <->
  suffix_matches formatFileSuffixes filepath format.
Proof. apply matchFileSuffix_in_true. Qed.

(** The suffix loop over a vector returns its first matching format. *)
Lemma suffix_loop_first (vec : list Format) (filepath : string) :
  match suffix_loop formatFileSuffixes vec (fileSuffix_of filepath) with
  | Some format =>
      exists before after,
        vec = before ++ format :: after /\
        suffix_matches formatFileSuffixes filepath format /\
        forall f, f ∈ before -> ~ suffix_matches formatFileSuffixes filepath f
  | None => forall f, f ∈ vec -> ~ suffix_matches formatFileSuffixes filepath f
  end.
Proof.
  induction vec as [|format vec IH]; cbn [suffix_loop].
  - intros f Hf. by apply elem_of_nil in Hf.
  - destruct (fnMatchFileSuffix formatFileSuffixes (fileSuffix_of filepath) format) eqn:Hm.
    + apply fnMatchFileSuffix_true in Hm. exists [], vec. split; [done|]. split; [done|].
      intros f Hf. by apply elem_of_nil in Hf.
    + assert (~ suffix_matches formatFileSuffixes filepath format) as Hno.
      { intros H%fnMatchFileSuffix_true. congruence. }
      destruct (suffix_loop formatFileSuffixes vec (fileSuffix_of filepath)) as [f|].
      * destruct IH as (before & after & -> & Hf & Hbefore).
        exists (format :: before), after. split; [done|]. split; [done|].
        intros g [->|Hg]%elem_of_cons; [done|by apply Hbefore].
      * intros g [->|Hg]%elem_of_cons; [done|by apply IH].
Qed.

Lemma suffix_loop_app (vec1 vec2 : list Format) (fileSuffix : list ascii) :
  suffix_loop formatFileSuffixes (vec1 ++ vec2) fileSuffix
  = match suffix_loop formatFileSuffixes vec1 fileSuffix with
    | Some format => Some format
    | None => suffix_loop formatFileSuffixes vec2 fileSuffix
    end.
Proof.
  induction vec1 as [|format vec1 IH]; cbn [app suffix_loop]; [done|].
  by destruct (fnMatchFileSuffix formatFileSuffixes fileSuffix format).
Qed.

(** The fallback scans the reader formats, then the writer formats. *)
Lemma guessFromSuffix_first (sys : System) (filepath : string) :
  let formats := m_vecReaderFormat sys ++ m_vecWriterFormat sys in
  (forall before format after,
      formats = before ++ format :: after ->
      suffix_matches formatFileSuffixes filepath format ->
      (forall f, f ∈ before -> ~ suffix_matches formatFileSuffixes filepath f) ->
      guessFromSuffix formatFileSuffixes sys filepath = format) /\
  ((forall f, f ∈ formats -> ~ suffix_matches formatFileSuffixes filepath f) ->
   guessFromSuffix formatFileSuffixes sys filepath = Format_Unknown).
Proof.
  intros formats.
  assert (guessFromSuffix formatFileSuffixes sys filepath
          = match suffix_loop formatFileSuffixes formats (fileSuffix_of filepath) with
            | Some format => format
            | None => Format_Unknown
            end) as ->.
  { unfold guessFromSuffix, formats. cbv zeta. rewrite suffix_loop_app.
    by destruct (suffix_loop formatFileSuffixes (m_vecReaderFormat sys) _). }
  pose proof (suffix_loop_first formats filepath) as Hfirst.
  destruct (suffix_loop formatFileSuffixes formats (fileSuffix_of filepath)) as [g|].
  - destruct Hfirst as (before' & after' & Heq' & Hg & Hbefore'). split.
    + intros before format after Heq Hformat Hbefore.
      rewrite Heq in Heq'.
      destruct (Nat.lt_trichotomy (length before) (length before')) as [Hlt|[Hlen|Hgt]].
      * exfalso. apply (Hbefore' format); [|done].
        apply (f_equal (fun l => l !! length before)) in Heq'.
        rewrite list_lookup_middle in Heq' by done.
        rewrite lookup_app_l in Heq' by done.
        symmetry in Heq'. by apply list_elem_of_lookup_2 in Heq'.
      * apply app_inj_1 in Heq' as [_ [= ->]]; done.
      * exfalso. apply (Hbefore g); [|done].
        apply (f_equal (fun l => l !! length before')) in Heq'.
        rewrite (list_lookup_middle before' _ _ (length before')) in Heq' by done.
        rewrite lookup_app_l in Heq' by done.
        by apply list_elem_of_lookup_2 in Heq'.
    + intros Hnone. exfalso. apply (Hnone g); [|done].
      rewrite Heq'. apply elem_of_app. right. apply list_elem_of_here.
  - split; [|done].
    intros before format after Heq Hformat _. exfalso. apply (Hfirst format); [|done].
    rewrite Heq. apply elem_of_app. right. apply list_elem_of_here.
Qed.

(** The probe loop returns the first result that is not [Format_Unknown]. *)
Lemma probe_loop_hit (before after : list FormatProbe) (fnProbe : FormatProbe)
    (probeInput : FormatProbeInput) (format : Format) :
  (forall p, p ∈ before -> p probeInput = Ok Format_Unknown) ->
  fnProbe probeInput = Ok format ->
  format <> Format_Unknown ->
  probe_loop (before ++ fnProbe :: after) probeInput = Ok (Some format).
Proof.
  intros Hbefore Hhit Hne. induction before as [|p before IH]; cbn [app probe_loop].
  - rewrite Hhit. cbn [bind]. unfold Format_eqb. by rewrite bool_decide_eq_false_2.
  - rewrite (Hbefore p) by apply list_elem_of_here. cbn [bind].
    replace (Format_eqb Format_Unknown Format_Unknown) with true by done. cbn [negb].
    apply IH. intros q Hq. by apply Hbefore, list_elem_of_further.
Qed.

Lemma probe_loop_miss (vec : list FormatProbe) (probeInput : FormatProbeInput) :
  (forall p, p ∈ vec -> p probeInput = Ok Format_Unknown) ->
  probe_loop vec probeInput = Ok None.
Proof.
  intros Hall. induction vec as [|p vec IH]; cbn [probe_loop]; [done|].
  rewrite (Hall p) by apply list_elem_of_here. cbn [bind].
  replace (Format_eqb Format_Unknown Format_Unknown) with true by done. cbn [negb].
  apply IH. intros q Hq. by apply Hall, list_elem_of_further.
Qed.

Lemma addFormatProbe_all (probes : list FormatProbe) (sys : System) :
  m_vecFormatProbe (fold_left addFormatProbe probes sys) = m_vecFormatProbe sys ++ probes.
Proof.
  revert sys. induction probes as [|p probes IH]; intros sys; cbn [fold_left].
  - by rewrite app_nil_r.
  - rewrite IH. cbn. by rewrite <- app_assoc.
Qed.

Lemma read_buff_length (contents : list ascii) : length (read_buff contents) = 2048.
Proof.
  unfold read_buff. rewrite length_take, length_app, length_replicate. lia.
Qed.

Lemma read_buff_lookup (contents : list ascii) (i : nat) :
  i < 2048 ->
  read_buff contents !! i = Some (default "000"%char (contents !! i)).
Proof.
  intros Hi. unfold read_buff. rewrite lookup_take_lt by done.
  destruct (decide (i < length contents)) as [Hlt|Hge].
  - rewrite lookup_app_l by done.
    destruct (lookup_lt_is_Some_2 contents i Hlt) as [c ->]. done.
  - rewrite lookup_app_r by lia. rewrite lookup_replicate_2 by lia.
    rewrite (lookup_ge_None_2 contents i) by lia. done.
Qed.

End Dispatch.



(** ** Export *)



(** C10: when the caller of [exportApplicationItems] supplies no messenger,
    the errors go to the null messenger object, but the writer is handed
    [args.messenger] itself, the null pointer. *)
Theorem exportApplicationItems_installs_null_pointer
    (sys : System) (args : Args_ExportApplicationItems) (w : Writer) :
  Export_messenger args = None ->
  createWriter sys (Export_targetFormat args) = Some w ->
  Call_Writer_setMessenger w None ∈ snd (exportApplicationItems sys args) /\
  ~ Forall (uses_messenger nullMessenger) (snd (exportApplicationItems sys args)) /\
  forall m msgType text,
    Messenger_emitMessage m msgType text ∈ snd (exportApplicationItems sys args) ->
    m = nullMessenger.
Proof.
  intros Hm Hw.
  assert (Call_Writer_setMessenger w None ∈ snd (exportApplicationItems sys args)) as Hin.
  { unfold exportApplicationItems. rewrite Hw, Hm.
    destruct (Writer_transfer w _); cbn [negb];
      [destruct (Writer_writeFile w _); cbn [negb]|];
      cbn; apply list_elem_of_here. }
  split; [done|]. split.
  - intros Hall. rewrite Forall_forall in Hall. by apply Hall in Hin.
  - unfold exportApplicationItems. rewrite Hw, Hm. intros m msgType text.
    destruct (Writer_transfer w _); cbn [negb];
      [destruct (Writer_writeFile w _); cbn [negb]|];
      cbn; intros Hc;
      repeat (apply elem_of_cons in Hc as [Hc|Hc]; [by simplify_eq|]);
      by apply elem_of_nil in Hc.
Qed.

Lemma exportApplicationItems_installs_null_pointer_witness :
  let args := ImportExamples.exportArgs Format_STL None in
  Export_messenger args = None /\
  createWriter ImportExamples.system (Export_targetFormat args)
  = Some ImportExamples.stlWriter /\
  Call_Writer_setMessenger ImportExamples.stlWriter None
  ∈ snd (exportApplicationItems ImportExamples.system args).
Proof.
  split; [reflexivity|]. split; [reflexivity|].
  apply (exportApplicationItems_installs_null_pointer ImportExamples.system
           (ImportExamples.exportArgs Format_STL None) ImportExamples.stlWriter);
    reflexivity.
Defined.

(** ** Import *)

Section Drain.

Variable formatFileSuffixes : Format -> list string.
Variable fs : string -> option (list ascii).
Variable sys : System.
Variable args : Args_ImportInDocument.
Variable childProgress : nat -> TaskProgress.

(** The drain loop marks a task as transferred in [fnTransfer] only.  When
    the first task that is ready has failed to read, the body of the loop
    leaves the tasks as they are and counts one task less: the same task is
    found again by the next iteration. *)
Lemma drainBody_failed_read (clock : nat) (st : DrainState) (it : nat) (taskData : TaskData.t) :
  list_find (readyForTransfer st) (vecTaskData st) = Some (it, taskData) ->
  TaskData.readSuccess taskData = false ->
  drainBody args clock st
  = {| effects := effects st;
       vecTaskData := vecTaskData st;
       doneTasks := doneTasks st;
       taskDataCount := taskDataCount st - 1 |} /\
  list_find (readyForTransfer (drainBody args clock st)) (vecTaskData (drainBody args clock st))
  = Some (it, taskData).
Proof.
  intros Hfind Hread.
  assert (drainBody args clock st
          = {| effects := effects st;
               vecTaskData := vecTaskData st;
               doneTasks := doneTasks st;
               taskDataCount := taskDataCount st - 1 |}) as Heq.
  { unfold drainBody. rewrite Hfind, Hread.
    apply list_find_Some in Hfind as (Hit & _ & _).
    by rewrite list_insert_id. }
  split; [done|]. by rewrite Heq.
Qed.

End Drain.

(** C1: the import of [good.step], [bad.xyz] and [good2.step], in a run in
    which the three reads end before the drain loop looks for them.  The
    loop transfers [good.step], then finds the task of [bad.xyz] twice,
    which exhausts its count of three: the operation returns [false] with
    one error for [bad.xyz], and [good2.step], though read, is neither
    transferred nor attached to the document. *)
Theorem importInDocument_skips_file_after_failed_read :
  let m := Messenger_at 9 in
  let r := ImportExamples.stepReader in
  importInDocument ImportExamples.suffixes ImportExamples.files ImportExamples.system
    (ImportExamples.args ["good.step"; "bad.xyz"; "good2.step"])
    ImportExamples.childProgress ImportExamples.readsFirst
  = Some (Ok (false,
       [ Call_Reader_setMessenger r (Some m);
         Call_Reader_readFile r "good.step";
         Messenger_emitMessage m Error (importErrorText "bad.xyz" "Unknown format");
         Call_Reader_setMessenger r (Some m);
         Call_Reader_readFile r "good2.step";
         Call_Reader_transfer r;
         Call_Document_addEntityTreeNode 1;
         Call_Document_addEntityTreeNode 2 ])) /\
  Reader_readFile r "good2.step" = true /\
  Reader_transfer r "good2.step" = [3].
Proof. repeat split; vm_compute; reflexivity. Qed.

(** The same three files one at a time go through: the single-file path
    has no such loop. *)
Lemma importInDocument_single_files :
  let m := Messenger_at 9 in
  let r := ImportExamples.stepReader in
  importInDocument ImportExamples.suffixes ImportExamples.files ImportExamples.system
    (ImportExamples.args ["good2.step"]) ImportExamples.childProgress []
  = Some (Ok (true,
       [ Call_Reader_setMessenger r (Some m);
         Call_Reader_readFile r "good2.step";
         Call_Reader_transfer r;
         Call_Document_addEntityTreeNode 3 ])) /\
  importInDocument ImportExamples.suffixes ImportExamples.files ImportExamples.system
    (ImportExamples.args ["bad.xyz"]) ImportExamples.childProgress []
  = Some (Ok (false,
       [ Messenger_emitMessage m Error (importErrorText "bad.xyz" "Unknown format") ])).
Proof. split; vm_compute; reflexivity. Qed.

(** * Further properties of the import *)

Section ImportInvariant.

Variable formatFileSuffixes : Format -> list string.
Variable fs : string -> option (list ascii).
Variable sys : System.
Variable args : Args_ImportInDocument.
Variable childProgress : nat -> TaskProgress.

Local Abbreviation uses_m := (uses_messenger (messenger args)).
Local Abbreviation reader_of := (reader_for formatFileSuffixes fs sys).
Local Abbreviation reads := (file_reads formatFileSuffixes fs sys).
Local Abbreviation succeeds := (file_ok formatFileSuffixes fs sys).

Lemma call_messenger (e : Effects) (cs : list Call) :
  Forall uses_m (calls e) -> Forall uses_m cs -> Forall uses_m (calls (call e cs)).
Proof. intros He Hcs. cbn. by apply Forall_app. Qed.

Lemma fnAddError_messenger (fp errorMsg : string) (e : Effects) :
  Forall uses_m (calls e) -> Forall uses_m (calls (fnAddError args fp errorMsg e)).
Proof.
  intros He. cbn. apply Forall_app. split; [done|]. by apply Forall_singleton.
Qed.

(** [fnReadFile] on a task: what it returns and what it leaves. *)
Lemma fnReadFile_spec (taskData taskData' : TaskData.t) (e e' : Effects) (r : bool) :
  fnReadFile formatFileSuffixes fs sys args taskData e = Ok (r, taskData', e') ->
  TaskData.filepath taskData' = TaskData.filepath taskData /\
  TaskData.taskId taskData' = TaskData.taskId taskData /\
  TaskData.transferred taskData' = TaskData.transferred taskData /\
  TaskData.progress taskData' = TaskData.progress taskData /\
  r = reads (TaskData.filepath taskData) /\
  (r = true -> TaskData.reader taskData' = reader_of (TaskData.filepath taskData)) /\
  ok e' = ok e && r /\
  (Forall uses_m (calls e) -> Forall uses_m (calls e')).
Proof.
  unfold fnReadFile, file_reads, reader_for.
  destruct (probeFormat formatFileSuffixes fs sys (TaskData.filepath taskData))
    as [format|f]; cbn [bind]; [|done].
  destruct (Format_eqb format Format_Unknown).
  { intros [= <- <- <-]. split_and!; try done.
    - by rewrite andb_false_r.
    - apply fnAddError_messenger. }
  cbn [TaskData.reader TaskData.set_reader TaskData.set_fileFormat TaskData.filepath].
  destruct (createReader sys format) as [reader|].
  2:{ intros [= <- <- <-]. split_and!; try done.
      - by rewrite andb_false_r.
      - apply fnAddError_messenger. }
  assert (forall e0 : Effects,
             Forall uses_m (calls e0) ->
             Forall uses_m
               (calls (call
                  match Import_parametersProvider args with
                  | Some findReaderParameters =>
                      call (call e0 [Call_Reader_setMessenger reader (Some (messenger args))])
                        [Call_Reader_applyProperties reader (findReaderParameters format)]
                  | None => call e0 [Call_Reader_setMessenger reader (Some (messenger args))]
                  end
                  [Call_Reader_readFile reader (TaskData.filepath taskData)]))) as Hcalls.
  { intros e0 He0. apply call_messenger; [|by apply Forall_singleton].
    destruct (Import_parametersProvider args);
      [apply call_messenger; [|by apply Forall_singleton]|];
      (apply call_messenger; [done|by apply Forall_singleton]). }
  destruct (Reader_readFile reader (TaskData.filepath taskData)); cbn [negb].
  - intros [= <- <- <-]. split_and!; try done.
    + cbn. destruct (Import_parametersProvider args); cbn; by rewrite andb_true_r.
    + apply Hcalls.
  - intros [= <- <- <-]. split_and!; try done.
    + by rewrite andb_false_r.
    + intros He. apply fnAddError_messenger. by apply Hcalls.
Qed.

Lemma fnReadFile_defined (taskData : TaskData.t) (e : Effects) :
  (exists format,
      probeFormat formatFileSuffixes fs sys (TaskData.filepath taskData) = Ok format) ->
  exists r taskData' e',
    fnReadFile formatFileSuffixes fs sys args taskData e = Ok (r, taskData', e').
Proof.
  intros [format Hformat]. unfold fnReadFile. rewrite Hformat. cbn [bind].
  destruct (Format_eqb format Format_Unknown); [by eexists _, _, _|].
  cbn [TaskData.reader TaskData.set_reader TaskData.set_fileFormat TaskData.filepath].
  destruct (createReader sys format) as [reader|]; [|by eexists _, _, _].
  destruct (Reader_readFile reader _); by eexists _, _, _.
Qed.

(** The three stages after a read, for a task that holds a reader and
    whose progress does not request an abort. *)
Lemma transferStages_spec (clock : nat) (taskData : TaskData.t) (e : Effects) (rd : Reader) :
  TaskData.reader taskData = Some rd ->
  isAbortRequested_below (TaskData.progress taskData) clock = false ->
  exists taskData' e',
    transferStages args clock taskData e = (taskData', e') /\
    TaskData.filepath taskData' = TaskData.filepath taskData /\
    TaskData.taskId taskData' = TaskData.taskId taskData /\
    TaskData.readSuccess taskData' = TaskData.readSuccess taskData /\
    TaskData.reader taskData' = TaskData.reader taskData /\
    TaskData.progress taskData' = TaskData.progress taskData /\
    TaskData.transferred taskData' = true /\
    TaskData.seqTransferredEntity taskData' = Reader_transfer rd (TaskData.filepath taskData) /\
    ok e' = ok e && negb (bool_decide (Reader_transfer rd (TaskData.filepath taskData) = [])) /\
    (Forall uses_m (calls e) -> Forall uses_m (calls e')).
Proof.
  intros Hrd Habort. unfold transferStages, fnTransfer. rewrite Hrd, Habort. cbn [negb].
  cbn [TaskData.seqTransferredEntity TaskData.set_seqTransferredEntity TaskData.filepath].
  assert (forall td e0, Forall uses_m (calls e0) ->
            Forall uses_m (calls (fnAddModelTreeEntities td (fnPostProcess args td e0))))
    as Hrest.
  { intros td e0 He0. unfold fnAddModelTreeEntities, fnPostProcess.
    apply call_messenger.
    - destruct (negb _); [done|]. apply call_messenger; [done|].
      apply Forall_forall. intros c (l & -> & _)%list_elem_of_fmap. done.
    - apply Forall_forall. intros c (l & -> & _)%list_elem_of_fmap. done. }
  assert (forall td e0, ok (fnAddModelTreeEntities td (fnPostProcess args td e0)) = ok e0)
    as Hok.
  { intros td e0. unfold fnAddModelTreeEntities, fnPostProcess.
    by destruct (negb _). }
  destruct (bool_decide (Reader_transfer rd (TaskData.filepath taskData) = [])) eqn:Hempty;
    eexists _, _; (split; [reflexivity|]); split_and!; try done.
  - rewrite Hok. cbn. by rewrite andb_false_r.
  - intros He. apply Hrest, fnAddError_messenger.
    apply call_messenger; [done|by apply Forall_singleton].
  - rewrite Hok. cbn. by rewrite andb_true_r.
  - intros He. apply Hrest. apply call_messenger; [done|by apply Forall_singleton].
Qed.

(** Whatever the task, the stages keep the messenger and never bring [ok]
    back to [true]. *)
Lemma transferStages_any (clock : nat) (taskData : TaskData.t) (e : Effects) :
  (Forall uses_m (calls e) ->
   Forall uses_m (calls (snd (transferStages args clock taskData e)))) /\
  (ok e = false -> ok (snd (transferStages args clock taskData e)) = false).
Proof.
  unfold transferStages, fnTransfer.
  assert (forall td e0, Forall uses_m (calls e0) ->
            Forall uses_m (calls (fnAddModelTreeEntities td (fnPostProcess args td e0))))
    as Hrest.
  { intros td e0 He0. unfold fnAddModelTreeEntities, fnPostProcess.
    apply call_messenger.
    - destruct (negb _); [done|]. apply call_messenger; [done|].
      apply Forall_forall. intros c (l & -> & _)%list_elem_of_fmap. done.
    - apply Forall_forall. intros c (l & -> & _)%list_elem_of_fmap. done. }
  assert (forall td e0, ok (fnAddModelTreeEntities td (fnPostProcess args td e0)) = ok e0)
    as Hok.
  { intros td e0. unfold fnAddModelTreeEntities, fnPostProcess.
    by destruct (negb _). }
  destruct (TaskData.reader taskData) as [rd|];
    [destruct (negb (isAbortRequested_below _ _));
     [cbn [TaskData.seqTransferredEntity TaskData.set_seqTransferredEntity];
      destruct (bool_decide (_ = []))|]|];
    cbn [snd]; rewrite Hok; (split; [intros He; apply Hrest|try done]).
  - apply fnAddError_messenger. apply call_messenger; [done|by apply Forall_singleton].
  - apply call_messenger; [done|by apply Forall_singleton].
  - done.
  - done.
Qed.

(** Counting the transferred tasks when one task is replaced. *)
Lemma transferredCount_insert (vec : list TaskData.t) (i : nat) (old new : TaskData.t) :
  vec !! i = Some old ->
  transferredCount (<[i := new]> vec) + (if TaskData.transferred old then 1 else 0)
  = transferredCount vec + (if TaskData.transferred new then 1 else 0).
Proof.
  unfold transferredCount. revert i.
  induction vec as [|td vec IH]; intros i Hi; [done|].
  destruct i as [|i]; simplify_eq/=.
  - rewrite !filter_cons.
    destruct (TaskData.transferred old), (TaskData.transferred new);
      repeat case_decide; simplify_eq/=; lia.
  - rewrite !filter_cons. specialize (IH i Hi).
    case_decide; simpl; lia.
Qed.

Lemma transferredCount_le (vec : list TaskData.t) : transferredCount vec <= length vec.
Proof. unfold transferredCount. apply length_filter. Qed.

(** When fewer tasks are transferred than there are, one is not. *)
Lemma transferredCount_lt (vec : list TaskData.t) :
  transferredCount vec < length vec ->
  exists i taskData, vec !! i = Some taskData /\ TaskData.transferred taskData = false.
Proof.
  unfold transferredCount. induction vec as [|td vec IH]; simpl; [lia|].
  rewrite filter_cons. destruct (TaskData.transferred td) eqn:Htd.
  - rewrite decide_True by done. simpl. intros Hlt.
    destruct IH as (i & td' & Hi & Htd'); [lia|]. by exists (S i), td'.
  - intros _. by exists 0, td.
Qed.

Lemma transferredCount_all (vec : list TaskData.t) :
  transferredCount vec = length vec ->
  forall i taskData, vec !! i = Some taskData -> TaskData.transferred taskData = true.
Proof.
  intros Hall i td Hi. destruct (TaskData.transferred td) eqn:Htd; [done|].
  exfalso. revert i Hi Hall. unfold transferredCount.
  induction vec as [|td' vec IH]; intros i Hi; [done|].
  rewrite filter_cons. destruct i as [|i]; simplify_eq/=.
  - rewrite decide_False by congruence.
    pose proof (length_filter (fun t => TaskData.transferred t = true) vec). lia.
  - case_decide; simpl.
    + intros ?. apply (IH i Hi). lia.
    + pose proof (length_filter (fun t => TaskData.transferred t = true) vec). lia.
Qed.

Lemma transferredCount_none (vec : list TaskData.t) :
  (forall i taskData, vec !! i = Some taskData -> TaskData.transferred taskData = false) ->
  transferredCount vec = 0.
Proof.
  intros Hnone. destruct (decide (transferredCount vec = 0)) as [|Hne]; [done|].
  exfalso. unfold transferredCount in Hne.
  destruct (filter (fun t => TaskData.transferred t = true) vec) as [|td l] eqn:Hf; [done|].
  assert (td ∈ filter (fun t => TaskData.transferred t = true) vec) as Hin
    by (rewrite Hf; apply list_elem_of_here).
  apply list_elem_of_filter in Hin as [Htd Hin].
  apply list_elem_of_lookup in Hin as [i Hi]. specialize (Hnone i td Hi). congruence.
Qed.

Local Abbreviation inv := (drain_inv formatFileSuffixes fs sys args childProgress).

Lemma initTaskData_lookup (listFilepath : list string) (i : nat) (taskData : TaskData.t) :
  initTaskData listFilepath !! i = Some taskData ->
  listFilepath !! i = Some (TaskData.filepath taskData) /\
  TaskData.taskId taskData = i /\
  TaskData.transferred taskData = false.
Proof.
  unfold initTaskData. rewrite list_lookup_imap.
  destruct (listFilepath !! i) as [fp|]; [|done]. by intros [= <-].
Qed.

(** The state in which the many-files case starts. *)
Lemma drain_inv_init :
  inv {| effects := {| ok := true; calls := [] |};
         vecTaskData := initTaskData (Import_filepaths args);
         doneTasks := [];
         taskDataCount := length (Import_filepaths args) |}.
Proof.
  split; cbn [effects vecTaskData doneTasks taskDataCount ok calls].
  - intros i td Hi. apply initTaskData_lookup in Hi as (? & ? & _). done.
  - unfold initTaskData. by rewrite length_imap.
  - intros i td _ Hin. by apply elem_of_nil in Hin.
  - intros i td Hi Htd. apply initTaskData_lookup in Hi as (_ & _ & ?). congruence.
  - done.
  - intros _ i td _ Hin. by apply elem_of_nil in Hin.
  - rewrite transferredCount_none; [lia|].
    intros i td Hi. by apply initTaskData_lookup in Hi as (_ & _ & ?).
  - intros _. rewrite transferredCount_none; [lia|].
    intros i td Hi. by apply initTaskData_lookup in Hi as (_ & _ & ?).
  - done.
Qed.

Lemma file_ok_reads (fp : string) : succeeds fp = true -> reads fp = true.
Proof.
  unfold file_ok, file_reads. destruct (reader_of fp); [|done].
  by intros [? _]%andb_true_iff.
Qed.

(** The end of a read keeps the invariant. *)
Lemma runReadTask_inv (i : nat) (st st' : DrainState) :
  inv st ->
  runReadTask formatFileSuffixes fs sys args childProgress i st = Ok st' ->
  inv st'.
Proof.
  intros [Ht Hl Hd Htr Hf Hor Hcl Hc Hm]. unfold runReadTask.
  destruct (vecTaskData st !! i) as [td|] eqn:Hi; [|by intros [= <-]].
  destruct (bool_decide (i ∈ doneTasks st)) eqn:Hdone; [by intros [= <-]|].
  apply bool_decide_eq_false in Hdone.
  destruct (fnReadFile _ _ _ _ _ _) as [[[r td2] e2]|f] eqn:Hread; cbn [bind]; [|done].
  intros [= <-].
  apply fnReadFile_spec in Hread as (Hfp & Hid & Htrd & Hpr & Hr & Hrd & Hok & Hms).
  cbn in Hfp, Hid, Htrd, Hpr, Hr, Hrd.
  destruct (Ht i td Hi) as [Hfile Htid].
  assert (TaskData.transferred td = false) as Hnot.
  { destruct (TaskData.transferred td) eqn:Htd; [|done].
    destruct (Htr i td Hi Htd) as [? _]. done. }
  assert (i < length (vecTaskData st)) as Hlt by (by eapply lookup_lt_Some).
  split; cbn [effects vecTaskData doneTasks taskDataCount ok calls].
  - intros j td' [(<- & <- & _)|[Hne Hj]]%list_lookup_insert_Some; [|by apply Ht].
    cbn. by rewrite Hfp, Hid.
  - by rewrite length_insert.
  - intros j td' [(<- & <- & _)|[Hne Hj]]%list_lookup_insert_Some Hin.
    + cbn. rewrite Hfp. split_and!; [done| |by rewrite Hpr].
      intros ->. by apply Hrd.
    + apply elem_of_cons in Hin as [->|Hin]; [done|]. by apply Hd.
  - intros j td' [(<- & <- & _)|[Hne Hj]]%list_lookup_insert_Some Htd'.
    + cbn in Htd'. congruence.
    + destruct (Htr j td' Hj Htd') as (Hin & Hrs & Hfo).
      split_and!; [by apply list_elem_of_further|done|].
      intros Hok'. apply Hfo. rewrite Hok in Hok'. by apply andb_true_iff in Hok' as [? _].
  - intros Hok'. rewrite Hok in Hok'. apply andb_false_iff in Hok' as [Hok' | ->].
    + by apply Hf.
    + exists (TaskData.filepath td). split; [by eapply list_elem_of_lookup_2|].
      destruct (succeeds (TaskData.filepath td)) eqn:Hs; [|done].
      apply file_ok_reads in Hs. congruence.
  - intros Hok'. rewrite Hok in Hok'. apply andb_true_iff in Hok' as [Hok' ->].
    intros j td' [(<- & <- & _)|[Hne Hj]]%list_lookup_insert_Some Hin; [done|].
    apply elem_of_cons in Hin as [->|Hin]; [done|]. by eapply Hor.
  - pose proof (transferredCount_insert (vecTaskData st) i td
                  (TaskData.set_readSuccess td2 r) Hi) as Hcount.
    cbn in Hcount. rewrite Htrd, Hnot in Hcount. lia.
  - intros Hok'. rewrite Hok in Hok'. apply andb_true_iff in Hok' as [Hok' _].
    pose proof (transferredCount_insert (vecTaskData st) i td
                  (TaskData.set_readSuccess td2 r) Hi) as Hcount.
    cbn in Hcount. rewrite Htrd, Hnot in Hcount. specialize (Hc Hok'). lia.
  - by apply Hms.
Qed.

Lemma runReadTask_messenger (i : nat) (st st' : DrainState) :
  Forall uses_m (calls (effects st)) ->
  runReadTask formatFileSuffixes fs sys args childProgress i st = Ok st' ->
  Forall uses_m (calls (effects st')).
Proof.
  intros Hm. unfold runReadTask.
  destruct (vecTaskData st !! i) as [td|]; [|by intros [= <-]].
  destruct (bool_decide (i ∈ doneTasks st)); [by intros [= <-]|].
  destruct (fnReadFile _ _ _ _ _ _) as [[[r td2] e2]|f] eqn:Hread; cbn [bind]; [|done].
  intros [= <-]. cbn. apply fnReadFile_spec in Hread. by apply Hread.
Qed.

Lemma drainBody_messenger (clock : nat) (st : DrainState) :
  Forall uses_m (calls (effects st)) ->
  Forall uses_m (calls (effects (drainBody args clock st))).
Proof.
  intros Hm. unfold drainBody. destruct (list_find _ _) as [[it td]|]; [|done].
  destruct (TaskData.readSuccess td); [|done].
  pose proof (proj1 (transferStages_any clock td (effects st)) Hm) as Hm'.
  by destruct (transferStages args clock td (effects st)).
Qed.

Lemma drain_messenger (sched : list SchedEvent) :
  forall (clock : nat) (st : DrainState) (e : Effects),
    Forall uses_m (calls (effects st)) ->
    drain formatFileSuffixes fs sys args childProgress sched clock st = Some (Ok e) ->
    Forall uses_m (calls e).
Proof.
  induction sched as [|ev sched IH]; intros clock st e Hm; cbn [drain]; [done|].
  destruct ev as [i|].
  - destruct (runReadTask _ _ _ _ _ i st) as [st'|f] eqn:Hrun; [|done].
    apply IH. by eapply runReadTask_messenger.
  - destruct (_ && _).
    + apply IH. by apply drainBody_messenger.
    + by intros [= <-].
Qed.

Lemma importSingleFile_messenger (fp : string) (e0 e : Effects) :
  Forall uses_m (calls e0) ->
  importSingleFile formatFileSuffixes fs sys args fp e0 = Ok e ->
  Forall uses_m (calls e).
Proof.
  intros Hm. unfold importSingleFile.
  destruct (fnReadFile _ _ _ _ _ _) as [[[r td] e1]|f] eqn:Hread; cbn [bind]; [|done].
  apply fnReadFile_spec in Hread as (_ & _ & _ & _ & _ & _ & _ & Hms).
  cbn [ok calls]. destruct r; intros [= <-].
  - apply transferStages_any. cbn. by apply Hms.
  - cbn. by apply Hms.
Qed.

Hypothesis childProgress_runs :
  forall i clock, TaskProgress_isAbortRequested (childProgress i) clock = false.

(** One round of the drain loop keeps the invariant. *)
Lemma drainBody_inv (clock : nat) (st : DrainState) :
  inv st -> 0 < taskDataCount st -> inv (drainBody args clock st).
Proof.
  intros Hinv Hpos. pose proof Hinv as [Ht Hl Hd Htr Hf Hor Hcl Hc Hm].
  unfold drainBody.
  destruct (list_find (readyForTransfer st) (vecTaskData st)) as [[it td]|] eqn:Hfind;
    [|done].
  apply list_find_Some in Hfind as (Hit & [Hntr Hdone] & _).
  destruct (Ht it td Hit) as [Hfile Htid]. rewrite Htid in Hdone.
  destruct (Hd it td Hit Hdone) as (Hrs & Hrd & Hpr).
  assert (it < length (vecTaskData st)) as Hlt by (by eapply lookup_lt_Some).
  destruct (TaskData.readSuccess td) eqn:Hread.
  - symmetry in Hrs. specialize (Hrd eq_refl).
    assert (exists rd, reader_of (TaskData.filepath td) = Some rd /\
                       Reader_readFile rd (TaskData.filepath td) = true) as (rd & Hof & Hrf).
    { unfold file_reads in Hrs. destruct (reader_of (TaskData.filepath td)) as [rd|]; [|done].
      by exists rd. }
    rewrite Hof in Hrd.
    destruct (transferStages_spec clock td (effects st) rd Hrd)
      as (td' & e' & -> & Hfp & Hid & Hrs' & Hrd' & Hpr' & Htrd' & _ & Hok & Hms).
    { rewrite Hpr. apply childProgress_runs. }
    assert (succeeds (TaskData.filepath td)
            = negb (bool_decide (Reader_transfer rd (TaskData.filepath td) = []))) as Hsucc.
    { unfold file_ok. by rewrite Hof, Hrf. }
    rewrite <- Hsucc in Hok.
    pose proof (transferredCount_insert (vecTaskData st) it td td' Hit) as Hcount.
    rewrite Hntr, Htrd' in Hcount.
    split; cbn [effects vecTaskData doneTasks taskDataCount].
    + intros j td'' [(<- & <- & _)|[Hne Hj]]%list_lookup_insert_Some; [|by apply Ht].
      by rewrite Hfp, Hid.
    + by rewrite length_insert.
    + intros j td'' [(<- & <- & _)|[Hne Hj]]%list_lookup_insert_Some Hin; [|by apply Hd].
      rewrite Hfp, Hrs', Hrd', Hpr', Hread. split_and!; [done| |done].
      intros _. by rewrite Hrd, Hof.
    + intros j td'' [(<- & <- & _)|[Hne Hj]]%list_lookup_insert_Some Htd''.
      * rewrite Hfp, Hrs'. split_and!; [done|done|].
        intros Hok'. rewrite Hok in Hok'. by apply andb_true_iff in Hok' as [_ ?].
      * destruct (Htr j td'' Hj Htd'') as (Hin & Hrs'' & Hfo). split_and!; [done|done|].
        intros Hok'. apply Hfo. rewrite Hok in Hok'. by apply andb_true_iff in Hok' as [? _].
    + intros Hok'. rewrite Hok in Hok'. apply andb_false_iff in Hok' as [Hok'|Hok'].
      * by apply Hf.
      * exists (TaskData.filepath td). split; [by eapply list_elem_of_lookup_2|done].
    + intros Hok'. rewrite Hok in Hok'. apply andb_true_iff in Hok' as [Hok' _].
      intros j td'' [(<- & <- & _)|[Hne Hj]]%list_lookup_insert_Some Hin;
        [by rewrite Hrs'|by eapply Hor].
    + lia.
    + intros Hok'. rewrite Hok in Hok'. apply andb_true_iff in Hok' as [Hok' _].
      specialize (Hc Hok'). lia.
    + by apply Hms.
  - rewrite list_insert_id by done.
    split; cbn [effects vecTaskData doneTasks taskDataCount]; try done.
    + lia.
    + intros Hok'. specialize (Hor Hok' it td Hit Hdone). congruence.
Qed.

Hypothesis rootProgress_runs :
  forall clock, TaskProgress_isAbortRequested (rootProgress args) clock = false.

(** When the count of the loop is down to zero, [ok] is the conjunction of
    the successes of the files. *)
Lemma drain_inv_exit (st : DrainState) :
  inv st ->
  taskDataCount st = 0 ->
  ok (effects st) = forallb succeeds (Import_filepaths args).
Proof.
  intros [Ht Hl Hd Htr Hf Hor Hcl Hc Hm] Hzero.
  destruct (ok (effects st)) eqn:Hok; symmetry.
  - apply forallb_forall. intros fp Hfp%list_elem_of_In.
    apply list_elem_of_lookup in Hfp as [i Hi].
    destruct (lookup_lt_is_Some_2 (vecTaskData st) i) as [td Htd].
    { rewrite Hl. by eapply lookup_lt_Some. }
    destruct (Ht i td Htd) as [Hfile _]. rewrite Hi in Hfile. injection Hfile as ->.
    specialize (Hc eq_refl). rewrite Hzero in Hc. rewrite <- Hl in Hc.
    pose proof (transferredCount_all (vecTaskData st) Hc i td Htd) as Htrd.
    destruct (Htr i td Htd Htrd) as (_ & _ & Hfo). by apply Hfo.
  - destruct (Hf eq_refl) as (fp & Hfp & Hno).
    apply not_true_is_false. intros Hall.
    rewrite forallb_forall in Hall. specialize (Hall fp).
    rewrite <- list_elem_of_In in Hall. specialize (Hall Hfp). congruence.
Qed.

(** Whatever the schedule, when the many-files case returns, it returns the
    conjunction. *)
Lemma drain_returns_conjunction (sched : list SchedEvent) :
  forall (clock : nat) (st : DrainState) (e : Effects),
    inv st ->
    drain formatFileSuffixes fs sys args childProgress sched clock st = Some (Ok e) ->
    ok e = forallb succeeds (Import_filepaths args).
Proof.
  induction sched as [|ev sched IH]; intros clock st e Hinv; cbn [drain]; [done|].
  destruct ev as [i|].
  - destruct (runReadTask _ _ _ _ _ i st) as [st'|f] eqn:Hrun; [|done].
    apply IH. by eapply runReadTask_inv.
  - rewrite rootProgress_runs. cbn [negb]. rewrite andb_true_r.
    destruct (Nat.ltb_spec 0 (taskDataCount st)) as [Hpos|Hzero].
    + apply IH. by apply drainBody_inv.
    + intros [= <-]. apply drain_inv_exit; [done|lia].
Qed.

Lemma drainBody_doneTasks (clock : nat) (st : DrainState) :
  doneTasks (drainBody args clock st) = doneTasks st.
Proof.
  unfold drainBody. destruct (list_find _ _) as [[it td]|]; [|done].
  by destruct (if TaskData.readSuccess td then _ else _).
Qed.

Lemma drainBody_count (clock : nat) (st : DrainState) :
  is_Some (list_find (readyForTransfer st) (vecTaskData st)) ->
  taskDataCount (drainBody args clock st) = taskDataCount st - 1.
Proof.
  intros [[it td] Hfind]. unfold drainBody. rewrite Hfind.
  by destruct (if TaskData.readSuccess td then _ else _).
Qed.

(** Once every read is done, a round of the loop with a positive count finds
    a task. *)
Lemma drain_finds_task (st : DrainState) :
  inv st ->
  (forall i, i < length (Import_filepaths args) -> i ∈ doneTasks st) ->
  0 < taskDataCount st ->
  is_Some (list_find (readyForTransfer st) (vecTaskData st)).
Proof.
  intros [Ht Hl Hd Htr Hf Hor Hcl Hc Hm] Hdone Hpos.
  destruct (transferredCount_lt (vecTaskData st)) as (i & td & Hi & Htd); [lia|].
  destruct (list_find (readyForTransfer st) (vecTaskData st)) eqn:Hfind; [done|].
  exfalso. apply list_find_None in Hfind. rewrite Forall_forall in Hfind.
  apply (Hfind td); [by eapply list_elem_of_lookup_2|].
  split; [done|]. destruct (Ht i td Hi) as [_ ->].
  apply Hdone. rewrite <- Hl. by eapply lookup_lt_Some.
Qed.

(** After the reads, as many rounds as the count says, and one more, end the
    loop. *)
Lemma drain_polls (k : nat) :
  forall (clock : nat) (st : DrainState),
    inv st ->
    (forall i, i < length (Import_filepaths args) -> i ∈ doneTasks st) ->
    taskDataCount st <= k ->
    exists e,
      drain formatFileSuffixes fs sys args childProgress
        (replicate (S k) DrainIteration) clock st = Some (Ok e).
Proof.
  induction k as [|k IH]; intros clock st Hinv Hdone Hle;
    cbn [replicate drain]; rewrite rootProgress_runs; cbn [negb]; rewrite andb_true_r.
  - destruct (Nat.ltb_spec 0 (taskDataCount st)); [lia|]. by eexists.
  - destruct (Nat.ltb_spec 0 (taskDataCount st)) as [Hpos|]; [|by eexists].
    apply IH.
    + by apply drainBody_inv.
    + intros i Hi. rewrite drainBody_doneTasks. by apply Hdone.
    + rewrite drainBody_count by (by apply drain_finds_task). lia.
Qed.

Hypothesis probes_return :
  forall fp, fp ∈ Import_filepaths args ->
             exists format, probeFormat formatFileSuffixes fs sys fp = Ok format.

Lemma runReadTask_returns (i : nat) (st : DrainState) :
  inv st ->
  exists st',
    runReadTask formatFileSuffixes fs sys args childProgress i st = Ok st' /\
    (forall j, j ∈ doneTasks st -> j ∈ doneTasks st') /\
    (i < length (Import_filepaths args) -> i ∈ doneTasks st').
Proof.
  intros [Ht Hl Hd Htr Hf Hor Hcl Hc Hm]. unfold runReadTask.
  destruct (vecTaskData st !! i) as [td|] eqn:Hi.
  - destruct (bool_decide (i ∈ doneTasks st)) eqn:Hdone.
    + apply bool_decide_eq_true in Hdone. by exists st.
    + destruct (fnReadFile_defined
                  (TaskData.set_progress td (Some (childProgress i))) (effects st))
        as (r & td' & e' & ->).
      { cbn. apply probes_return. destruct (Ht i td Hi) as [Hfile _].
        by eapply list_elem_of_lookup_2. }
      cbn [bind]. eexists. split; [reflexivity|]. cbn. split.
      * intros j Hj. by apply list_elem_of_further.
      * intros _. apply list_elem_of_here.
  - exists st. split_and!; [done|done|].
    intros Hlt. apply lookup_ge_None in Hi. lia.
Qed.

(** A schedule in which every read ends, followed by enough rounds of the
    loop, brings the many-files case to its end. *)
Lemma drain_fair (sched : list SchedEvent) :
  forall (clock : nat) (st : DrainState),
    inv st ->
    (forall i, i < length (Import_filepaths args) ->
               i ∈ doneTasks st \/ ReadDone i ∈ sched) ->
    exists e,
      drain formatFileSuffixes fs sys args childProgress
        (sched ++ replicate (S (length (Import_filepaths args))) DrainIteration) clock st
      = Some (Ok e).
Proof.
  induction sched as [|ev sched IH]; intros clock st Hinv Hdone.
  - apply drain_polls; [done| |].
    + intros i Hi. destruct (Hdone i Hi) as [?|Hin]; [done|by apply elem_of_nil in Hin].
    + pose proof (inv_count_le _ _ _ _ _ _ Hinv). lia.
  - cbn [app drain]. destruct ev as [i|].
    + destruct (runReadTask_returns i st Hinv) as (st' & Hrun & Hmono & Hi).
      rewrite Hrun. apply IH; [by eapply runReadTask_inv|].
      intros j Hj. destruct (Hdone j Hj) as [?|Hin]; [left; by apply Hmono|].
      apply elem_of_cons in Hin as [[= ->]|Hin]; [left; by apply Hi|by right].
    + rewrite rootProgress_runs. cbn [negb]. rewrite andb_true_r.
      destruct (Nat.ltb_spec 0 (taskDataCount st)) as [Hpos|]; [|by eexists].
      apply IH; [by apply drainBody_inv|].
      intros j Hj. rewrite drainBody_doneTasks.
      destruct (Hdone j Hj) as [?|Hin]; [by left|].
      apply elem_of_cons in Hin as [?|Hin]; [done|by right].
Qed.

End ImportInvariant.

(** ** The order of the calls *)

Section ImportCalls.

Variable formatFileSuffixes : Format -> list string.
Variable fs : string -> option (list ascii).
Variable sys : System.
Variable args : Args_ImportInDocument.
Variable childProgress : nat -> TaskProgress.

(** The calls that [fnReadFile] adds: none of them touches the document, and
    when it returns [true] the task holds a reader whose [readFile] has just
    been called on the path of the task and has returned [true]. *)
Lemma fnReadFile_calls (taskData taskData' : TaskData.t) (e e' : Effects) (r : bool) :
  fnReadFile formatFileSuffixes fs sys args taskData e = Ok (r, taskData', e') ->
  TaskData.seqTransferredEntity taskData' = TaskData.seqTransferredEntity taskData /\
  TaskData.readSuccess taskData' = TaskData.readSuccess taskData /\
  exists cs,
    calls e' = calls e ++ cs /\
    Forall (fun c => ~ touches_document c) cs /\
    (r = true ->
     exists rd,
       TaskData.reader taskData' = Some rd /\
       Call_Reader_readFile rd (TaskData.filepath taskData) ∈ cs /\
       Reader_readFile rd (TaskData.filepath taskData) = true).
Proof.
  unfold fnReadFile.
  destruct (probeFormat formatFileSuffixes fs sys (TaskData.filepath taskData))
    as [format|f]; cbn [bind]; [|done].
  destruct (Format_eqb format Format_Unknown).
  { intros [= <- <- <-]. split_and!; try done. eexists. split; [reflexivity|].
    split; [|done]. apply Forall_singleton. by intros []. }
  cbn [TaskData.reader TaskData.set_reader TaskData.set_fileFormat TaskData.filepath].
  destruct (createReader sys format) as [reader|].
  2:{ intros [= <- <- <-]. split_and!; try done. eexists. split; [reflexivity|].
      split; [|done]. apply Forall_singleton. by intros []. }
  destruct (Reader_readFile reader (TaskData.filepath taskData)) eqn:Hrf; cbn [negb];
    intros [= <- <- <-]; (split_and!; [done|done|]);
    destruct (Import_parametersProvider args) as [pp|]; cbn;
    rewrite <- ?app_assoc; eexists; (split; [reflexivity|]); split;
    try (repeat apply Forall_cons_2; try apply Forall_nil_2; by intros []);
    try done; intros _; exists reader; (split; [done|]); (split; [|done]).
  - do 2 apply list_elem_of_further. apply list_elem_of_here.
  - apply list_elem_of_further, list_elem_of_here.
Qed.

(** The calls that the stages after a read add: at most one [transfer], on
    the reader of the task, before the others. *)
Lemma transferStages_calls (clock : nat) (taskData : TaskData.t) (e : Effects) :
  exists cs1 cs2,
    calls (snd (transferStages args clock taskData e)) = calls e ++ cs1 ++ cs2 /\
    (cs1 = [] \/ exists rd, TaskData.reader taskData = Some rd /\
                            cs1 = [Call_Reader_transfer rd]) /\
    Forall (fun c => forall r, c <> Call_Reader_transfer r) cs2 /\
    (TaskData.reader (fst (transferStages args clock taskData e)) = TaskData.reader taskData) /\
    (TaskData.readSuccess (fst (transferStages args clock taskData e))
     = TaskData.readSuccess taskData).
Proof.
  unfold transferStages, fnTransfer.
  assert (forall (td : TaskData.t) (e0 : Effects),
            exists cs,
              calls (fnAddModelTreeEntities td (fnPostProcess args td e0)) = calls e0 ++ cs /\
              Forall (fun c => forall r, c <> Call_Reader_transfer r) cs) as Hrest.
  { intros td e0. unfold fnAddModelTreeEntities, fnPostProcess.
    destruct (negb _); cbn; rewrite <- ?app_assoc; eexists; (split; [reflexivity|]);
      rewrite ?Forall_app; split_and?;
      apply Forall_forall; intros c (l & -> & _)%list_elem_of_fmap; done. }
  destruct (TaskData.reader taskData) as [rd|] eqn:Hrd;
    [destruct (negb (isAbortRequested_below _ _));
     [cbn [TaskData.seqTransferredEntity TaskData.set_seqTransferredEntity];
      destruct (bool_decide (_ = []))|]|];
    cbn [fst snd].
  all: match goal with
       | |- context [fnAddModelTreeEntities ?td (fnPostProcess args ?td ?e0)] =>
           destruct (Hrest td e0) as (cs & Heq & Hcs); rewrite Heq
       end.
  - exists [Call_Reader_transfer rd], (emitError (messenger args)
              (importErrorText (TaskData.filepath taskData) "File transfer problem") ++ cs).
    cbn. rewrite <- !app_assoc. split_and!; [done|right; by exists rd| |done|done].
    apply Forall_cons_2; [done|done].
  - exists [Call_Reader_transfer rd], cs.
    cbn. rewrite <- !app_assoc. split_and!; [done|right; by exists rd|done|done|done].
  - exists [], cs. split_and!; [done|by left|done|done|done].
  - exists [], cs. split_and!; [done|by left|done|done|done].
Qed.

Lemma transfer_follows_read_app (cs cs' : list Call) :
  transfer_follows_read cs ->
  Forall (fun c => forall r, c <> Call_Reader_transfer r) cs' ->
  transfer_follows_read (cs ++ cs').
Proof.
  intros Hcs Hcs' i r Hi. apply lookup_app_Some in Hi as [Hi|[Hge Hi]].
  - destruct (Hcs i r Hi) as (j & fp & Hj & Hread & Hrf).
    exists j, fp. split_and!; [done| |done]. by apply lookup_app_l_Some.
  - apply list_elem_of_lookup_2 in Hi. rewrite Forall_forall in Hcs'.
    by destruct (Hcs' _ Hi r).
Qed.

Lemma transfer_follows_read_snoc (cs : list Call) (r : Reader) (fp : string) :
  transfer_follows_read cs ->
  Call_Reader_readFile r fp ∈ cs ->
  Reader_readFile r fp = true ->
  transfer_follows_read (cs ++ [Call_Reader_transfer r]).
Proof.
  intros Hcs Hin Hrf i r' Hi. apply lookup_app_Some in Hi as [Hi|[Hge Hi]].
  - destruct (Hcs i r' Hi) as (j & fp' & Hj & Hread & Hrf').
    exists j, fp'. split_and!; [done| |done]. by apply lookup_app_l_Some.
  - apply list_lookup_singleton_Some in Hi as [Hi [= <-]].
    apply list_elem_of_lookup in Hin as [j Hj].
    exists j, fp. split_and!; [|by apply lookup_app_l_Some|done].
    apply lookup_lt_Some in Hj. lia.
Qed.

Lemma touches_not_transfer (cs : list Call) :
  Forall (fun c => ~ touches_document c) cs ->
  Forall (fun c => forall r, c <> Call_Reader_transfer r) cs.
Proof.
  intros Hcs. eapply Forall_impl; [exact Hcs|]. intros c Hc r ->. by apply Hc.
Qed.

Local Abbreviation recorded cs vec :=
  (forall i taskData, vec !! i = Some taskData -> read_recorded cs taskData).

Lemma read_recorded_app (cs cs' : list Call) (taskData : TaskData.t) :
  read_recorded cs taskData -> read_recorded (cs ++ cs') taskData.
Proof.
  intros Hrec Hrs rd Hrd. destruct (Hrec Hrs rd Hrd) as (fp & Hin & Hrf).
  exists fp. split; [|done]. apply elem_of_app. by left.
Qed.

Lemma runReadTask_order (i : nat) (st st' : DrainState) :
  transfer_follows_read (calls (effects st)) ->
  recorded (calls (effects st)) (vecTaskData st) ->
  runReadTask formatFileSuffixes fs sys args childProgress i st = Ok st' ->
  transfer_follows_read (calls (effects st')) /\
  recorded (calls (effects st')) (vecTaskData st').
Proof.
  intros Htfr Hrec. unfold runReadTask.
  destruct (vecTaskData st !! i) as [td|] eqn:Hi; [|by intros [= <-]].
  destruct (bool_decide (i ∈ doneTasks st)); [by intros [= <-]|].
  destruct (fnReadFile _ _ _ _ _ _) as [[[r td2] e2]|f] eqn:Hread; cbn [bind]; [|done].
  intros [= <-]. cbn [effects vecTaskData].
  apply fnReadFile_calls in Hread as (_ & _ & cs & -> & Hcs & Hr). split.
  - apply transfer_follows_read_app; [done|by apply touches_not_transfer].
  - intros j td' [(<- & <- & _)|[Hne Hj]]%list_lookup_insert_Some.
    + intros Hrs rd Hrd. cbn in Hrs, Hrd. destruct (Hr Hrs) as (rd' & Hrd' & Hin & Hrf).
      simplify_eq. eexists. split; [|done]. apply elem_of_app. by right.
    + by apply read_recorded_app, (Hrec j).
Qed.

Lemma drainBody_order (clock : nat) (st : DrainState) :
  transfer_follows_read (calls (effects st)) ->
  recorded (calls (effects st)) (vecTaskData st) ->
  transfer_follows_read (calls (effects (drainBody args clock st))) /\
  recorded (calls (effects (drainBody args clock st)))
           (vecTaskData (drainBody args clock st)).
Proof.
  intros Htfr Hrec. unfold drainBody.
  destruct (list_find _ _) as [[it td]|] eqn:Hfind; [|done].
  apply list_find_Some in Hfind as (Hit & _ & _).
  destruct (TaskData.readSuccess td) eqn:Hrs.
  - destruct (transferStages_calls clock td (effects st))
      as (cs1 & cs2 & Hcalls & Hcs1 & Hcs2 & Hrd & Hrs').
    destruct (transferStages args clock td (effects st)) as [td' e'].
    cbn [fst snd] in *. cbn [effects vecTaskData]. rewrite Hcalls.
    assert (transfer_follows_read (calls (effects st) ++ cs1)) as Htfr1.
    { destruct Hcs1 as [->|(rd & Hreader & ->)]; [by rewrite app_nil_r|].
      destruct (Hrec it td Hit Hrs rd Hreader) as (fp & Hin & Hrf).
      by eapply transfer_follows_read_snoc. }
    rewrite app_assoc. split.
    + by apply transfer_follows_read_app.
    + intros j td'' [(<- & <- & _)|[Hne Hj]]%list_lookup_insert_Some.
      * intros _ rd Hreader. rewrite Hrd in Hreader.
        destruct (Hrec it td Hit Hrs rd Hreader) as (fp & Hin & Hrf).
        exists fp. split; [|done]. rewrite <- app_assoc. apply elem_of_app. by left.
      * rewrite <- app_assoc. by apply read_recorded_app, (Hrec j).
  - cbn [effects vecTaskData]. rewrite list_insert_id by done. done.
Qed.

Lemma drain_order (sched : list SchedEvent) :
  forall (clock : nat) (st : DrainState) (e : Effects),
    transfer_follows_read (calls (effects st)) ->
    recorded (calls (effects st)) (vecTaskData st) ->
    drain formatFileSuffixes fs sys args childProgress sched clock st = Some (Ok e) ->
    transfer_follows_read (calls e).
Proof.
  induction sched as [|ev sched IH]; intros clock st e Htfr Hrec; cbn [drain]; [done|].
  destruct ev as [i|].
  - destruct (runReadTask _ _ _ _ _ i st) as [st'|f] eqn:Hrun; [|done].
    destruct (runReadTask_order i st st' Htfr Hrec Hrun). by apply IH.
  - destruct (_ && _).
    + destruct (drainBody_order clock st Htfr Hrec). by apply IH.
    + by intros [= <-].
Qed.

Lemma importSingleFile_order (fp : string) (e : Effects) :
  importSingleFile formatFileSuffixes fs sys args fp {| ok := true; calls := [] |} = Ok e ->
  transfer_follows_read (calls e).
Proof.
  unfold importSingleFile.
  destruct (fnReadFile _ _ _ _ _ _) as [[[r td] e1]|f] eqn:Hread; cbn [bind]; [|done].
  apply fnReadFile_calls in Hread as (_ & _ & cs & Hcalls & Hcs & Hr).
  cbn [ok calls] in *. cbn [app] in Hcalls.
  assert (transfer_follows_read cs) as Htfr.
  { apply (transfer_follows_read_app [] cs); [|by apply touches_not_transfer].
    intros i r' Hi. done. }
  destruct r; intros [= <-]; [|cbn; by rewrite Hcalls].
  destruct (Hr eq_refl) as (rd & Hrd & Hin & Hrf). cbn in Hin.
  destruct (transferStages_calls 0 td {| ok := true; calls := calls e1 |})
    as (cs1 & cs2 & -> & Hcs1 & Hcs2 & _ & _).
  cbn [calls]. rewrite Hcalls, app_assoc.
  apply transfer_follows_read_app; [|done].
  destruct Hcs1 as [->|(rd' & Hrd' & ->)]; [by rewrite app_nil_r|].
  simplify_eq. by eapply transfer_follows_read_snoc.
Qed.

End ImportCalls.



(** ** The boolean that [importInDocument] returns *)

Section ImportResult.

Variable formatFileSuffixes : Format -> list string.
Variable fs : string -> option (list ascii).
Variable sys : System.
Variable args : Args_ImportInDocument.
Variable childProgress : nat -> TaskProgress.

Local Abbreviation succeeds := (file_ok formatFileSuffixes fs sys).

Lemma importSingleFile_result (fp : string) (e0 e : Effects) :
  TaskProgress_isAbortRequested (rootProgress args) 0 = false ->
  importSingleFile formatFileSuffixes fs sys args fp e0 = Ok e ->
  ok e = succeeds fp.
Proof.
  intros Hroot. unfold importSingleFile.
  destruct (fnReadFile _ _ _ _ _ _) as [[[r td] e1]|f] eqn:Hread; cbn [bind]; [|done].
  apply fnReadFile_spec in Hread as (Hfp & _ & _ & Hpr & Hr & Hrd & _ & _).
  cbn in Hfp, Hpr, Hr, Hrd. cbn [ok calls]. destruct r; intros [= <-].
  - specialize (Hrd eq_refl). symmetry in Hr. unfold file_reads in Hr.
    destruct (reader_for formatFileSuffixes fs sys fp) as [rd|] eqn:Hof; [|done].
    destruct (transferStages_spec args 0 td {| ok := true; calls := calls e1 |} rd Hrd)
      as (td' & e' & -> & _ & _ & _ & _ & _ & _ & _ & Hok & _).
    { by rewrite Hpr. }
    cbn [snd]. rewrite Hok. cbn. unfold file_ok. by rewrite Hof, Hfp, Hr.
  - cbn. symmetry. destruct (succeeds fp) eqn:Hs; [|done].
    apply file_ok_reads in Hs. congruence.
Qed.

End ImportResult.

(** X2: When nobody requests an abort, the value that [importInDocument]
    returns is the conjunction of the successes of the files, whatever the
    order in which the reads end and the loop polls them: a file succeeds
    when its format is known, a reader is created for it, [readFile] returns
    [true] and [transfer] returns entities. *)
Theorem importInDocument_returns_conjunction
    (formatFileSuffixes : Format -> list string) (fs : string -> option (list ascii))
    (sys : System) (args : Args_ImportInDocument) (childProgress : nat -> TaskProgress)
    (sched : list SchedEvent) (b : bool) (cs : list Call) :
  (forall clock, TaskProgress_isAbortRequested (rootProgress args) clock = false) ->
  (forall i clock, TaskProgress_isAbortRequested (childProgress i) clock = false) ->
  importInDocument formatFileSuffixes fs sys args childProgress sched = Some (Ok (b, cs)) ->
  b = forallb (file_ok formatFileSuffixes fs sys) (Import_filepaths args).
Proof.
  intros Hroot Hchild. unfold importInDocument.
  pose proof (drain_inv_init formatFileSuffixes fs sys args childProgress) as Hinit.
  pose proof (drain_returns_conjunction formatFileSuffixes fs sys args childProgress
                Hchild Hroot sched 0) as Hdrain.
  destruct (Import_filepaths args) as [|fp [|fp2 l]] eqn:Hfiles.
  - destruct (drain _ _ _ _ _ _ _ _) as [[e|f]|] eqn:Hrun; [|done|done].
    intros [= <- <-]. by eapply Hdrain.
  - destruct (importSingleFile _ _ _ _ _ _) as [e|f] eqn:Hrun; [|done].
    intros [= <- <-]. cbn [forallb]. rewrite andb_true_r.
    by eapply importSingleFile_result.
  - destruct (drain _ _ _ _ _ _ _ _) as [[e|f]|] eqn:Hrun; [|done|done].
    intros [= <- <-]. by eapply Hdrain.
Qed.

Lemma importInDocument_returns_conjunction_witness :
  importInDocument ImportExamples.suffixes ImportExamples.files ImportExamples.system
    (ImportExamples.args ["good.step"; "bad.xyz"; "good2.step"])
    ImportExamples.childProgress ImportExamples.readsFirst
  = Some (Ok (false,
       [ Call_Reader_setMessenger ImportExamples.stepReader (Some (Messenger_at 9));
         Call_Reader_readFile ImportExamples.stepReader "good.step";
         Messenger_emitMessage (Messenger_at 9) Error
           (importErrorText "bad.xyz" "Unknown format");
         Call_Reader_setMessenger ImportExamples.stepReader (Some (Messenger_at 9));
         Call_Reader_readFile ImportExamples.stepReader "good2.step";
         Call_Reader_transfer ImportExamples.stepReader;
         Call_Document_addEntityTreeNode 1;
         Call_Document_addEntityTreeNode 2 ])) /\
  false = forallb (file_ok ImportExamples.suffixes ImportExamples.files ImportExamples.system)
            ["good.step"; "bad.xyz"; "good2.step"].
Proof.
  assert (importInDocument ImportExamples.suffixes ImportExamples.files ImportExamples.system
            (ImportExamples.args ["good.step"; "bad.xyz"; "good2.step"])
            ImportExamples.childProgress ImportExamples.readsFirst
          = Some (Ok (false,
               [ Call_Reader_setMessenger ImportExamples.stepReader (Some (Messenger_at 9));
                 Call_Reader_readFile ImportExamples.stepReader "good.step";
                 Messenger_emitMessage (Messenger_at 9) Error
                   (importErrorText "bad.xyz" "Unknown format");
                 Call_Reader_setMessenger ImportExamples.stepReader (Some (Messenger_at 9));
                 Call_Reader_readFile ImportExamples.stepReader "good2.step";
                 Call_Reader_transfer ImportExamples.stepReader;
                 Call_Document_addEntityTreeNode 1;
                 Call_Document_addEntityTreeNode 2 ]))) as Hrun
    by (vm_compute; reflexivity).
  split; [exact Hrun|].
  eapply (importInDocument_returns_conjunction
            ImportExamples.suffixes ImportExamples.files ImportExamples.system
            (ImportExamples.args ["good.step"; "bad.xyz"; "good2.step"])
            ImportExamples.childProgress ImportExamples.readsFirst false);
    [intros; reflexivity|intros; reflexivity|exact Hrun].
Defined.

(** X3: When nobody requests an abort and the probes return on the files, a run
    in which every read comes to its end, followed by one round of the loop
    more than there are files, makes [importInDocument] return, and what it
    returns is the conjunction of the successes of the files.  For an empty
    list this value is [true]. *)
Theorem importInDocument_fair_run_returns
    (formatFileSuffixes : Format -> list string) (fs : string -> option (list ascii))
    (sys : System) (args : Args_ImportInDocument) (childProgress : nat -> TaskProgress)
    (sched : list SchedEvent) :
  (forall clock, TaskProgress_isAbortRequested (rootProgress args) clock = false) ->
  (forall i clock, TaskProgress_isAbortRequested (childProgress i) clock = false) ->
  (forall fp, fp ∈ Import_filepaths args ->
              exists format, probeFormat formatFileSuffixes fs sys fp = Ok format) ->
  (forall i, i < length (Import_filepaths args) -> ReadDone i ∈ sched) ->
  exists cs,
    importInDocument formatFileSuffixes fs sys args childProgress
      (sched ++ replicate (S (length (Import_filepaths args))) DrainIteration)
    = Some (Ok (forallb (file_ok formatFileSuffixes fs sys) (Import_filepaths args), cs)).
Proof.
  intros Hroot Hchild Hprobes Hfair. unfold importInDocument.
  pose proof (drain_inv_init formatFileSuffixes fs sys args childProgress) as Hinit.
  pose proof (drain_fair formatFileSuffixes fs sys args childProgress
                Hchild Hroot Hprobes sched 0 _ Hinit) as Hdrain.
  pose proof (drain_returns_conjunction formatFileSuffixes fs sys args childProgress
                Hchild Hroot) as Hconj.
  destruct (Import_filepaths args) as [|fp [|fp2 l]] eqn:Hfiles.
  - destruct Hdrain as [e He]; [by right; apply Hfair|]. rewrite He.
    exists (calls e). do 3 f_equal. by eapply Hconj.
  - destruct (fnReadFile_defined formatFileSuffixes fs sys args
                (TaskData.set_progress (TaskData.set_filepath TaskData.init fp)
                   (Some (rootProgress args)))
                {| ok := true; calls := [] |}) as (r & td & e & Hread).
    { cbn. apply Hprobes. apply list_elem_of_here. }
    destruct (importSingleFile formatFileSuffixes fs sys args fp
                {| ok := true; calls := [] |}) as [e'|f] eqn:Hrun.
    + exists (calls e'). do 3 f_equal. cbn [forallb]. rewrite andb_true_r.
      by eapply importSingleFile_result.
    + unfold importSingleFile in Hrun. rewrite Hread in Hrun. cbn [bind] in Hrun.
      by destruct (ok _).
  - destruct Hdrain as [e He]; [by right; apply Hfair|]. rewrite He.
    exists (calls e). do 3 f_equal. by eapply Hconj.
Qed.

Lemma importInDocument_fair_run_returns_witness :
  exists cs,
    importInDocument ImportExamples.suffixes ImportExamples.files ImportExamples.system
      (ImportExamples.args ["good.step"; "good2.step"]) ImportExamples.childProgress
      ([ReadDone 1; DrainIteration; ReadDone 0] ++ replicate 3 DrainIteration)
    = Some (Ok (forallb (file_ok ImportExamples.suffixes ImportExamples.files
                           ImportExamples.system) ["good.step"; "good2.step"], cs)).
Proof.
  apply (importInDocument_fair_run_returns
           ImportExamples.suffixes ImportExamples.files ImportExamples.system
           (ImportExamples.args ["good.step"; "good2.step"]) ImportExamples.childProgress
           [ReadDone 1; DrainIteration; ReadDone 0]).
  - intros clock. reflexivity.
  - intros i clock. reflexivity.
  - intros fp Hfp. exists Format_STEP.
    repeat (apply elem_of_cons in Hfp as [->|Hfp]; [vm_compute; reflexivity|]).
    by apply elem_of_nil in Hfp.
  - intros i Hi. destruct i as [|[|i]]; cbn in Hi; [| |lia].
    + do 2 apply list_elem_of_further. apply list_elem_of_here.
    + apply list_elem_of_here.
Defined.

(** X4: Every run of [importInDocument] that returns has handed each reader, and
    used for each message, the messenger of the caller or, when the caller
    gave none, the null messenger object: never the null pointer and never
    another messenger. *)
Theorem importInDocument_uses_messenger
    (formatFileSuffixes : Format -> list string) (fs : string -> option (list ascii))
    (sys : System) (args : Args_ImportInDocument) (childProgress : nat -> TaskProgress)
    (sched : list SchedEvent) (b : bool) (cs : list Call) :
  importInDocument formatFileSuffixes fs sys args childProgress sched = Some (Ok (b, cs)) ->
  Forall (uses_messenger (default nullMessenger (Import_messenger args))) cs.
Proof.
  replace (default nullMessenger (Import_messenger args)) with (messenger args)
    by (unfold messenger; by destruct (Import_messenger args)).
  unfold importInDocument.
  destruct (Import_filepaths args) as [|fp [|fp2 l]].
  - destruct (drain _ _ _ _ _ _ _ _) as [[e|f]|] eqn:Hrun; [|done|done].
    intros [= <- <-]. eapply drain_messenger; [|exact Hrun]. done.
  - destruct (importSingleFile _ _ _ _ _ _) as [e|f] eqn:Hrun; [|done].
    intros [= <- <-]. eapply importSingleFile_messenger; [|exact Hrun]. done.
  - destruct (drain _ _ _ _ _ _ _ _) as [[e|f]|] eqn:Hrun; [|done|done].
    intros [= <- <-]. eapply drain_messenger; [|exact Hrun]. done.
Qed.

Lemma importInDocument_uses_messenger_witness :
  exists b cs,
    importInDocument ImportExamples.suffixes ImportExamples.files ImportExamples.system
      (ImportExamples.args ["good.step"; "bad.xyz"; "good2.step"])
      ImportExamples.childProgress ImportExamples.readsFirst = Some (Ok (b, cs)) /\
    Forall (uses_messenger (Messenger_at 9)) cs.
Proof.
  eexists _, _. split; [vm_compute; reflexivity|].
  apply (importInDocument_uses_messenger
           ImportExamples.suffixes ImportExamples.files ImportExamples.system
           (ImportExamples.args ["good.step"; "bad.xyz"; "good2.step"])
           ImportExamples.childProgress ImportExamples.readsFirst false).
  vm_compute. reflexivity.
Defined.

(** X5: With an empty list of paths [importInDocument] takes the many-files
    branch with no task: the first evaluation of the loop condition ends it,
    and the operation returns [true] without having called anything, also
    when an abort is requested. *)
Theorem importInDocument_no_files
    (formatFileSuffixes : Format -> list string) (fs : string -> option (list ascii))
    (sys : System) (args : Args_ImportInDocument) (childProgress : nat -> TaskProgress)
    (sched : list SchedEvent) :
  Import_filepaths args = [] ->
  DrainIteration ∈ sched ->
  importInDocument formatFileSuffixes fs sys args childProgress sched
  = Some (Ok (true, [])).
Proof.
  intros Hfiles Hin. unfold importInDocument. rewrite Hfiles. cbn [initTaskData imap length].
  generalize 0 at 1. induction sched as [|ev sched IH]; intros clock.
  - by apply elem_of_nil in Hin.
  - cbn [drain]. destruct ev as [i|].
    + unfold runReadTask. cbn. apply elem_of_cons in Hin as [?|Hin]; [done|].
      by apply IH.
    + done.
Qed.

Lemma importInDocument_no_files_witness :
  importInDocument ImportExamples.suffixes ImportExamples.files ImportExamples.system
    (ImportExamples.args []) ImportExamples.childProgress [ReadDone 0; DrainIteration]
  = Some (Ok (true, [])).
Proof.
  apply importInDocument_no_files; [reflexivity|].
  apply list_elem_of_further, list_elem_of_here.
Defined.

Ltac task_simpl :=
  cbn [TaskData.reader TaskData.filepath TaskData.fileFormat TaskData.progress
       TaskData.taskId TaskData.seqTransferredEntity TaskData.readSuccess
       TaskData.transferred TaskData.set_reader TaskData.set_filepath
       TaskData.set_fileFormat TaskData.set_progress TaskData.set_taskId
       TaskData.set_seqTransferredEntity TaskData.set_readSuccess
       TaskData.set_transferred TaskData.init].

(** X6: When the root progress has its abort requested throughout,
    [importInDocument] transfers nothing: among its calls there is no
    [Reader::transfer], no post-processing and no [addEntityTreeNode], for
    one file as for many. *)
Theorem importInDocument_abort_touches_nothing
    (formatFileSuffixes : Format -> list string) (fs : string -> option (list ascii))
    (sys : System) (args : Args_ImportInDocument) (childProgress : nat -> TaskProgress)
    (sched : list SchedEvent) (b : bool) (cs : list Call) :
  (forall clock, TaskProgress_isAbortRequested (rootProgress args) clock = true) ->
  importInDocument formatFileSuffixes fs sys args childProgress sched = Some (Ok (b, cs)) ->
  Forall (fun c => ~ touches_document c) cs.
Proof.
  intros Habort. unfold importInDocument.
  assert (forall sched clock st e,
             Forall (fun c => ~ touches_document c) (calls (effects st)) ->
             drain formatFileSuffixes fs sys args childProgress sched clock st
             = Some (Ok e) ->
             Forall (fun c => ~ touches_document c) (calls e)) as Hdrain.
  { clear sched. induction sched as [|ev sched IH]; intros clock st e Hst; cbn [drain]; [done|].
    destruct ev as [i|].
    - unfold runReadTask.
      destruct (vecTaskData st !! i) as [td|]; [|by apply IH].
      destruct (bool_decide (i ∈ doneTasks st)); [by apply IH|].
      destruct (fnReadFile _ _ _ _ _ _) as [[[r td2] e2]|f] eqn:Hread; cbn [bind]; [|done].
      apply IH. cbn. apply fnReadFile_calls in Hread as (_ & _ & cs' & -> & Hcs' & _).
      by apply Forall_app.
    - rewrite Habort. cbn [negb]. rewrite andb_false_r. by intros [= <-]. }
  destruct (Import_filepaths args) as [|fp [|fp2 l]].
  - destruct (drain _ _ _ _ _ _ _ _) as [[e|f]|] eqn:Hrun; [|done|done].
    intros [= <- <-]. eapply Hdrain; [|exact Hrun]. done.
  - unfold importSingleFile.
    destruct (fnReadFile _ _ _ _ _ _) as [[[r td] e1]|f] eqn:Hread; cbn [bind]; [|done].
    pose proof (fnReadFile_spec _ _ _ _ _ _ _ _ _ Hread) as (_ & _ & _ & Hpr & _).
    apply fnReadFile_calls in Hread as (Hseq & _ & cs' & Hcalls & Hcs' & _).
    cbn in Hpr, Hseq, Hcalls. cbn [ok calls].
    destruct r; intros [= <- <-]; [|cbn; by rewrite Hcalls].
    unfold transferStages, fnTransfer, fnPostProcess, fnAddModelTreeEntities.
    rewrite Hpr. cbn [isAbortRequested_below]. rewrite Habort. cbn [negb].
    destruct (TaskData.reader td); cbn; rewrite Hseq;
      destruct (negb _); cbn; rewrite ?app_nil_r, Hcalls; done.
  - destruct (drain _ _ _ _ _ _ _ _) as [[e|f]|] eqn:Hrun; [|done|done].
    intros [= <- <-]. eapply Hdrain; [|exact Hrun]. done.
Qed.

Lemma importInDocument_abort_touches_nothing_witness :
  exists b cs,
    importInDocument ImportExamples.suffixes ImportExamples.files ImportExamples.system
      (ImportExamples.abortedArgs ["good.step"; "good2.step"])
      ImportExamples.childProgress [ReadDone 0; DrainIteration] = Some (Ok (b, cs)) /\
    Forall (fun c => ~ touches_document c) cs.
Proof.
  eexists _, _. split; [vm_compute; reflexivity|].
  apply (importInDocument_abort_touches_nothing
           ImportExamples.suffixes ImportExamples.files ImportExamples.system
           (ImportExamples.abortedArgs ["good.step"; "good2.step"])
           ImportExamples.childProgress [ReadDone 0; DrainIteration] true).
  - intros clock. reflexivity.
  - vm_compute. reflexivity.
Defined.

(** X7: The stages of a single file that reads well, in their order: the
    messenger and the parameters go to the reader, [readFile] and [transfer]
    are called, an empty transfer is reported, the entities are
    post-processed when both callbacks are there and [requiredIf] accepts the
    format, and each entity is attached to the tree.  The operation returns
    whether [transfer] gave entities. *)
Theorem importInDocument_single_file_stages
    (formatFileSuffixes : Format -> list string) (fs : string -> option (list ascii))
    (sys : System) (args : Args_ImportInDocument) (childProgress : nat -> TaskProgress)
    (sched : list SchedEvent) (fp : string) (format : Format) (rd : Reader) :
  Import_filepaths args = [fp] ->
  probeFormat formatFileSuffixes fs sys fp = Ok format ->
  format <> Format_Unknown ->
  createReader sys format = Some rd ->
  Reader_readFile rd fp = true ->
  TaskProgress_isAbortRequested (rootProgress args) 0 = false ->
  let entities := Reader_transfer rd fp in
  let m := default nullMessenger (Import_messenger args) in
  importInDocument formatFileSuffixes fs sys args childProgress sched
  = Some (Ok
      (negb (bool_decide (entities = [])),
       [Call_Reader_setMessenger rd (Some m)]
       ++ match Import_parametersProvider args with
          | Some findReaderParameters =>
              [Call_Reader_applyProperties rd (findReaderParameters format)]
          | None => []
          end
       ++ [Call_Reader_readFile rd fp; Call_Reader_transfer rd]
       ++ (if bool_decide (entities = [])
           then [Messenger_emitMessage m Error (importErrorText fp "File transfer problem")]
           else [])
       ++ (if fnEntityPostProcessRequired args format
           then map Call_entityPostProcess entities
           else [])
       ++ map Call_Document_addEntityTreeNode entities)).
Proof.
  intros Hfiles Hprobe Hknown Hreader Hread Hroot entities m.
  unfold importInDocument, importSingleFile, fnReadFile. rewrite Hfiles.
  task_simpl. rewrite Hprobe. cbn [bind].
  unfold Format_eqb at 1. rewrite bool_decide_eq_false_2 by done.
  task_simpl. rewrite Hreader. task_simpl. rewrite Hread. cbn [negb bind ok calls].
  unfold transferStages, fnTransfer, fnPostProcess, fnAddModelTreeEntities.
  task_simpl. cbn [isAbortRequested_below]. rewrite Hroot. cbn [negb]. fold entities.
  replace (messenger args) with m by (unfold m, messenger; by destruct (Import_messenger args)).
  destruct (bool_decide (entities = [])) eqn:Hempty; task_simpl;
    destruct (fnEntityPostProcessRequired args format);
    destruct (Import_parametersProvider args);
    cbn; rewrite <- ?app_assoc; cbn; rewrite ?app_nil_r; reflexivity.
Qed.

Lemma importInDocument_single_file_stages_witness :
  importInDocument ImportExamples.suffixes ImportExamples.files ImportExamples.system
    (ImportExamples.postProcessArgs ["good.step"]) ImportExamples.childProgress []
  = Some (Ok (true,
       [ Call_Reader_setMessenger ImportExamples.stepReader (Some NullMessenger_instance);
         Call_Reader_applyProperties ImportExamples.stepReader 7;
         Call_Reader_readFile ImportExamples.stepReader "good.step";
         Call_Reader_transfer ImportExamples.stepReader;
         Call_entityPostProcess 1; Call_entityPostProcess 2;
         Call_Document_addEntityTreeNode 1; Call_Document_addEntityTreeNode 2 ])).
Proof.
  apply (importInDocument_single_file_stages
           ImportExamples.suffixes ImportExamples.files ImportExamples.system
           (ImportExamples.postProcessArgs ["good.step"]) ImportExamples.childProgress []
           "good.step" Format_STEP ImportExamples.stepReader).
  - reflexivity.
  - vm_compute. reflexivity.
  - discriminate.
  - reflexivity.
  - reflexivity.
  - reflexivity.
Defined.

(** X8: The failures of a single file, stage by stage: an unknown format, no
    reader for the format, a read that fails.  Each gives [false] and one
    error message with its reason; nothing is transferred, and a reader is
    called only when there is one.  A fault of a probe is a fault of the
    operation. *)
Theorem importInDocument_single_file_failures
    (formatFileSuffixes : Format -> list string) (fs : string -> option (list ascii))
    (sys : System) (args : Args_ImportInDocument) (childProgress : nat -> TaskProgress)
    (sched : list SchedEvent) (fp : string) :
  Import_filepaths args = [fp] ->
  let m := default nullMessenger (Import_messenger args) in
  let error reason := Messenger_emitMessage m Error (importErrorText fp reason) in
  let run := importInDocument formatFileSuffixes fs sys args childProgress sched in
  (probeFormat formatFileSuffixes fs sys fp = Ok Format_Unknown ->
   run = Some (Ok (false, [error "Unknown format"]))) /\
  (forall format,
      probeFormat formatFileSuffixes fs sys fp = Ok format ->
      format <> Format_Unknown ->
      createReader sys format = None ->
      run = Some (Ok (false, [error "No supporting reader"]))) /\
  (forall format rd,
      probeFormat formatFileSuffixes fs sys fp = Ok format ->
      format <> Format_Unknown ->
      createReader sys format = Some rd ->
      Reader_readFile rd fp = false ->
      run = Some (Ok (false,
              [Call_Reader_setMessenger rd (Some m)]
              ++ match Import_parametersProvider args with
                 | Some findReaderParameters =>
                     [Call_Reader_applyProperties rd (findReaderParameters format)]
                 | None => []
                 end
              ++ [Call_Reader_readFile rd fp; error "File read problem"]))) /\
  (forall f,
      probeFormat formatFileSuffixes fs sys fp = Undefined f ->
      run = Some (Undefined f)).
Proof.
  intros Hfiles m error run. unfold run, importInDocument, importSingleFile, fnReadFile.
  rewrite Hfiles. task_simpl.
  replace (messenger args) with m by (unfold m, messenger; by destruct (Import_messenger args)).
  split_and!.
  - intros ->. reflexivity.
  - intros format -> Hknown Hreader. cbn [bind].
    unfold Format_eqb at 1. rewrite bool_decide_eq_false_2 by done.
    task_simpl. rewrite Hreader. reflexivity.
  - intros format rd -> Hknown Hreader Hread. cbn [bind].
    unfold Format_eqb at 1. rewrite bool_decide_eq_false_2 by done.
    task_simpl. rewrite Hreader. task_simpl. rewrite Hread. cbn [negb].
    unfold fnReadFileError, fnAddError.
    replace (messenger args) with m
      by (unfold m, messenger; by destruct (Import_messenger args)).
    destruct (Import_parametersProvider args); cbn; reflexivity.
  - intros f ->. reflexivity.
Qed.

Lemma importInDocument_single_file_failures_witness :
  importInDocument ImportExamples.suffixes ImportExamples.files ImportExamples.system
    (ImportExamples.args ["bad.xyz"]) ImportExamples.childProgress []
  = Some (Ok (false,
       [Messenger_emitMessage (Messenger_at 9) Error
          (importErrorText "bad.xyz" "Unknown format")])).
Proof.
  destruct (importInDocument_single_file_failures
              ImportExamples.suffixes ImportExamples.files ImportExamples.system
              (ImportExamples.args ["bad.xyz"]) ImportExamples.childProgress []
              "bad.xyz" eq_refl) as (Hunknown & _).
  apply Hunknown. vm_compute. reflexivity.
Defined.

(** * Further properties of the registry *)

(** X9: [createReader] and [createWriter] ask the first factory that advertises
    the format, and only that one: what it creates is the result, also when
    it creates nothing and a factory registered later advertises the format
    too; without such a factory the result is null. *)
Theorem create_asks_first_factory (sys : System) (format : Format) :
  (forall before f after,
      m_vecFactoryReader sys = before ++ f :: after ->
      format ∈ FactoryReader_formats f ->
      (forall g, g ∈ before -> format ∉ FactoryReader_formats g) ->
      createReader sys format = FactoryReader_create f format) /\
  ((forall g, g ∈ m_vecFactoryReader sys -> format ∉ FactoryReader_formats g) ->
   createReader sys format = None) /\
  (forall before f after,
      m_vecFactoryWriter sys = before ++ f :: after ->
      format ∈ FactoryWriter_formats f ->
      (forall g, g ∈ before -> format ∉ FactoryWriter_formats g) ->
      createWriter sys format = FactoryWriter_create f format) /\
  ((forall g, g ∈ m_vecFactoryWriter sys -> format ∉ FactoryWriter_formats g) ->
   createWriter sys format = None).
Proof.
  split_and!.
  - intros before f after Hvec Hf Hbefore. unfold createReader, findFactoryReader.
    rewrite Hvec, findFactoryReader_in_app by done. cbn [findFactoryReader_in].
    by rewrite (proj2 (containsFormat_true _ _) Hf).
  - intros Hnone. unfold createReader, findFactoryReader.
    pose proof (findFactoryReader_in_first (m_vecFactoryReader sys) format) as Hfirst.
    destruct (findFactoryReader_in (m_vecFactoryReader sys) format) as [f|]; [|done].
    destruct Hfirst as (before & after & Hvec & Hf & _). exfalso.
    apply (Hnone f); [|done]. rewrite Hvec. apply elem_of_app. right. apply list_elem_of_here.
  - intros before f after Hvec Hf Hbefore. unfold createWriter, findFactoryWriter.
    rewrite Hvec, findFactoryWriter_in_app by done. cbn [findFactoryWriter_in].
    by rewrite (proj2 (containsFormat_true _ _) Hf).
  - intros Hnone. unfold createWriter, findFactoryWriter.
    pose proof (findFactoryWriter_in_first (m_vecFactoryWriter sys) format) as Hfirst.
    destruct (findFactoryWriter_in (m_vecFactoryWriter sys) format) as [f|]; [|done].
    destruct Hfirst as (before & after & Hvec & Hf & _). exfalso.
    apply (Hnone f); [|done]. rewrite Hvec. apply elem_of_app. right. apply list_elem_of_here.
Qed.

Lemma create_asks_first_factory_witness :
  createReader
    (addFactoryReader (addFactoryReader System_new (Some RegistryExamples.readerA))
                      (Some RegistryExamples.readerC))
    Format_STEP
  = None.
Proof.
  destruct (create_asks_first_factory
              (addFactoryReader (addFactoryReader System_new (Some RegistryExamples.readerA))
                                (Some RegistryExamples.readerC))
              Format_STEP) as (Hfirst & _).
  apply (Hfirst [] RegistryExamples.readerA [RegistryExamples.readerC]).
  - reflexivity.
  - apply list_elem_of_here.
  - intros g Hg. by apply elem_of_nil in Hg.
Defined.

Lemma addFormats_elem (formats vecFormat : list Format) (x : Format) :
  x ∈ addFormats formats vecFormat <-> x ∈ vecFormat \/ x ∈ formats.
Proof.
  revert vecFormat. induction formats as [|format formats IH]; intros vecFormat;
    cbn [addFormats].
  - split; [by left|]. intros [?|Hnil]; [done|by apply elem_of_nil in Hnil].
  - rewrite IH, elem_of_cons.
    destruct (containsFormat vecFormat format) eqn:Hc.
    + apply containsFormat_true in Hc. split; [tauto|].
      intros [?|[->|?]]; tauto.
    + rewrite elem_of_app, list_elem_of_singleton. tauto.
Qed.

Lemma addFormats_extends (formats vecFormat : list Format) :
  exists more, addFormats formats vecFormat = vecFormat ++ more.
Proof.
  revert vecFormat. induction formats as [|format formats IH]; intros vecFormat;
    cbn [addFormats].
  - exists []. by rewrite app_nil_r.
  - destruct (containsFormat vecFormat format); [apply IH|].
    destruct (IH (vecFormat ++ [format])) as [more ->].
    exists ([format] ++ more). by rewrite app_assoc.
Qed.

Lemma register_all_app (sys : System) (rs : list Registration) (r : Registration) :
  register_all sys (rs ++ [r]) = register (register_all sys rs) r.
Proof. unfold register_all. by rewrite fold_left_app. Qed.



(** A registration extends each vector at its back. *)
Lemma register_extends (sys : System) (r : Registration) :
  m_vecFormatProbe (register sys r) = m_vecFormatProbe sys /\
  (exists more, m_vecFactoryReader (register sys r) = m_vecFactoryReader sys ++ more) /\
  (exists more, m_vecFactoryWriter (register sys r) = m_vecFactoryWriter sys ++ more) /\
  (exists more, m_vecReaderFormat (register sys r) = m_vecReaderFormat sys ++ more) /\
  (exists more, m_vecWriterFormat (register sys r) = m_vecWriterFormat sys ++ more).
Proof.
  assert (forall A (l : list A), exists more, l = l ++ more) as Hsame
    by (intros A l; exists []; by rewrite app_nil_r).
  destruct r as [[f|]|[f|]]; cbn [register]; try (split_and!; done).
  - unfold addFactoryReader. destruct (existsb _ _); [split_and!; done|]. cbn.
    split_and!; [done|by eexists|done|apply addFormats_extends|done].
  - unfold addFactoryWriter. destruct (existsb _ _); [split_and!; done|]. cbn.
    split_and!; [done|done|by eexists|done|apply addFormats_extends].
Qed.

Lemma register_all_extends (rs : list Registration) (sys : System) :
  m_vecFormatProbe (register_all sys rs) = m_vecFormatProbe sys /\
  (exists more, m_vecFactoryReader (register_all sys rs) = m_vecFactoryReader sys ++ more) /\
  (exists more, m_vecFactoryWriter (register_all sys rs) = m_vecFactoryWriter sys ++ more) /\
  (exists more, m_vecReaderFormat (register_all sys rs) = m_vecReaderFormat sys ++ more) /\
  (exists more, m_vecWriterFormat (register_all sys rs) = m_vecWriterFormat sys ++ more).
Proof.
  induction rs as [|r rs IH] using rev_ind.
  - cbn. split_and!; [done|..]; exists []; by rewrite app_nil_r.
  - rewrite register_all_app.
    destruct IH as (Hp & (m1 & H1) & (m2 & H2) & (m3 & H3) & (m4 & H4)).
    destruct (register_extends (register_all sys rs) r)
      as (Hp' & (n1 & H1') & (n2 & H2') & (n3 & H3') & (n4 & H4')).
    rewrite Hp', H1', H2', H3', H4', Hp, H1, H2, H3, H4, <- !app_assoc.
    split_and!; [done|..]; by eexists.
Qed.

Lemma findFactoryReader_in_extend (vec more : list FactoryReader) (format : Format) (f : FactoryReader) :
  findFactoryReader_in vec format = Some f ->
  findFactoryReader_in (vec ++ more) format = Some f.
Proof.
  induction vec as [|g vec IH]; cbn [app findFactoryReader_in]; [done|].
  destruct (containsFormat (FactoryReader_formats g) format); [done|apply IH].
Qed.

Lemma findFactoryWriter_in_extend (vec more : list FactoryWriter) (format : Format) (f : FactoryWriter) :
  findFactoryWriter_in vec format = Some f ->
  findFactoryWriter_in (vec ++ more) format = Some f.
Proof.
  induction vec as [|g vec IH]; cbn [app findFactoryWriter_in]; [done|].
  destruct (containsFormat (FactoryWriter_formats g) format); [done|apply IH].
Qed.



(** * Further properties of the probes *)

(** ** Scanning white space and tokens *)

Lemma find_if_not_from_split (p : ascii -> bool) (l : list ascii) (first : nat) :
  exists ws r,
    l = ws ++ r /\
    forallb p ws = true /\
    find_if_not_from p l first = first + length ws /\
    (forall c, head r = Some c -> p c = false).
Proof.
  revert first. induction l as [|c l IH]; intros first; cbn [find_if_not_from].
  - exists [], []. split_and!; [done|done|cbn; lia|done].
  - destruct (p c) eqn:Hc.
    + destruct (IH (S first)) as (ws & r & -> & Hws & Hfind & Hr).
      exists (c :: ws), r. split_and!; [done|by cbn; rewrite Hc|cbn; lia|done].
    + exists [], (c :: l). split_and!; [done|done|cbn; lia|].
      intros c' [= <-]. done.
Qed.

Lemma find_if_not_from_app (p : ascii -> bool) (ws r : list ascii) (first : nat) :
  forallb p ws = true ->
  (forall c, head r = Some c -> p c = false) ->
  find_if_not_from p (ws ++ r) first = first + length ws.
Proof.
  revert first. induction ws as [|c ws IH]; intros first Hws Hr.
  - cbn [app length]. destruct r as [|c r]; cbn [find_if_not_from]; [lia|].
    rewrite (Hr c eq_refl). lia.
  - cbn in Hws. apply andb_true_iff in Hws as [Hc Hws].
    cbn [app find_if_not_from length]. rewrite Hc, IH by done. lia.
Qed.

Lemma drop_after (s a b : list ascii) (n : nat) :
  drop n s = a ++ b -> drop (n + length a) s = b.
Proof. intros Hn. by rewrite <- drop_drop, Hn, drop_app_length. Qed.

Lemma drop_head (s l : list ascii) (n : nat) (c : ascii) :
  drop n s = c :: l -> s !! n = Some c.
Proof.
  intros Hn. rewrite <- (Nat.add_0_r n), <- lookup_drop, Hn. done.
Qed.

(** Skipping white space from an index: the bytes skipped are white space,
    the byte reached, if there is one, is not. *)
Lemma find_if_not_scan (s : list ascii) (n : nat) :
  exists ws,
    forallb isSpace ws = true /\
    find_if_not s n isSpace = n + length ws /\
    drop n s = ws ++ drop (n + length ws) s /\
    (forall c, s !! (n + length ws) = Some c -> isSpace c = false).
Proof.
  unfold find_if_not.
  destruct (find_if_not_from_split isSpace (drop n s) n) as (ws & r & Hdrop & Hws & Hfind & Hr).
  exists ws. split_and!; [done|done| |].
  - by rewrite (drop_after s ws r n Hdrop).
  - intros c Hc. apply Hr. rewrite <- (drop_after s ws r n Hdrop).
    by rewrite head_lookup, lookup_drop, Nat.add_0_r.
Qed.

Lemma find_if_not_reach (s ws r : list ascii) (n : nat) :
  drop n s = ws ++ r ->
  forallb isSpace ws = true ->
  (forall c, head r = Some c -> isSpace c = false) ->
  find_if_not s n isSpace = n + length ws.
Proof.
  intros Hdrop Hws Hr. unfold find_if_not. rewrite Hdrop.
  by apply find_if_not_from_app.
Qed.

Lemma strncmp_eq_true (s : list ascii) (pos : nat) (token : list ascii) :
  strncmp_eq s pos token = Ok true <-> exists rest, drop pos s = token ++ rest.
Proof.
  revert pos. induction token as [|t token IH]; intros pos; cbn [strncmp_eq].
  - split; [|done]. intros _. by exists (drop pos s).
  - unfold at_. destruct (s !! pos) as [c|] eqn:Hc; cbn [bind].
    + rewrite (drop_S s c pos Hc).
      destruct (Ascii.eqb_spec c t) as [->|Hne].
      * rewrite IH. split; intros [rest Hrest]; exists rest; [by rewrite Hrest|].
        by injection Hrest.
      * split; [done|]. intros [rest [= ? _]]. done.
    + split; [done|]. intros [rest Hrest].
      apply lookup_ge_None in Hc. rewrite drop_ge in Hrest by done. done.
Qed.

Lemma matchToken_true (s : list ascii) (pos : nat) (token : string) :
  matchToken s pos token = Ok true <-> exists rest, drop pos s = bytes_of token ++ rest.
Proof. apply strncmp_eq_true. Qed.

(** A token after white space at the very beginning. *)
Lemma token_after_spaces (s : list ascii) (t : ascii) (token : string) :
  isSpace t = false ->
  matchToken s (findFirstNonSpace s) (String t token) = Ok true <->
  exists ws rest,
    forallb isSpace ws = true /\ s = ws ++ bytes_of (String t token) ++ rest.
Proof.
  intros Ht. unfold findFirstNonSpace. split.
  - intros Hmatch.
    destruct (find_if_not_scan s 0) as (ws & Hws & Hfind & Hdrop & _).
    rewrite Hfind in Hmatch. apply matchToken_true in Hmatch as [rest Hrest].
    exists ws, rest. split; [done|]. rewrite drop_0 in Hdrop. by rewrite Hdrop at 1; rewrite Hrest.
  - intros (ws & rest & Hws & ->).
    rewrite (find_if_not_reach _ ws (bytes_of (String t token) ++ rest) 0);
      [|by rewrite drop_0|done|by intros c [= <-]].
    apply matchToken_true. exists rest. by rewrite Nat.add_0_l, drop_app_length.
Qed.

(** ** [probeFormat_OCCBREP] and [probeFormat_STL] *)

(** X12: [probeFormat_OCCBREP] returns [Format_OCCBREP] exactly on the prefixes
    made of white space, then [DBRep_DrawableShape], then anything: the
    pattern of its comment. *)
Theorem probeFormat_OCCBREP_accepts (input : FormatProbeInput) :
  probeFormat_OCCBREP input = Ok Format_OCCBREP <->
  exists ws rest,
    forallb isSpace ws = true /\
    contentsBegin input = ws ++ bytes_of "DBRep_DrawableShape" ++ rest.
Proof.
  rewrite <- (token_after_spaces (contentsBegin input) "D" "BRep_DrawableShape") by done.
  unfold probeFormat_OCCBREP. cbv zeta.
  destruct (matchToken _ _ _) as [[]|]; cbn [bind]; split; done.
Qed.

Lemma probeFormat_STL_binary_returns (input : FormatProbeInput) :
  exists b, probeFormat_STL_binary input = Ok b.
Proof.
  unfold probeFormat_STL_binary, binaryStlHeaderSize.
  destruct (Z.leb_spec (80 + 4) (Z.of_nat (length (contentsBegin input)))) as [Hle|Hgt];
    [|by eexists].
  destruct (at_lt (contentsBegin input) 80) as (b0 & _ & ->); [lia|].
  destruct (at_lt (contentsBegin input) (80 + 1)) as (b1 & _ & ->); [lia|].
  destruct (at_lt (contentsBegin input) (80 + 2)) as (b2 & _ & ->); [lia|].
  destruct (at_lt (contentsBegin input) (80 + 3)) as (b3 & _ & ->); [lia|].
  by eexists.
Qed.

(** X13: [probeFormat_STL] returns [Format_STL] exactly when the binary branch
    accepts or the prefix is white space followed by [solid]; the binary
    branch itself never reads outside the prefix. *)
Theorem probeFormat_STL_accepts (input : FormatProbeInput) :
  (exists b, probeFormat_STL_binary input = Ok b) /\
  (probeFormat_STL input = Ok Format_STL <->
   probeFormat_STL_binary input = Ok true \/
   exists ws rest,
     forallb isSpace ws = true /\
     contentsBegin input = ws ++ bytes_of "solid" ++ rest).
Proof.
  split; [apply probeFormat_STL_binary_returns|].
  rewrite <- (token_after_spaces (contentsBegin input) "s" "olid") by done.
  unfold probeFormat_STL, probeFormat_STL_ascii. cbv zeta.
  destruct (probeFormat_STL_binary_returns input) as [[] ->]; cbn [bind].
  - split; [by left|done].
  - destruct (matchToken _ _ _) as [[]|]; cbn [bind]; split;
      try done; try (by right); by intros [|].
Qed.

(** X14: the binary branch of [probeFormat_STL] rejects every input whose
    full size is below the 84 bytes of the header, whatever the prefix
    holds; through [probeFormat], whose prefix always has 2048 bytes, this is
    what keeps the short files out. *)
Theorem probeFormat_STL_binary_rejects_short (input : FormatProbeInput) :
  (hintFullSize input < 84)%Z ->
  probeFormat_STL_binary input = Ok false.
Proof.
  intros Hshort. destruct (probeFormat_STL_binary_returns input) as [[] Hb]; [|done].
  apply probeFormat_STL_binary_accepts in Hb
    as (_ & b0 & b1 & b2 & b3 & _ & _ & _ & _ & Heq).
  assert (0 <= (50 * facetsCount_of b0 b1 b2 b3) mod 2 ^ 32)%Z
    by (apply Z.mod_pos_bound; lia).
  lia.
Qed.

Lemma probeFormat_STL_binary_rejects_short_witness :
  probeFormat_STL_binary (make_probeInput "model.stl" (replicate 83 "000"%char)) = Ok false.
Proof.
  apply probeFormat_STL_binary_rejects_short. vm_compute. reflexivity.
Defined.

Lemma probeFormat_OCCBREP_accepts_witness :
  probeFormat_OCCBREP
    (Examples.probeInput
       (bytes_of (newline +:+ "  DBRep_DrawableShape" +:+ newline +:+ "CASCADE")) 30)
  = Ok Format_OCCBREP.
Proof.
  apply probeFormat_OCCBREP_accepts.
  exists (bytes_of (newline +:+ "  ")), (bytes_of (newline +:+ "CASCADE")).
  split; reflexivity.
Defined.

Lemma probeFormat_STL_accepts_witness :
  probeFormat_STL (Examples.probeInput (bytes_of " solid cube") 285) = Ok Format_STL.
Proof.
  apply probeFormat_STL_accepts. right.
  exists (bytes_of " "), (bytes_of " cube"). split; reflexivity.
Defined.

(** ** [probeFormat_STEP] *)

(** A prefix of the pattern is accepted. *)
Lemma probeFormat_STEP_complete (input : FormatProbeInput) (ws1 ws2 ws3 rest : list ascii) :
  forallb isSpace ws1 = true ->
  forallb isSpace ws2 = true ->
  forallb isSpace ws3 = true ->
  contentsBegin input
  = ws1 ++ bytes_of "ISO-10303-21" ++ ws2 ++ bytes_of ";" ++ ws3
    ++ bytes_of "HEADER" ++ rest ->
  probeFormat_STEP input = Ok Format_STEP.
Proof.
  intros Hws1 Hws2 Hws3 Hs.
  unfold probeFormat_STEP. cbv zeta. set (s := contentsBegin input) in *.
  unfold findFirstNonSpace.
  assert (drop 0 s = ws1 ++ bytes_of "ISO-10303-21" ++ ws2 ++ bytes_of ";" ++ ws3
                     ++ bytes_of "HEADER" ++ rest) as Hd0 by (by rewrite drop_0).
  rewrite (find_if_not_reach s ws1 _ 0 Hd0 Hws1) by (by intros c [= <-]).
  pose proof (drop_after s _ _ _ Hd0) as Hd1.
  rewrite (proj2 (matchToken_true s (0 + length ws1) "ISO-10303-21"))
    by (by eexists). cbn [bind].
  pose proof (drop_after s _ _ _ Hd1) as Hd2.
  change (length (bytes_of "ISO-10303-21")) with (String.length "ISO-10303-21") in Hd2.
  rewrite (find_if_not_reach s ws2 _ _ Hd2 Hws2) by (by intros c [= <-]).
  pose proof (drop_after s _ _ _ Hd2) as Hd3.
  set (itChar := 0 + length ws1 + String.length "ISO-10303-21" + length ws2) in *.
  pose proof (drop_head s _ _ _ Hd3) as Hsemi.
  rewrite (bool_decide_eq_true_2 (s !! itChar = Some ";"%char)) by done.
  rewrite bool_decide_eq_true_2
    by (apply lookup_lt_Some in Hsemi; lia).
  cbn [andb].
  pose proof (drop_after s (bytes_of ";") _ _ Hd3) as Hd4.
  change (length (bytes_of ";")) with 1 in Hd4.
  rewrite (find_if_not_reach s ws3 _ _ Hd4 Hws3) by (by intros c [= <-]).
  pose proof (drop_after s _ _ _ Hd4) as Hd5.
  rewrite (proj2 (matchToken_true s _ "HEADER")) by (by eexists). done.
Qed.

(** X15: [probeFormat_STEP] returns [Format_STEP] exactly on the prefixes of
    the pattern of its comment: white space, [ISO-10303-21], white space, a
    semicolon, white space, [HEADER], then anything. *)
Theorem probeFormat_STEP_accepts (input : FormatProbeInput) :
  probeFormat_STEP input = Ok Format_STEP <->
  exists ws1 ws2 ws3 rest,
    forallb isSpace ws1 = true /\
    forallb isSpace ws2 = true /\
    forallb isSpace ws3 = true /\
    contentsBegin input
    = ws1 ++ bytes_of "ISO-10303-21" ++ ws2 ++ bytes_of ";" ++ ws3
      ++ bytes_of "HEADER" ++ rest.
Proof.
  split; [|intros (ws1 & ws2 & ws3 & rest & Hws1 & Hws2 & Hws3 & Hs);
            by apply (probeFormat_STEP_complete input ws1 ws2 ws3 rest)].
  unfold probeFormat_STEP. cbv zeta. set (s := contentsBegin input).
  unfold findFirstNonSpace.
  - destruct (find_if_not_scan s 0) as (ws1 & Hws1 & -> & Hdrop1 & _).
    rewrite drop_0, Nat.add_0_l in Hdrop1.
    destruct (matchToken s (0 + length ws1) "ISO-10303-21") as [[]|] eqn:Hiso;
      cbn [bind]; [|done|done].
    apply matchToken_true in Hiso as [r1 Hiso]. rewrite Nat.add_0_l in Hiso.
    pose proof (drop_after s _ _ _ Hiso) as Hr1.
    change (length (bytes_of "ISO-10303-21")) with (String.length "ISO-10303-21") in Hr1.
    rewrite Nat.add_0_l.
    destruct (find_if_not_scan s (length ws1 + String.length "ISO-10303-21"))
      as (ws2 & Hws2 & -> & Hdrop2 & _).
    set (itChar := length ws1 + String.length "ISO-10303-21" + length ws2) in *.
    destruct (bool_decide (itChar ≠ length s)) eqn:Hend; cbn [andb]; [|done].
    destruct (bool_decide (s !! itChar = Some ";"%char)) eqn:Hsemi; [|done].
    apply bool_decide_eq_true in Hsemi.
    destruct (find_if_not_scan s (itChar + 1)) as (ws3 & Hws3 & -> & Hdrop3 & _).
    destruct (matchToken s (itChar + 1 + length ws3) "HEADER") as [[]|] eqn:Hhdr;
      cbn [bind]; [|done|done].
    intros _. apply matchToken_true in Hhdr as [rest Hhdr].
    exists ws1, ws2, ws3, rest. split_and!; [done|done|done|].
    etrans; [exact Hdrop1|]. f_equal. etrans; [exact Hiso|]. f_equal.
    rewrite <- Hr1. etrans; [exact Hdrop2|]. f_equal.
    rewrite (drop_S s ";"%char itChar Hsemi).
    cbn [bytes_of String.list_ascii_of_string app]. f_equal.
    replace (S itChar) with (itChar + 1) by lia.
    etrans; [exact Hdrop3|]. f_equal. exact Hhdr.
Qed.

Lemma probeFormat_STEP_accepts_witness :
  probeFormat_STEP (Examples.probeInput (bytes_of "   ISO-10303-21 ; HEADER;") 25)
  = Ok Format_STEP.
Proof.
  apply probeFormat_STEP_accepts.
  exists (bytes_of "   "), (bytes_of " "), (bytes_of " "), (bytes_of ";").
  split_and!; reflexivity.
Defined.

(** ** Prefixes that hold a NUL byte *)

Lemma forallb_lookup (p : ascii -> bool) (l : list ascii) (i : nat) (c : ascii) :
  forallb p l = true -> l !! i = Some c -> p c = true.
Proof.
  intros Hall Hi. rewrite forallb_forall in Hall. apply Hall.
  apply list_elem_of_In. by eapply list_elem_of_lookup_2.
Qed.

(** The scan for a byte that is not white space does not go past such a
    byte. *)
Lemma find_if_not_le (s : list ascii) (n k : nat) (c : ascii) :
  s !! k = Some c -> isSpace c = false -> n <= k ->
  n <= find_if_not s n isSpace <= k.
Proof.
  intros Hk Hc Hn.
  destruct (find_if_not_scan s n) as (ws & Hws & -> & Hdrop & _).
  split; [lia|].
  destruct (decide (n + length ws <= k)) as [|Hgt]; [done|]. exfalso.
  assert (drop n s !! (k - n) = Some c) as Hlook
    by (rewrite lookup_drop; by replace (n + (k - n)) with k by lia).
  rewrite Hdrop, lookup_app_l in Hlook by lia.
  pose proof (forallb_lookup _ _ _ _ Hws Hlook). congruence.
Qed.

(** The comparison with a token stops at a byte that the token does not
    hold. *)
Lemma strncmp_eq_stops (s : list ascii) (token : list ascii) (k : nat) (c : ascii) :
  s !! k = Some c -> c ∉ token ->
  forall pos, pos <= k ->
    exists b, strncmp_eq s pos token = Ok b /\ (b = true -> pos + length token <= k).
Proof.
  intros Hk. induction token as [|t token IH]; intros Hc pos Hpos; cbn [strncmp_eq].
  - exists true. split; [done|]. cbn. lia.
  - apply not_elem_of_cons in Hc as [Hct Hc].
    destruct (at_lt s pos) as (c' & Hc' & ->); [apply lookup_lt_Some in Hk; lia|].
    cbn [bind]. destruct (Ascii.eqb_spec c' t) as [->|Hne]; [|by exists false].
    assert (pos <> k) as Hne by (intros ->; congruence).
    destruct (IH Hc (S pos)) as (b & -> & Hb); [lia|].
    exists b. split; [done|]. intros Hb'. specialize (Hb Hb'). cbn. lia.
Qed.

Lemma bytes_of_length (token : string) :
  length (bytes_of token) = String.length token.
Proof. induction token as [|c token IH]; cbn; [done|by rewrite <- IH]. Qed.

Lemma matchToken_stops (s : list ascii) (token : string) (k pos : nat) :
  s !! k = Some NUL -> NUL ∉ bytes_of token -> pos <= k ->
  exists b, matchToken s pos token = Ok b /\ (b = true -> pos + String.length token <= k).
Proof.
  intros Hk Htok Hpos. unfold matchToken.
  destruct (strncmp_eq_stops s (bytes_of token) k NUL Hk Htok pos Hpos) as (b & -> & Hb).
  exists b. split; [done|]. intros Hb'. specialize (Hb Hb').
  by rewrite <- bytes_of_length.
Qed.

Ltac no_nul :=
  cbn; intros Hin;
  repeat (apply elem_of_cons in Hin as [Hin|Hin]; [discriminate|]);
  by apply elem_of_nil in Hin.

Lemma probeFormat_STEP_terminated (input : FormatProbeInput) (k : nat) :
  contentsBegin input !! k = Some NUL -> exists f, probeFormat_STEP input = Ok f.
Proof.
  intros Hk. unfold probeFormat_STEP. cbv zeta. set (s := contentsBegin input) in *.
  pose proof (find_if_not_le s 0 k NUL Hk eq_refl (Nat.le_0_l k)) as [_ H0].
  fold (findFirstNonSpace s) in H0.
  destruct (matchToken_stops s "ISO-10303-21" k (findFirstNonSpace s) Hk) as ([] & -> & Hiso);
    [no_nul|done| |by eexists]. cbn [bind]. specialize (Hiso eq_refl).
  pose proof (find_if_not_le s _ k NUL Hk eq_refl Hiso) as [_ H1].
  set (itChar := find_if_not s _ isSpace) in *.
  destruct (bool_decide (itChar ≠ length s)); cbn [andb]; [|by eexists].
  destruct (bool_decide (s !! itChar = Some ";"%char)) eqn:Hsemi; [|by eexists].
  apply bool_decide_eq_true in Hsemi.
  assert (itChar + 1 <= k) as H2.
  { destruct (decide (itChar = k)) as [Heq|]; [|lia]. rewrite Heq, Hk in Hsemi. done. }
  pose proof (find_if_not_le s _ k NUL Hk eq_refl H2) as [_ H3].
  destruct (matchToken_stops s "HEADER" k (find_if_not s (itChar + 1) isSpace) Hk)
    as (b & -> & _); [no_nul|exact H3|].
  cbn [bind]. destruct b; by eexists.
Qed.

Lemma probeFormat_OCCBREP_terminated (input : FormatProbeInput) (k : nat) :
  contentsBegin input !! k = Some NUL -> exists f, probeFormat_OCCBREP input = Ok f.
Proof.
  intros Hk. unfold probeFormat_OCCBREP. cbv zeta.
  pose proof (find_if_not_le _ 0 k NUL Hk eq_refl (Nat.le_0_l k)) as [_ H0].
  fold (findFirstNonSpace (contentsBegin input)) in H0.
  destruct (matchToken_stops _ "DBRep_DrawableShape" k
              (findFirstNonSpace (contentsBegin input)) Hk) as (b & -> & _);
    [no_nul|exact H0|].
  cbn [bind]. destruct b; by eexists.
Qed.

Lemma probeFormat_STL_terminated (input : FormatProbeInput) (k : nat) :
  contentsBegin input !! k = Some NUL -> exists f, probeFormat_STL input = Ok f.
Proof.
  intros Hk. unfold probeFormat_STL, probeFormat_STL_ascii. cbv zeta.
  destruct (probeFormat_STL_binary_returns input) as [[] ->]; cbn [bind]; [by eexists|].
  pose proof (find_if_not_le _ 0 k NUL Hk eq_refl (Nat.le_0_l k)) as [_ H0].
  fold (findFirstNonSpace (contentsBegin input)) in H0.
  destruct (matchToken_stops _ "solid" k (findFirstNonSpace (contentsBegin input)) Hk)
    as (b & -> & _); [no_nul|exact H0|].
  cbn [bind]. destruct b; by eexists.
Qed.

Lemma atoi_spaces_stops (s : list ascii) (k : nat) (c : ascii) :
  s !! k = Some c -> isSpace c = false ->
  forall fuel pos, pos <= k -> k - pos < fuel ->
    exists q, atoi_spaces fuel s pos = Ok q /\ pos <= q <= k.
Proof.
  intros Hk Hc. induction fuel as [|fuel IH]; intros pos Hpos Hfuel; [lia|].
  cbn [atoi_spaces].
  destruct (at_lt s pos) as (c' & Hc' & ->); [apply lookup_lt_Some in Hk; lia|].
  cbn [bind]. destruct (isSpace c') eqn:Hsp; [|exists pos; split; [done|lia]].
  assert (pos <> k) as Hne by (intros ->; congruence).
  destruct (IH (S pos)) as (q & -> & Hq); [lia|lia|]. exists q. split; [done|lia].
Qed.

Lemma atoi_digits_stops (s : list ascii) (k : nat) (c : ascii) :
  s !! k = Some c -> isDigit c = false ->
  forall fuel pos acc, pos <= k -> k - pos < fuel ->
    exists v, atoi_digits fuel s pos acc = Ok v.
Proof.
  intros Hk Hc. induction fuel as [|fuel IH]; intros pos acc Hpos Hfuel; [lia|].
  cbn [atoi_digits].
  destruct (at_lt s pos) as (c' & Hc' & ->); [apply lookup_lt_Some in Hk; lia|].
  cbn [bind]. destruct (isDigit c') eqn:Hd; [|by eexists].
  assert (pos <> k) as Hne by (intros ->; congruence).
  apply IH; lia.
Qed.

(** [atoi] on a buffer with a NUL byte ahead reads no further than that
    byte. *)
Lemma atoi_terminated (s : list ascii) (pos k : nat) :
  s !! k = Some NUL -> pos <= k ->
  (exists v, atoi s pos = Ok v) \/ atoi s pos = Undefined IntOverflow.
Proof.
  intros Hk Hpos. unfold atoi. cbv zeta.
  pose proof (lookup_lt_Some _ _ _ Hk) as Hlen.
  destruct (atoi_spaces_stops s k NUL Hk eq_refl (S (length s)) pos) as (q & -> & Hq);
    [done|lia|]. cbn [bind].
  destruct (at_lt s q) as (c & Hc & ->); [lia|]. cbn [bind].
  assert ((if Ascii.eqb c "-" || Ascii.eqb c "+" then S q else q) <= k) as Hnext.
  { destruct (Ascii.eqb c "-" || Ascii.eqb c "+") eqn:Hsign; [|lia].
    destruct (decide (q = k)) as [->|]; [|lia]. rewrite Hk in Hc. by injection Hc as <-. }
  destruct (atoi_digits_stops s k NUL Hk eq_refl (S (length s)) _ 0%Z Hnext) as (v & ->);
    [lia|]. cbn [bind].
  destruct (_ && _); [left; by eexists|by right].
Qed.

Lemma probeFormat_IGES_terminated (input : FormatProbeInput) (k : nat) :
  contentsBegin input !! k = Some NUL -> 73 <= k ->
  length (contentsBegin input) <> 80 ->
  (exists f, probeFormat_IGES input = Ok f) \/
  probeFormat_IGES input = Undefined IntOverflow.
Proof.
  intros Hk Hk73 Hlen. unfold probeFormat_IGES. cbv zeta. set (s := contentsBegin input) in *.
  destruct (Nat.leb_spec 80 (length s)); [|left; by eexists].
  destruct (at_lt s 72) as (c72 & _ & ->); [lia|]. cbn [bind].
  destruct (Ascii.eqb c72 "S"); [|left; by eexists].
  destruct (iges_columns_in_bounds 7 s 73 true) as [b ->]; [lia|]. cbn [bind].
  destruct (at_lt s 80) as (c80 & _ & ->); [lia|]. cbn [bind].
  destruct (b && _); [|left; by eexists].
  destruct (atoi_terminated s 73 k Hk Hk73) as [[v ->]| ->]; [|by right].
  cbn [bind]. left. destruct (v =? 1)%Z; by eexists.
Qed.

Lemma probeFormat_OBJ_returns (input : FormatProbeInput) :
  exists f, probeFormat_OBJ input = Ok f.
Proof.
  unfold probeFormat_OBJ, probeFormat_OBJ_with. cbv zeta.
  destruct (regex_search _ _ _); by eexists.
Qed.

(** X16: a prefix that holds a NUL byte keeps every predefined probe inside
    it.  [probeFormat_STEP], [probeFormat_OCCBREP], [probeFormat_STL] and
    [probeFormat_OBJ] return a format; [probeFormat_IGES], when the byte is
    at index 73 or later and the prefix has not exactly 80 bytes, returns a
    format unless the sequence number overflows [int] in [atoi]. *)
Theorem predefined_probes_stop_at_NUL (input : FormatProbeInput) (k : nat) :
  contentsBegin input !! k = Some NUL ->
  (exists f, probeFormat_STEP input = Ok f) /\
  (exists f, probeFormat_OCCBREP input = Ok f) /\
  (exists f, probeFormat_STL input = Ok f) /\
  (exists f, probeFormat_OBJ input = Ok f) /\
  (73 <= k -> length (contentsBegin input) <> 80 ->
   (exists f, probeFormat_IGES input = Ok f) \/
   probeFormat_IGES input = Undefined IntOverflow).
Proof.
  intros Hk. split_and!.
  - by apply (probeFormat_STEP_terminated input k).
  - by apply (probeFormat_OCCBREP_terminated input k).
  - by apply (probeFormat_STL_terminated input k).
  - apply probeFormat_OBJ_returns.
  - intros Hk73 Hlen. by apply (probeFormat_IGES_terminated input k).
Qed.

Lemma predefined_probes_stop_at_NUL_witness :
  exists f, probeFormat_STEP (Examples.probeInput (bytes_of "ISO-10303-21" ++ [NUL]) 12) = Ok f.
Proof.
  apply (predefined_probes_stop_at_NUL
           (Examples.probeInput (bytes_of "ISO-10303-21" ++ [NUL]) 12) 12).
  reflexivity.
Defined.

(** ** [probeFormat] with the predefined probes *)

Lemma read_buff_NUL (contents : list ascii) :
  length contents < 2048 -> read_buff contents !! 2047 = Some NUL.
Proof.
  intros Hlen. rewrite read_buff_lookup by lia.
  by rewrite lookup_ge_None_2 by lia.
Qed.

Lemma read_buff_app (front rest : list ascii) :
  length front <= 2048 ->
  exists rest', read_buff (front ++ rest) = front ++ rest'.
Proof.
  intros Hlen. unfold read_buff. rewrite <- app_assoc, take_app.
  rewrite take_ge by done. by eexists.
Qed.

Lemma predefined_probes (sys0 : System) (rs : list Registration) :
  addPredefinedFormatProbes (Some System_new) = Some sys0 ->
  m_vecFormatProbe (register_all sys0 rs)
  = [probeFormat_STEP; probeFormat_IGES; probeFormat_OCCBREP; probeFormat_STL;
     probeFormat_OBJ].
Proof.
  intros [= <-]. by destruct (register_all_extends rs
    (addFormatProbe (addFormatProbe (addFormatProbe (addFormatProbe
       (addFormatProbe System_new probeFormat_STEP) probeFormat_IGES)
       probeFormat_OCCBREP) probeFormat_STL) probeFormat_OBJ)) as [-> _].
Qed.

Lemma probe_loop_in_bounds (vec : list FormatProbe) (input : FormatProbeInput) :
  (forall p, p ∈ vec -> (exists f, p input = Ok f) \/ p input = Undefined IntOverflow) ->
  (exists o, probe_loop vec input = Ok o) \/ probe_loop vec input = Undefined IntOverflow.
Proof.
  induction vec as [|p vec IH]; intros Hall; cbn [probe_loop]; [left; by eexists|].
  destruct (Hall p (list_elem_of_here _ _)) as [[f ->]| ->]; cbn [bind]; [|by right].
  destruct (negb _); [left; by eexists|].
  apply IH. intros q Hq. by apply Hall, list_elem_of_further.
Qed.

(** X17: with the predefined probes, and whatever factories are registered,
    [probeFormat] reads no byte outside its buffer for a file that cannot be
    opened or is shorter than the 2048 bytes of the buffer: it returns a
    format, unless [atoi] overflows [int] in [probeFormat_IGES]. *)
Theorem probeFormat_short_file_in_bounds
    (formatFileSuffixes : Format -> list string) (fs : FilePath -> option QByteArray)
    (sys0 : System) (rs : list Registration) (filepath : FilePath) :
  addPredefinedFormatProbes (Some System_new) = Some sys0 ->
  match fs filepath with
  | Some contents => length contents < 2048
  | None => True
  end ->
  (exists f, probeFormat formatFileSuffixes fs (register_all sys0 rs) filepath = Ok f) \/
  probeFormat formatFileSuffixes fs (register_all sys0 rs) filepath = Undefined IntOverflow.
Proof.
  intros Hsys Hshort. unfold probeFormat. rewrite (predefined_probes sys0 rs Hsys).
  destruct (fs filepath) as [contents|]; [|left; by eexists].
  set (input := make_probeInput filepath contents).
  assert (contentsBegin input !! 2047 = Some NUL) as Hk by (by apply read_buff_NUL).
  assert (length (contentsBegin input) <> 80) as Hlen
    by (unfold input; cbn [contentsBegin make_probeInput]; rewrite read_buff_length; lia).
  destruct (probe_loop_in_bounds
              [probeFormat_STEP; probeFormat_IGES; probeFormat_OCCBREP; probeFormat_STL;
               probeFormat_OBJ] input) as [[[f|] ->]| ->];
    [|left; by eexists|left; by eexists|by right].
  intros p Hp. repeat (apply elem_of_cons in Hp as [->|Hp]).
  - left. by apply (probeFormat_STEP_terminated input 2047).
  - apply (probeFormat_IGES_terminated input 2047); [done|lia|done].
  - left. by apply (probeFormat_OCCBREP_terminated input 2047).
  - left. by apply (probeFormat_STL_terminated input 2047).
  - left. apply probeFormat_OBJ_returns.
  - apply elem_of_nil in Hp. destruct Hp.
Qed.

Lemma probeFormat_short_file_in_bounds_witness :
  (exists f, probeFormat ImportExamples.suffixes ImportExamples.files
               (register_all
                  (addFormatProbe (addFormatProbe (addFormatProbe (addFormatProbe
                     (addFormatProbe System_new probeFormat_STEP) probeFormat_IGES)
                     probeFormat_OCCBREP) probeFormat_STL) probeFormat_OBJ)
                  RegistryExamples.registrations)
               "bad.xyz" = Ok f) \/
  probeFormat ImportExamples.suffixes ImportExamples.files
    (register_all
       (addFormatProbe (addFormatProbe (addFormatProbe (addFormatProbe
          (addFormatProbe System_new probeFormat_STEP) probeFormat_IGES)
          probeFormat_OCCBREP) probeFormat_STL) probeFormat_OBJ)
       RegistryExamples.registrations)
    "bad.xyz" = Undefined IntOverflow.
Proof.
  apply probeFormat_short_file_in_bounds.
  - reflexivity.
  - cbn. lia.
Defined.

(** X18: the content decides before the name.  With the predefined probes, a
    file that begins with the STEP pattern inside the first 2048 bytes is
    probed as [Format_STEP], whatever its name and the formats that are
    registered. *)
Theorem probeFormat_STEP_content_first
    (formatFileSuffixes : Format -> list string) (fs : FilePath -> option QByteArray)
    (sys0 : System) (rs : list Registration) (filepath : FilePath)
    (ws1 ws2 ws3 rest : list ascii) :
  addPredefinedFormatProbes (Some System_new) = Some sys0 ->
  forallb isSpace ws1 = true ->
  forallb isSpace ws2 = true ->
  forallb isSpace ws3 = true ->
  fs filepath = Some (ws1 ++ bytes_of "ISO-10303-21" ++ ws2 ++ bytes_of ";" ++ ws3
                          ++ bytes_of "HEADER" ++ rest) ->
  length ws1 + length ws2 + length ws3 + 19 <= 2048 ->
  probeFormat formatFileSuffixes fs (register_all sys0 rs) filepath = Ok Format_STEP.
Proof.
  intros Hsys Hws1 Hws2 Hws3 Hfile Hlen. unfold probeFormat. rewrite Hfile.
  set (input := make_probeInput filepath _).
  assert (probe_loop (m_vecFormatProbe (register_all sys0 rs)) input
          = Ok (Some Format_STEP)) as ->; [|done].
  rewrite (predefined_probes sys0 rs Hsys).
  apply (probe_loop_hit []
           [probeFormat_IGES; probeFormat_OCCBREP; probeFormat_STL; probeFormat_OBJ]
           probeFormat_STEP input Format_STEP); [| |done].
  - intros p Hp. apply elem_of_nil in Hp. destruct Hp.
  - destruct (read_buff_app
                (ws1 ++ bytes_of "ISO-10303-21" ++ ws2 ++ bytes_of ";" ++ ws3
                   ++ bytes_of "HEADER") rest) as [rest' Hbuff].
    { rewrite !length_app. cbn [length bytes_of String.list_ascii_of_string]. lia. }
    apply (probeFormat_STEP_complete input ws1 ws2 ws3 rest'); [done|done|done|].
    unfold input. cbn [contentsBegin make_probeInput].
    rewrite <- !app_assoc in Hbuff. exact Hbuff.
Qed.

Lemma probeFormat_STEP_content_first_witness :
  probeFormat ImportExamples.suffixes
    (fun _ => Some (bytes_of (" ISO-10303-21;" +:+ newline +:+ "HEADER;")))
    (register_all
       (addFormatProbe (addFormatProbe (addFormatProbe (addFormatProbe
          (addFormatProbe System_new probeFormat_STEP) probeFormat_IGES)
          probeFormat_OCCBREP) probeFormat_STL) probeFormat_OBJ)
       RegistryExamples.registrations)
    "part.stl"
  = Ok Format_STEP.
Proof.
  apply (probeFormat_STEP_content_first _ _ _ _ _
           (bytes_of " ") [] (bytes_of newline) (bytes_of ";"));
    [reflexivity|reflexivity|reflexivity|reflexivity|reflexivity|cbn; lia].
Defined.

(** ** The guess from the suffix *)

Lemma matchFileSuffix_in_tolower (candidates : list string) (s s' : list ascii) :
  map tolower s = map tolower s' ->
  matchFileSuffix_in candidates s = matchFileSuffix_in candidates s'.
Proof.
  intros Heq. apply eq_true_iff_eq. by rewrite !matchFileSuffix_in_true, Heq.
Qed.

Lemma suffix_loop_tolower (formatFileSuffixes : Format -> list string)
    (vec : list Format) (s s' : list ascii) :
  map tolower s = map tolower s' ->
  suffix_loop formatFileSuffixes vec s = suffix_loop formatFileSuffixes vec s'.
Proof.
  intros Heq. induction vec as [|format vec IH]; cbn [suffix_loop]; [done|].
  unfold fnMatchFileSuffix. by rewrite (matchFileSuffix_in_tolower _ s s' Heq), IH.
Qed.

(** X19: the guess from the suffix depends on the path only through its
    extension, and on the extension only up to the case of its letters. *)
Theorem guessFromSuffix_ignores_case
    (formatFileSuffixes : Format -> list string) (sys : System) (fp fp' : FilePath) :
  map tolower (fileSuffix_of fp) = map tolower (fileSuffix_of fp') ->
  guessFromSuffix formatFileSuffixes sys fp = guessFromSuffix formatFileSuffixes sys fp'.
Proof.
  intros Heq. unfold guessFromSuffix. cbv zeta.
  rewrite (suffix_loop_tolower _ (m_vecReaderFormat sys) _ _ Heq).
  by rewrite (suffix_loop_tolower _ (m_vecWriterFormat sys) _ _ Heq).
Qed.

Lemma guessFromSuffix_ignores_case_witness :
  guessFromSuffix ImportExamples.suffixes ImportExamples.system "parts/a.STP"
  = guessFromSuffix ImportExamples.suffixes ImportExamples.system "b.stp".
Proof.
  apply guessFromSuffix_ignores_case. vm_compute. reflexivity.
Defined.

(** ** The binary branch of [probeFormat_STL] on a well-formed file *)

Lemma probeFormat_STL_binary_exact_below_wrap_witness :
  probeFormat_STL_binary
    (Examples.probeInput
       (replicate 80 NUL ++ ["001"%char; NUL; NUL; NUL] ++ replicate 50 NUL) 134)
  = Ok true.
Proof.
  apply (probeFormat_STL_binary_exact_below_wrap _ "001"%char NUL NUL NUL);
    [reflexivity|reflexivity|reflexivity|reflexivity|vm_compute; discriminate
    |vm_compute; reflexivity].
Defined.
